(** * The application reconciler and the storage-trait use case

    A shallow embedding of two parts of the repository:

    - [Controller]: the application controller
      (src/pkg/apiserver/rest/apis/cmbv1/types.go, package [application]):
      [Reconcile], [handleFinalizers], [gcResourceTrackers], the status
      writers, the update-event filter and the ResourceTracker mapping;
    - [Trait]: the storage-item use case (package [usecase], three
      revisions under src/unnamed) with the error codes of
      src/pkg/apiserver/rest/utils/bcode/012_trait.go.

    Logging, tracing, metrics and event recording are left out.
    Go pointers to a shared object are modelled by explicit state passing:
    the reconciler threads one in-memory [Application] through a pass, and
    the use case writes the property document it mutated back into the
    component it came from. *)

From stdpp Require Import base decidable option list strings pretty gmap.
From Stdlib Require Import ZArith.

Set Warnings "-register-all,-clear-no-such-hyp".

Module Controller.

(** ** Plain values *)

(** [time.Duration]: a signed count of nanoseconds. *)
Definition Duration : Type := Z.

Definition Millisecond : Duration := 1000000%Z.
Definition Second : Duration := (1000 * Millisecond)%Z.

(** [metav1.Time]; [0] stands for the zero instant. *)
Definition Time : Type := Z.

(** [IsZero] of a [metav1.Time] pointer: nil or the zero instant. *)
Definition IsZero (t : option Time) : bool :=
  match t with
  | None => true
  | Some i => bool_decide (i = 0%Z)
  end.

(** Go [error] values, kept as trees so that wrapping stays visible. *)
Inductive error : Type :=
| ErrExternal (msg : string)
| ErrWrapped (msg : string) (cause : error)
| ErrObjectLevel (ctype : string) (cmsg : string).

#[global] Instance error_eq_dec : EqDecision error.
Proof. solve_decision. Defined.

(** [%q] of [fmt]: the text between double quotes (escapes left out). *)
Definition quoted (s : string) : string :=
  String (Ascii.ascii_of_nat 34) (s +:+ String (Ascii.ascii_of_nat 34) EmptyString).

(** The [Error()] method. *)
Fixpoint errorString (e : error) : string :=
  match e with
  | ErrExternal msg => msg
  | ErrWrapped msg cause => msg +:+ ": " +:+ errorString cause
  | ErrObjectLevel ctype cmsg =>
      "object level reconcile error, type: " +:+ quoted ctype
      +:+ ", msg: " +:+ quoted cmsg
  end.

(** [errors.Wrap] and [errors.WithMessage]: nil stays nil. *)
Definition Wrap (e : option error) (msg : string) : option error :=
  ErrWrapped msg <$> e.

Definition WithMessage (e : error) (msg : string) : error := ErrWrapped msg e.

Definition errUpdateApplicationFinalizer : string :=
  "cannot update application finalizer".

Definition baseGCBackoffWaitTime : Duration := (3000 * Millisecond)%Z.

Definition resourceTrackerFinalizer : string :=
  "app.oam.dev/resource-tracker-finalizer".

(** Annotation and label keys of package [oam] (not under src/; nothing
    below depends on their text). *)
Definition AnnotationKubeVelaVersion : string := "oam.dev/kubevela-version".
Definition AnnotationControllerRequirement : string :=
  "app.oam.dev/controller-version-require".
Definition LabelAppName : string := "app.oam.dev/name".
Definition LabelAppNamespace : string := "app.oam.dev/namespace".

(** ** The Application object *)

Inductive ApplicationPhase : Type :=
| PhaseUnset
| ApplicationStarting
| ApplicationRendering
| ApplicationPolicyGenerating
| ApplicationRunningWorkflow
| ApplicationWorkflowSuspending
| ApplicationWorkflowTerminated
| ApplicationWorkflowFinished
| ApplicationRunning
| ApplicationUnhealthy
| ApplicationDeleting.

#[global] Instance ApplicationPhase_eq_dec : EqDecision ApplicationPhase.
Proof. solve_decision. Defined.

Inductive WorkflowState : Type :=
| WorkflowStateInitializing
| WorkflowStateSuspended
| WorkflowStateTerminated
| WorkflowStateExecuting
| WorkflowStateSucceeded
| WorkflowStateFinished
| WorkflowStateSkipping.

Inductive ConditionStatus : Type := ConditionTrue | ConditionFalse.

#[global] Instance ConditionStatus_eq_dec : EqDecision ConditionStatus.
Proof. solve_decision. Defined.

Record Condition : Type := {
  condType : string;
  condStatus : ConditionStatus;
  condLastTransitionTime : Time;
  condReason : string;
  condMessage : string;
}.

#[global] Instance Condition_eq_dec : EqDecision Condition.
Proof. solve_decision. Defined.

Record ApplicationTraitStatus : Type := {
  traitType : string;
  traitHealthy : bool;
}.

#[global] Instance ApplicationTraitStatus_eq_dec : EqDecision ApplicationTraitStatus.
Proof. solve_decision. Defined.

Record ApplicationComponentStatus : Type := {
  svcName : string;
  svcHealthy : bool;
  svcTraits : list ApplicationTraitStatus;
}.

#[global] Instance ApplicationComponentStatus_eq_dec :
  EqDecision ApplicationComponentStatus.
Proof. solve_decision. Defined.

Record WorkflowStatus : Type := {
  wfSteps : list string;
  wfContextBackend : option string;
  wfMessage : string;
  wfSuspend : bool;
  wfTerminated : bool;
  wfFinished : bool;
}.

#[global] Instance WorkflowStatus_eq_dec : EqDecision WorkflowStatus.
Proof. solve_decision. Defined.

Record AppStatus : Type := {
  Phase : ApplicationPhase;
  ObservedGeneration : Z;
  Conditions : list Condition;
  AppliedResources : list string;
  Services : list ApplicationComponentStatus;
  Workflow : option WorkflowStatus;
  LatestRevision : option string;
}.

#[global] Instance AppStatus_eq_dec : EqDecision AppStatus.
Proof. solve_decision. Defined.

Record Application : Type := {
  Name : string;
  Namespace : string;
  Generation : Z;
  ResourceVersion : string;
  DeletionTimestamp : option Time;
  Finalizers : list string;
  Annotations : option (gmap string string);
  ManagedFields : list string;
  Spec : string;
  Status : AppStatus;
}.

#[global] Instance Application_eq_dec : EqDecision Application.
Proof. solve_decision. Defined.

(** Field assignments. *)

Definition withStatus (a : Application) (s : AppStatus) : Application :=
  {| Name := Name a; Namespace := Namespace a; Generation := Generation a;
     ResourceVersion := ResourceVersion a;
     DeletionTimestamp := DeletionTimestamp a; Finalizers := Finalizers a;
     Annotations := Annotations a; ManagedFields := ManagedFields a;
     Spec := Spec a; Status := s |}.

Definition withFinalizers (a : Application) (f : list string) : Application :=
  {| Name := Name a; Namespace := Namespace a; Generation := Generation a;
     ResourceVersion := ResourceVersion a;
     DeletionTimestamp := DeletionTimestamp a; Finalizers := f;
     Annotations := Annotations a; ManagedFields := ManagedFields a;
     Spec := Spec a; Status := Status a |}.

Definition withAnnotations (a : Application) (m : option (gmap string string))
  : Application :=
  {| Name := Name a; Namespace := Namespace a; Generation := Generation a;
     ResourceVersion := ResourceVersion a;
     DeletionTimestamp := DeletionTimestamp a; Finalizers := Finalizers a;
     Annotations := m; ManagedFields := ManagedFields a;
     Spec := Spec a; Status := Status a |}.

Definition withManagedFields (a : Application) (m : list string) : Application :=
  {| Name := Name a; Namespace := Namespace a; Generation := Generation a;
     ResourceVersion := ResourceVersion a;
     DeletionTimestamp := DeletionTimestamp a; Finalizers := Finalizers a;
     Annotations := Annotations a; ManagedFields := m;
     Spec := Spec a; Status := Status a |}.

Definition withResourceVersion (a : Application) (v : string) : Application :=
  {| Name := Name a; Namespace := Namespace a; Generation := Generation a;
     ResourceVersion := v;
     DeletionTimestamp := DeletionTimestamp a; Finalizers := Finalizers a;
     Annotations := Annotations a; ManagedFields := ManagedFields a;
     Spec := Spec a; Status := Status a |}.

Definition withPhase (s : AppStatus) (p : ApplicationPhase) : AppStatus :=
  {| Phase := p; ObservedGeneration := ObservedGeneration s;
     Conditions := Conditions s; AppliedResources := AppliedResources s;
     Services := Services s; Workflow := Workflow s;
     LatestRevision := LatestRevision s |}.

Definition withObservedGeneration (s : AppStatus) (g : Z) : AppStatus :=
  {| Phase := Phase s; ObservedGeneration := g;
     Conditions := Conditions s; AppliedResources := AppliedResources s;
     Services := Services s; Workflow := Workflow s;
     LatestRevision := LatestRevision s |}.

Definition withConditions (s : AppStatus) (c : list Condition) : AppStatus :=
  {| Phase := Phase s; ObservedGeneration := ObservedGeneration s;
     Conditions := c; AppliedResources := AppliedResources s;
     Services := Services s; Workflow := Workflow s;
     LatestRevision := LatestRevision s |}.

Definition withAppliedResources (s : AppStatus) (l : list string) : AppStatus :=
  {| Phase := Phase s; ObservedGeneration := ObservedGeneration s;
     Conditions := Conditions s; AppliedResources := l;
     Services := Services s; Workflow := Workflow s;
     LatestRevision := LatestRevision s |}.

Definition withServices (s : AppStatus) (l : list ApplicationComponentStatus)
  : AppStatus :=
  {| Phase := Phase s; ObservedGeneration := ObservedGeneration s;
     Conditions := Conditions s; AppliedResources := AppliedResources s;
     Services := l; Workflow := Workflow s;
     LatestRevision := LatestRevision s |}.

Definition withWorkflow (s : AppStatus) (w : option WorkflowStatus) : AppStatus :=
  {| Phase := Phase s; ObservedGeneration := ObservedGeneration s;
     Conditions := Conditions s; AppliedResources := AppliedResources s;
     Services := Services s; Workflow := w;
     LatestRevision := LatestRevision s |}.

(** [b] is [a] but for its status. *)
Definition onlyStatusChanged (a b : Application) : Prop :=
  b = withStatus a (Status b).

(** ** Finalizers (crossplane-runtime [meta]) *)

Definition FinalizerExists (a : Application) (f : string) : bool :=
  bool_decide (f ∈ Finalizers a).

Definition AddFinalizer (a : Application) (f : string) : Application :=
  if FinalizerExists a f then a else withFinalizers a (Finalizers a ++ [f]).

Definition RemoveFinalizer (a : Application) (f : string) : Application :=
  withFinalizers a (filter (λ e, e ≠ f) (Finalizers a)).

(** ** Conditions *)

(** Modelled from the spec: the condition helpers of package [condition]
    are not under src/. A condition is "named, timestamped, with a reason
    string", and the list keeps "the latest reason/message per condition
    type": [SetConditions] replaces the entry of the same type or appends. *)
Fixpoint setCondition (l : list Condition) (c : Condition) : list Condition :=
  match l with
  | [] => [c]
  | x :: l' =>
      if bool_decide (condType x = condType c) then c :: l'
      else x :: setCondition l' c
  end.

Definition SetConditions (a : Application) (c : Condition) : Application :=
  withStatus a (withConditions (Status a) (setCondition (Conditions (Status a)) c)).

Definition ReconcileError (now : Time) (e : error) : Condition :=
  {| condType := "Synced"; condStatus := ConditionFalse;
     condLastTransitionTime := now; condReason := "ReconcileError";
     condMessage := errorString e |}.

Definition ErrorCondition (now : Time) (tpy : string) (e : error) : Condition :=
  {| condType := tpy; condStatus := ConditionFalse;
     condLastTransitionTime := now; condReason := "ReconcileError";
     condMessage := errorString e |}.

Definition ReadyCondition (now : Time) (tpy : string) : Condition :=
  {| condType := tpy; condStatus := ConditionTrue;
     condLastTransitionTime := now; condReason := "Available";
     condMessage := EmptyString |}.

Definition Deleting (now : Time) : Condition :=
  {| condType := "Ready"; condStatus := ConditionFalse;
     condLastTransitionTime := now; condReason := "Deleting";
     condMessage := EmptyString |}.

Definition withMessage (c : Condition) (m : string) : Condition :=
  {| condType := condType c; condStatus := condStatus c;
     condLastTransitionTime := condLastTransitionTime c;
     condReason := condReason c; condMessage := m |}.

(** ** [updateObservedGeneration] *)

Definition updateObservedGeneration (a : Application) : Application :=
  if bool_decide (ObservedGeneration (Status a) ≠ Generation a)
  then withStatus a (withObservedGeneration (Status a) (Generation a))
  else a.

(** ** Collaborators

    Everything the pass calls outside this file of the package: the API
    client, the resource keeper, the application handler and parser, the
    workflow driver, and the package variables a deployment sets. A pass is
    a function of their answers. *)

Record Request : Type := {
  reqNamespace : string;
  reqName : string;
}.

#[global] Instance Request_eq_dec : EqDecision Request.
Proof. solve_decision. Defined.

(** [ctrl.Result]. *)
Record Result : Type := {
  Requeue : bool;
  RequeueAfter : Duration;
}.

Definition emptyResult : Result := {| Requeue := false; RequeueAfter := 0%Z |}.

Record ResourceTracker : Type := {
  rtName : string;
  rtLabels : option (gmap string string);
  rtDeletionTimestamp : option Time;
  rtManagedFields : list string;
  rtResourceVersion : string;
  rtManagedResources : list string;
}.

#[global] Instance ResourceTracker_eq_dec : EqDecision ResourceTracker.
Proof. solve_decision. Defined.

(** What [ListApplicationResourceTrackers] returns besides the error. *)
Record Trackers : Type := {
  rootRT : option ResourceTracker;
  currentRT : option ResourceTracker;
  historyRTs : list ResourceTracker;
  cvRT : option ResourceTracker;
}.

Inductive GCOption : Type :=
| DisableMarkStageGCOption
| DisableGCComponentRevisionOption
| DisableLegacyGCOption.

Record PolicyDefinition : Type := { ManageHealthCheck : bool }.
Record Template : Type := { TemplatePolicyDefinition : option PolicyDefinition }.
Record Workload : Type := { FullTemplate : option Template }.

Record AppFile : Type := {
  PolicyWorkloads : list Workload;
  WorkflowMode : string;
}.

Inductive GetResult : Type :=
| GetFound (a : Application)
| GetNotFound
| GetFailed (e : error).

Record Externals : Type := {
  (* package variables *)
  ApplicationReSyncPeriod : Duration;
  VelaVersion : string;
  EnableReconcileLoopReduction : bool;
  EnableResourceTrackerDeleteOnlyTrigger : bool;
  EnableInMemoryContext : bool;
  Now : Time;
  (* API client *)
  Get : Request -> GetResult;
  Update : Application -> option error;
  StatusPatch : Application -> option error;
  StatusUpdate : Application -> option error;
  Unstructured : Application -> option error;
  (* resource trackers and the resource keeper *)
  ListApplicationResourceTrackers : Application -> error + Trackers;
  GarbageCollect : Application -> list GCOption -> bool * list string * option error;
  StateKeep : Application -> option error;
  garbageCollection : Application -> option error;
  Dispatch : Application -> list string -> option error;
  (* application handler and parser *)
  NewAppHandler : Application -> option error;
  GenerateAppFile : Application -> error + AppFile;
  PrepareCurrentAppRevision : Application -> AppFile -> Application * option error;
  FinalizeAndApplyAppRevision : Application -> Application * option error;
  UpdateAppLatestRevisionStatus : Application -> Application * option error;
  PrepareWorkflowAndPolicy : AppFile -> error + list string;
  GenerateApplicationSteps : Application -> AppFile -> error + list string;
  addServiceStatus : list ApplicationComponentStatus -> list ApplicationComponentStatus;
  addAppliedResource : list string -> list string;
  (* workflow driver *)
  ExecuteSteps : Application -> list string -> Application * (error + WorkflowState);
  GetBackoffWaitTime : Application -> Duration;
  Trace : Application -> option error;
}.

(** The reconciler's [options]. *)
Record Reconciler : Type := {
  appRevisionLimit : Z;
  concurrentReconciles : Z;
  disableStatusUpdate : bool;
  ignoreAppNoCtrlReq : bool;
  controllerVersion : string;
}.

(** ** The state of a pass *)

(** The calls that the code of this file makes and that leave the
    process, in the order they were made. What a collaborator does behind
    its own call is not in this file and is not recorded: the methods of
    the application handler hold the reconciler and the object, and may
    write the status themselves. *)
Inductive Effect : Type :=
| EUpdate (a : Application)
| EStatusPatch (a : Application)
| EStatusUpdate (a : Application)
| EGarbageCollect (options : list GCOption)
| EStateKeep
| EDispatch (resources : list string)
| EExecuteSteps (answer : error + WorkflowState).

(** What the workflow driver answered to the [ExecuteSteps] calls of a trace. *)
Definition workflowAnswers (t : list Effect) : list (error + WorkflowState) :=
  omap (λ e, match e with EExecuteSteps answer => Some answer | _ => None end) t.

Definition isStatusWrite (e : Effect) : bool :=
  match e with
  | EStatusPatch _ | EStatusUpdate _ => true
  | _ => false
  end.

(** [app] is the object every function of the pass holds a pointer to;
    [StepStatusCache] is [workflow.StepStatusCache]; [MemStoreDeleted] lists
    the names handed to [wfContext.MemStore.DeleteInMemoryContext]. *)
Record World : Type := {
  app : Application;
  StepStatusCache : gmap string Z;
  MemStoreDeleted : list string;
  trace : list Effect;
}.

Definition emptyStatus : AppStatus :=
  {| Phase := PhaseUnset; ObservedGeneration := 0%Z; Conditions := [];
     AppliedResources := []; Services := []; Workflow := None;
     LatestRevision := None |}.

(** [new(v1beta1.Application)]. *)
Definition newApplication : Application :=
  {| Name := EmptyString; Namespace := EmptyString; Generation := 0%Z;
     ResourceVersion := EmptyString; DeletionTimestamp := None;
     Finalizers := []; Annotations := None; ManagedFields := [];
     Spec := EmptyString; Status := emptyStatus |}.

Definition M (A : Type) : Type := World -> A * World.

#[global] Instance M_ret : MRet M := λ A a w, (a, w).

#[global] Instance M_bind : MBind M :=
  λ A B k m w, let '(a, w') := m w in k a w'.

#[global] Instance M_fmap : FMap M :=
  λ A B f m w, let '(a, w') := m w in (f a, w').

Definition getApp : M Application := λ w, (app w, w).

Definition modifyApp (f : Application -> Application) : M unit :=
  λ w, (tt, {| app := f (app w); StepStatusCache := StepStatusCache w;
              MemStoreDeleted := MemStoreDeleted w; trace := trace w |}).

Definition emit (e : Effect) : M unit :=
  λ w, (tt, {| app := app w; StepStatusCache := StepStatusCache w;
              MemStoreDeleted := MemStoreDeleted w; trace := trace w ++ [e] |}).

(** [workflow.StepStatusCache.Store(key, v)]. *)
Definition cacheStore (key : string) (v : Z) : M unit :=
  λ w, (tt, {| app := app w; StepStatusCache := <[key := v]> (StepStatusCache w);
              MemStoreDeleted := MemStoreDeleted w; trace := trace w |}).

Definition DeleteInMemoryContext (name : string) : M unit :=
  λ w, (tt, {| app := app w; StepStatusCache := StepStatusCache w;
              MemStoreDeleted := MemStoreDeleted w ++ [name]; trace := trace w |}).

(** [fmt.Sprintf("%s-%s", app.Name, app.Namespace)]. *)
Definition cacheKey (a : Application) : string :=
  Name a +:+ "-" +:+ Namespace a.

(** ** The reconcile result *)

Record reconcileResult : Type := {
  rrDuration : Duration;
  rrErr : option error;
}.

(** [(r *Reconciler) result]. *)
Definition result (err : option error) : reconcileResult :=
  {| rrDuration := 0%Z; rrErr := err |}.

Definition requeue (rr : reconcileResult) (d : Duration) : reconcileResult :=
  {| rrDuration := d; rrErr := rrErr rr |}.

(** Pure helpers of the pass. *)

Definition hasHealthCheckPolicy (policies : list Workload) : bool :=
  existsb (λ p,
    match FullTemplate p with
    | Some t =>
        match TemplatePolicyDefinition t with
        | Some d => ManageHealthCheck d
        | None => false
        end
    | None => false
    end) policies.

Definition isHealthy (services : list ApplicationComponentStatus) : bool :=
  forallb (λ service, svcHealthy service && forallb traitHealthy (svcTraits service))
    services.

Definition matchControllerRequirement (r : Reconciler) (a : Application) : bool :=
  match Annotations a with
  | Some annotations =>
      match annotations !! AnnotationControllerRequirement with
      | Some requireVersion => bool_decide (requireVersion = controllerVersion r)
      | None => if ignoreAppNoCtrlReq r then false else true
      end
  | None => if ignoreAppNoCtrlReq r then false else true
  end.

(** The options [gcResourceTrackers] hands to [GarbageCollect]. *)
Definition gcOptions (gcOutdated : bool) : list GCOption :=
  if negb gcOutdated
  then [DisableMarkStageGCOption; DisableGCComponentRevisionOption; DisableLegacyGCOption]
  else [].

(** How a pass ends: it returns, or it panics on a nil workflow status. *)
Inductive Outcome : Type :=
| Done (res : Result) (err : option error)
| Panic.

Definition done (p : Result * option error) : Outcome := Done p.1 p.2.

Section Pass.

Variable ext : Externals.
Variable r : Reconciler.

(** [Duration.Seconds() != 0] holds exactly for a non-zero duration. *)
Definition ret (rr : reconcileResult) : Result * option error :=
  if bool_decide (rrDuration rr ≠ 0%Z) then
    ({| Requeue := false; RequeueAfter := rrDuration rr |}, rrErr rr)
  else
    match rrErr rr with
    | Some e => (emptyResult, Some e)
    | None =>
        ({| Requeue := false; RequeueAfter := ApplicationReSyncPeriod ext |}, None)
    end.

(** [(r *reconcileResult) end]. *)
Definition endWith (rr : reconcileResult) (endReconcile : bool)
  : bool * Result * option error :=
  let '(res, err) := ret rr in (endReconcile, res, err).

Definition patchStatus (phase : ApplicationPhase) : M (option error) :=
  modifyApp (λ a, withStatus a (withPhase (Status a) phase));;
  modifyApp updateObservedGeneration;;
  a ← getApp;
  emit (EStatusPatch a);;
  match StatusPatch ext a with
  | Some err =>
      (* set to -1 to re-run workflow if status is failed to patch *)
      cacheStore (cacheKey a) (-1)%Z;;
      mret (Some err)
  | None => mret None
  end.

Definition updateStatus (phase : ApplicationPhase) : M (option error) :=
  modifyApp (λ a, withStatus a (withPhase (Status a) phase));;
  modifyApp updateObservedGeneration;;
  a ← getApp;
  if negb (disableStatusUpdate r) then
    emit (EStatusUpdate a);;
    mret (StatusUpdate ext a)
  else
    match Unstructured ext a with
    | Some err => mret (Some err)
    | None =>
        emit (EStatusUpdate a);;
        match StatusUpdate ext a with
        | Some err =>
            (* set to -1 to re-run workflow if status is failed to update *)
            cacheStore (cacheKey a) (-1)%Z;;
            mret (Some err)
        | None => mret None
        end
    end.

Definition endWithNegativeCondition (condition : Condition) (phase : ApplicationPhase)
  : M (Result * option error) :=
  modifyApp (λ a, SetConditions a condition);;
  err ← patchStatus phase;
  match err with
  | Some e => mret (ret (result (Some (WithMessage e "cannot update application status"))))
  | None =>
      mret (ret (result (Some (ErrObjectLevel (condType condition) (condMessage condition)))))
  end.

Definition gcResourceTrackers (phase : ApplicationPhase) (gcOutdated : bool)
  : M (Result * option error) :=
  let options := gcOptions gcOutdated in
  a ← getApp;
  emit (EGarbageCollect options);;
  let '(finished, waiting, err) := GarbageCollect ext a options in
  match err with
  | Some e => endWithNegativeCondition (ReconcileError (Now ext) e) phase
  | None =>
      if negb finished then
        let cond := Deleting (Now ext) in
        let cond :=
          match waiting with
          | first :: _ =>
              withMessage cond
                ("Waiting for " +:+ first +:+ " to delete. (At least "
                 +:+ pretty (length waiting) +:+ " resources are deleting.)")
          | [] => cond
          end in
        modifyApp (λ a, SetConditions a cond);;
        e ← patchStatus phase;
        mret (ret (requeue (result e) baseGCBackoffWaitTime))
      else if bool_decide (phase = ApplicationRendering) then
        e ← updateStatus ApplicationRunningWorkflow;
        mret (ret (result e))
      else
        e ← patchStatus phase;
        mret (ret (result e))
  end.

(** [r.Client.Update(ctx, app)]. *)
Definition clientUpdate : M (option error) :=
  a ← getApp;
  emit (EUpdate a);;
  mret (Update ext a).

Definition noTrackers (t : Trackers) : bool :=
  bool_decide (rootRT t = None) && bool_decide (currentRT t = None)
  && bool_decide (length (historyRTs t) = 0) && bool_decide (cvRT t = None).

Definition handleFinalizers : M (bool * Result * option error) :=
  a ← getApp;
  if IsZero (DeletionTimestamp a) then
    if negb (FinalizerExists a resourceTrackerFinalizer) then
      modifyApp (λ a, AddFinalizer a resourceTrackerFinalizer);;
      let endReconcile := negb (EnableReconcileLoopReduction ext) in
      e ← clientUpdate;
      mret (endWith (result (Wrap e errUpdateApplicationFinalizer)) endReconcile)
    else mret (endWith (result None) false)
  else
    if FinalizerExists a resourceTrackerFinalizer then
      match ListApplicationResourceTrackers ext a with
      | inl err => mret (endWith (result (Some err)) true)
      | inr trackers =>
          '(res, err) ← gcResourceTrackers ApplicationDeleting true;
          match err with
          | Some e => mret (true, res, Some e)
          | None =>
              if noTrackers trackers then
                modifyApp (λ a, RemoveFinalizer a resourceTrackerFinalizer);;
                e ← clientUpdate;
                mret (endWith (result (Wrap e errUpdateApplicationFinalizer)) true)
              else
                (if EnableInMemoryContext ext
                 then DeleteInMemoryContext (Name a) else mret tt);;
                mret (true, res, err)
          end
      end
    else mret (endWith (result None) false).

(** [doWorkflowFinish]; [None] is the panic of assigning through a nil
    [app.Status.Workflow]. *)
Definition doWorkflowFinish : M (option (option error)) :=
  a ← getApp;
  match Trace ext a with
  | Some err => mret (Some (Some (WithMessage err "record workflow state")))
  | None =>
      match Workflow (Status a) with
      | None => mret None
      | Some wf =>
          let wf' := {| wfSteps := wfSteps wf; wfContextBackend := wfContextBackend wf;
                        wfMessage := wfMessage wf; wfSuspend := wfSuspend wf;
                        wfTerminated := wfTerminated wf; wfFinished := true |} in
          modifyApp (λ a, withStatus a (withWorkflow (Status a) (Some wf')));;
          mret (Some None)
      end
  end.

(** A handler method that may change the object it was built around. Its
    code is outside this file: whatever else it does (a status write of
    its own included) leaves no entry in the trace. *)
Definition callHandler (f : Application -> Application * option error)
  : M (option error) :=
  a ← getApp;
  let '(a', e) := f a in
  modifyApp (λ _, a');;
  mret e.

(** [metav1.SetMetaDataAnnotation]. *)
Definition SetMetaDataAnnotation (a : Application) (key value : string) : Application :=
  withAnnotations a (Some (<[key := value]> (default ∅ (Annotations a)))).

(** The end of [Reconcile], after the switch on the workflow state:
    final phase, state-keep, full garbage collection. *)
Definition reconcileTail (appFile : AppFile)
    (services : list ApplicationComponentStatus) : M Outcome :=
  phase ←
    (if negb (hasHealthCheckPolicy (PolicyWorkloads appFile)) then
       modifyApp (λ a, withStatus a (withServices (Status a) services));;
       mret (if negb (isHealthy services)
             then ApplicationUnhealthy else ApplicationRunning)
     else mret ApplicationRunning);
  a ← getApp;
  emit EStateKeep;;
  match StateKeep ext a with
  | Some err => modifyApp (λ a, SetConditions a (ErrorCondition (Now ext) "StateKeep" err))
  | None => mret tt
  end;;
  a ← getApp;
  match garbageCollection ext a with
  | Some err => done <$> endWithNegativeCondition (ReconcileError (Now ext) err) phase
  | None =>
      modifyApp (λ a, SetConditions a
        {| condType := "Ready"; condStatus := ConditionTrue;
           condLastTransitionTime := Now ext; condReason := "ReconcileSuccess";
           condMessage := EmptyString |});;
      done <$> gcResourceTrackers phase true
  end.

(** [Reconcile] from [ExecuteSteps] to the end of the switch. *)
Definition reconcileWorkflow (appFile : AppFile) (steps : list string) : M Outcome :=
  a ← getApp;
  let '(a', executed) := ExecuteSteps ext a steps in
  modifyApp (λ _, a');;
  emit (EExecuteSteps executed);;
  match executed with
  | inl err =>
      done <$> endWithNegativeCondition
        (ErrorCondition (Now ext) "Workflow" err) ApplicationRunningWorkflow
  | inr workflowState =>
      a ← getApp;
      let services := addServiceStatus ext (Services (Status a)) in
      let applied := addAppliedResource ext (AppliedResources (Status a)) in
      modifyApp (λ a, withStatus a (withAppliedResources (Status a) applied));;
      modifyApp (λ a, withStatus a (withServices (Status a) services));;
      match workflowState with
      | WorkflowStateInitializing =>
          done <$> gcResourceTrackers ApplicationRendering false
      | WorkflowStateSuspended =>
          done <$> gcResourceTrackers ApplicationWorkflowSuspending false
      | WorkflowStateTerminated =>
          finished ← doWorkflowFinish;
          match finished with
          | None => mret Panic
          | Some (Some err) =>
              done <$> endWithNegativeCondition
                (ErrorCondition (Now ext) "Workflow" (WithMessage err "DoWorkflowFinish"))
                ApplicationRunningWorkflow
          | Some None => done <$> gcResourceTrackers ApplicationWorkflowTerminated false
          end
      | WorkflowStateExecuting =>
          '(_, err) ← gcResourceTrackers ApplicationRunningWorkflow false;
          a ← getApp;
          mret (done (ret (requeue (result err) (GetBackoffWaitTime ext a))))
      | WorkflowStateSucceeded =>
          finished ← doWorkflowFinish;
          match finished with
          | None => mret Panic
          | Some (Some err) =>
              done <$> endWithNegativeCondition
                (ErrorCondition (Now ext) "Workflow" (WithMessage err "DoWorkflowFinish"))
                ApplicationRunningWorkflow
          | Some None =>
              modifyApp (λ a, SetConditions a (ReadyCondition (Now ext) "Workflow"));;
              if negb (EnableReconcileLoopReduction ext) then
                done <$> gcResourceTrackers ApplicationWorkflowFinished false
              else reconcileTail appFile services
          end
      | WorkflowStateFinished =>
          a ← getApp;
          match Workflow (Status a) with
          | Some status =>
              if wfTerminated status then mret (done (ret (result None)))
              else reconcileTail appFile services
          | None => reconcileTail appFile services
          end
      | WorkflowStateSkipping => mret (Done emptyResult None)
      end
  end.

(** [Reconcile] from [GenerateAppFile] to [GenerateApplicationSteps]. *)
Definition reconcileRender : M Outcome :=
  a ← getApp;
  match GenerateAppFile ext a with
  | inl err =>
      done <$> endWithNegativeCondition
        (ErrorCondition (Now ext) "Parsed" err) ApplicationRendering
  | inr appFile =>
  modifyApp (λ a, SetConditions a (ReadyCondition (Now ext) "Parsed"));;
  prepared ← callHandler (λ a, PrepareCurrentAppRevision ext a appFile);
  match prepared with
  | Some err =>
      done <$> endWithNegativeCondition
        (ErrorCondition (Now ext) "Revision" err) ApplicationRendering
  | None =>
  applied ← callHandler (FinalizeAndApplyAppRevision ext);
  match applied with
  | Some err =>
      done <$> endWithNegativeCondition
        (ErrorCondition (Now ext) "Revision" err) ApplicationRendering
  | None =>
  modifyApp (λ a, SetConditions a (ReadyCondition (Now ext) "Revision"));;
  updated ← callHandler (UpdateAppLatestRevisionStatus ext);
  match updated with
  | Some err =>
      done <$> endWithNegativeCondition
        (ReconcileError (Now ext) err) ApplicationRendering
  | None =>
  match PrepareWorkflowAndPolicy ext appFile with
  | inl err =>
      done <$> endWithNegativeCondition
        (ErrorCondition (Now ext) "Policy" (WithMessage err "PrepareWorkflowAndPolicy"))
        ApplicationPolicyGenerating
  | inr externalPolicies =>
  dispatched ←
    (if bool_decide (0 < length externalPolicies) then
       a ← getApp;
       emit (EDispatch externalPolicies);;
       mret (Dispatch ext a externalPolicies)
     else mret None);
  match dispatched with
  | Some err =>
      done <$> endWithNegativeCondition
        (ErrorCondition (Now ext) "Policy" (WithMessage err "ApplyPolices"))
        ApplicationPolicyGenerating
  | None =>
  modifyApp (λ a, SetConditions a (ReadyCondition (Now ext) "Policy"));;
  a ← getApp;
  match GenerateApplicationSteps ext a appFile with
  | inl err =>
      done <$> endWithNegativeCondition
        (ErrorCondition (Now ext) "Workflow" err) ApplicationRendering
  | inr steps =>
  modifyApp (λ a, SetConditions a (ReadyCondition (Now ext) "Render"));;
  reconcileWorkflow appFile steps
  end end end end end end end.

(** [Reconcile]: the object is fetched into the fresh [app] of the pass. *)
Definition Reconcile (req : Request) : M Outcome :=
  match Get ext req with
  | GetFailed err => mret (done (ret (result (Some err))))
  | GetNotFound => mret (done (ret (result None)))
  | GetFound fetched =>
      modifyApp (λ _, fetched);;
      if negb (matchControllerRequirement r fetched) then
        (* skip app: not match the controller requirement of app *)
        mret (Done emptyResult None)
      else
        modifyApp (λ a,
          match Annotations a with
          | None => SetMetaDataAnnotation a AnnotationKubeVelaVersion (VelaVersion ext)
          | Some annotations =>
              if bool_decide (default EmptyString (annotations !! AnnotationKubeVelaVersion)
                              = EmptyString)
              then SetMetaDataAnnotation a AnnotationKubeVelaVersion (VelaVersion ext)
              else a
          end);;
        a ← getApp;
        match NewAppHandler ext a with
        | Some err =>
            done <$> endWithNegativeCondition
              (ReconcileError (Now ext) err) ApplicationStarting
        | None =>
            '(endReconcile, res, err) ← handleFinalizers;
            a ← getApp;
            match err with
            | Some e =>
                match DeletionTimestamp a with
                | None =>
                    done <$> endWithNegativeCondition
                      (ReconcileError (Now ext) e) ApplicationStarting
                | Some _ => mret (Done res (Some e))
                end
            | None =>
                if (endReconcile : bool) then mret (Done res None)
                else reconcileRender
            end
        end
  end.

(** The world a pass starts in: a fresh object, no call made yet. *)
Definition startOfPass (cache : gmap string Z) : World :=
  {| app := newApplication; StepStatusCache := cache;
     MemStoreDeleted := []; trace := [] |}.

End Pass.

(** ** Watch events: the update filter and the tracker mapping *)

(** A watched object, after the type assertions of the handlers. *)
Inductive Object : Type :=
| ObjApplication (a : Application)
| ObjResourceTracker (rt : ResourceTracker)
| ObjOther (kind : string).

Record UpdateEvent : Type := {
  ObjectOld : Object;
  ObjectNew : Object;
}.

(** [reflect.DeepEqual] on the modelled fields. *)
Definition DeepEqual {A} `{EqDecision A} (x y : A) : bool := bool_decide (x = y).

Definition filterManagedFieldChangesUpdate (e : UpdateEvent) : bool :=
  match ObjectNew e, ObjectOld e with
  | ObjResourceTracker new, ObjResourceTracker old =>
      let new :=
        {| rtName := rtName new; rtLabels := rtLabels new;
           rtDeletionTimestamp := rtDeletionTimestamp new;
           rtManagedFields := rtManagedFields old;
           rtResourceVersion := rtResourceVersion old;
           rtManagedResources := rtManagedResources new |} in
      negb (DeepEqual new old)
  | _, _ => true
  end.

(** [new.ManagedFields = old.ManagedFields]. *)
Definition ignoreManagedFields (old new : Application) : Application :=
  withManagedFields new (ManagedFields old).

(** The assignments under [old.Status.Workflow != nil && new.Status.Workflow != nil]. *)
Definition ignoreWorkflowChanges (old new : Application) : Application :=
  match Workflow (Status old), Workflow (Status new) with
  | Some oldWf, Some newWf =>
      let newWf :=
        {| wfSteps := wfSteps oldWf; wfContextBackend := wfContextBackend oldWf;
           wfMessage := wfMessage oldWf; wfSuspend := wfSuspend newWf;
           wfTerminated := wfTerminated newWf; wfFinished := wfFinished newWf |} in
      let new := withStatus new (withWorkflow (Status new) (Some newWf)) in
      let new := withStatus new (withAppliedResources (Status new) (AppliedResources (Status old))) in
      let new := withStatus new (withServices (Status new) (Services (Status old))) in
      withResourceVersion new (ResourceVersion old)
  | _, _ => new
  end.

(** Every field the filter overwrites before its last comparison. *)
Definition normalizeVolatile (old new : Application) : Application :=
  ignoreWorkflowChanges old (ignoreManagedFields old new).

(** The amended C3 in the spec's words: [old] and [new] agree on every
    field but the volatile ones. The managed fields are volatile; when both
    objects carry a workflow status, so are its steps, context backend and
    message, the applied resources, the services and the resource version. *)
Definition agreeOutsideVolatile (old new : Application) : Prop :=
  Name new = Name old
  ∧ Namespace new = Namespace old
  ∧ Generation new = Generation old
  ∧ DeletionTimestamp new = DeletionTimestamp old
  ∧ Finalizers new = Finalizers old
  ∧ Annotations new = Annotations old
  ∧ Spec new = Spec old
  ∧ Phase (Status new) = Phase (Status old)
  ∧ ObservedGeneration (Status new) = ObservedGeneration (Status old)
  ∧ Conditions (Status new) = Conditions (Status old)
  ∧ LatestRevision (Status new) = LatestRevision (Status old)
  ∧ match Workflow (Status old), Workflow (Status new) with
    | Some oldWf, Some newWf =>
        wfSuspend newWf = wfSuspend oldWf
        ∧ wfTerminated newWf = wfTerminated oldWf
        ∧ wfFinished newWf = wfFinished oldWf
    | None, None =>
        ResourceVersion new = ResourceVersion old
        ∧ AppliedResources (Status new) = AppliedResources (Status old)
        ∧ Services (Status new) = Services (Status old)
    | _, _ => False
    end.

(** [UpdateFunc] of the event filter: [true] lets the notification
    through to the queue, [false] suppresses it. *)
Definition UpdateFunc (e : UpdateEvent) : bool :=
  match ObjectNew e, ObjectOld e with
  | ObjApplication new, ObjApplication old =>
      (* We think this event is triggered by resync *)
      if DeepEqual old new then true
      else
        let new := ignoreManagedFields old new in
        if bool_decide (Generation old ≠ Generation new) then true
        else
          let new := ignoreWorkflowChanges old new in
          negb (DeepEqual old new)
  | _, _ => filterManagedFieldChangesUpdate e
  end.

Definition CreateFunc (o : Object) : bool := true.
Definition DeleteFunc (o : Object) : bool := true.

(** [handleResourceTracker]; the rate-limited queue is the list of the
    requests added to it. A missing label reads as the empty string. *)
Definition handleResourceTracker (ext : Externals) (obj : Object)
    (limitingInterface : list Request) : list Request :=
  match obj with
  | ObjResourceTracker rt =>
      if EnableResourceTrackerDeleteOnlyTrigger ext
         && bool_decide (rtDeletionTimestamp rt = None)
      then limitingInterface
      else
        match rtLabels rt with
        | Some labels =>
            let request :=
              {| reqNamespace := default EmptyString (labels !! LabelAppNamespace);
                 reqName := default EmptyString (labels !! LabelAppName) |} in
            if bool_decide (reqNamespace request ≠ EmptyString)
               && bool_decide (reqName request ≠ EmptyString)
            then limitingInterface ++ [request]
            else limitingInterface
        | None => limitingInterface
        end
  | _ => limitingInterface
  end.

(** ** Sample collaborators and objects for the closed examples *)

Definition sampleExternals (resync : Duration) (loopReduction : bool)
    (trackers : error + Trackers) (gc : bool * list string * option error)
    (patchErr updateErr : option error)
    (state : error + WorkflowState) (backoff : Duration) (found : GetResult)
  : Externals :=
  {| ApplicationReSyncPeriod := resync;
     VelaVersion := "v1.2.0";
     EnableReconcileLoopReduction := loopReduction;
     EnableResourceTrackerDeleteOnlyTrigger := true;
     EnableInMemoryContext := false;
     Now := 1%Z;
     Get := λ _, found;
     Update := λ _, None;
     StatusPatch := λ _, patchErr;
     StatusUpdate := λ _, updateErr;
     Unstructured := λ _, None;
     ListApplicationResourceTrackers := λ _, trackers;
     GarbageCollect := λ _ _, gc;
     StateKeep := λ _, None;
     garbageCollection := λ _, None;
     Dispatch := λ _ _, None;
     NewAppHandler := λ _, None;
     GenerateAppFile := λ _, inr {| PolicyWorkloads := []; WorkflowMode := "DAG" |};
     PrepareCurrentAppRevision := λ a _, (a, None);
     FinalizeAndApplyAppRevision := λ a, (a, None);
     UpdateAppLatestRevisionStatus := λ a, (a, None);
     PrepareWorkflowAndPolicy := λ _, inr [];
     GenerateApplicationSteps := λ _ _, inr ["deploy"];
     addServiceStatus := λ l, l;
     addAppliedResource := λ l, l;
     ExecuteSteps := λ a _, (a, state);
     GetBackoffWaitTime := λ _, backoff;
     Trace := λ _, None |}.

Definition sampleReconciler (compat ignoreNoReq : bool) : Reconciler :=
  {| appRevisionLimit := 10%Z; concurrentReconciles := 4%Z;
     disableStatusUpdate := compat; ignoreAppNoCtrlReq := ignoreNoReq;
     controllerVersion := "v1.2.0" |}.

Definition sampleStatus (observed : Z) : AppStatus :=
  {| Phase := ApplicationRunning; ObservedGeneration := observed; Conditions := [];
     AppliedResources := []; Services := []; Workflow := None;
     LatestRevision := Some "web-v1" |}.

Definition sampleApp (generation observed : Z) (deleted : option Time)
    (finalizers : list string) (annotations : option (gmap string string))
  : Application :=
  {| Name := "web"; Namespace := "default"; Generation := generation;
     ResourceVersion := "41"; DeletionTimestamp := deleted;
     Finalizers := finalizers; Annotations := annotations;
     ManagedFields := ["kubectl"]; Spec := "components: [web]";
     Status := sampleStatus observed |}.

Definition sampleWorld (a : Application) : World :=
  {| app := a; StepStatusCache := ∅; MemStoreDeleted := []; trace := [] |}.

Definition fiveMinutes : Duration := (300 * Second)%Z.

(** An application whose deletion was requested and that still has the guard. *)
Definition deletingApp : Application :=
  sampleApp 3 3 (Some 100%Z) [resourceTrackerFinalizer] None.

Definition sampleTracker (name : string) (deleted : option Time)
    (labels : option (gmap string string)) : ResourceTracker :=
  {| rtName := name; rtLabels := labels; rtDeletionTimestamp := deleted;
     rtManagedFields := []; rtResourceVersion := "7";
     rtManagedResources := ["Deployment/web"; "Service/web"] |}.

Definition currentTrackerLeft : Trackers :=
  {| rootRT := None;
     currentRT := Some (sampleTracker "web-v1-default" None None);
     historyRTs := []; cvRT := None |}.

Definition noTrackerLeft : Trackers :=
  {| rootRT := None; currentRT := None; historyRTs := []; cvRT := None |}.

(** First deletion pass: two resources of the current tracker are still
    being deleted. Second pass: nothing is left. *)
Definition deletingExternals : Externals :=
  sampleExternals fiveMinutes false (inr currentTrackerLeft)
    (false, ["Deployment/web"; "Service/web"], None) None None
    (inr WorkflowStateExecuting) (5 * Second)%Z (GetFound deletingApp).

Definition deletedExternals : Externals :=
  sampleExternals fiveMinutes false (inr noTrackerLeft)
    (true, [], None) None None
    (inr WorkflowStateExecuting) (5 * Second)%Z (GetFound deletingApp).

(** An application at generation 2 whose status was last written at 1. *)
Definition editedApp : Application :=
  sampleApp 2 1 None [resourceTrackerFinalizer] None.

Definition quietExternals : Externals :=
  sampleExternals fiveMinutes false (inr noTrackerLeft)
    (true, [], None) None None
    (inr WorkflowStateExecuting) (5 * Second)%Z (GetFound editedApp).

(** The running workflow rewrote its steps and the resource version. *)
Definition workflowStepped (a : Application) (steps : list string) (version : string)
  : Application :=
  withResourceVersion
    (withStatus a (withWorkflow (Status a)
       (Some {| wfSteps := steps; wfContextBackend := None; wfMessage := EmptyString;
                wfSuspend := false; wfTerminated := false; wfFinished := false |})))
    version.

Definition webRequest : Request := {| reqNamespace := "default"; reqName := "web" |}.

(** An application that demands controller version v1.1.0. *)
Definition pinnedApp : Application :=
  sampleApp 2 1 None [resourceTrackerFinalizer]
    (Some {[ AnnotationControllerRequirement := "v1.1.0" ]}).

Definition pinnedExternals : Externals :=
  sampleExternals fiveMinutes false (inr noTrackerLeft)
    (true, [], None) None None
    (inr WorkflowStateExecuting) (5 * Second)%Z (GetFound pinnedApp).

(** The workflow driver answers Executing with the given backoff. *)
Definition executingExternals (backoff : Duration) : Externals :=
  sampleExternals fiveMinutes false (inr noTrackerLeft)
    (true, [], None) None None
    (inr WorkflowStateExecuting) backoff (GetFound editedApp).

(** The workflow driver answers Initializing and the status update that
    follows is refused. *)
Definition updateConflictExternals : Externals :=
  sampleExternals fiveMinutes false (inr noTrackerLeft)
    (true, [], None) None (Some (ErrExternal "the object has been modified"))
    (inr WorkflowStateInitializing) (5 * Second)%Z (GetFound editedApp).

(** The same pass with a refused status patch (workflow suspended). *)
Definition patchConflictExternals : Externals :=
  sampleExternals fiveMinutes false (inr noTrackerLeft)
    (true, [], None) (Some (ErrExternal "the object has been modified")) None
    (inr WorkflowStateSuspended) (5 * Second)%Z (GetFound editedApp).

(** The value of a tracker's label, empty when the label or the label map
    is missing. *)
Definition labelOf (rt : ResourceTracker) (key : string) : string :=
  default EmptyString (rtLabels rt ≫= (.!! key)).

(** ** What a pass does to the trace *)

(** The status writes of a trace: the status patches and updates that the
    functions of this file sent. *)
Definition statusWrites (t : list Effect) : nat :=
  length (filter (λ e, isStatusWrite e = true) t).

(** [m] does not call the workflow driver. *)
Definition quiet {A} (m : M A) : Prop :=
  ∀ w, workflowAnswers (trace (m w).2) = workflowAnswers (trace w).

(** [m] sends no status write. *)
Definition noWrite {A} (m : M A) : Prop :=
  ∀ w, statusWrites (trace (m w).2) = statusWrites (trace w).

(** [m] sends at most one status write. *)
Definition oneWrite {A} (m : M A) : Prop :=
  ∀ w, statusWrites (trace (m w).2) ≤ S (statusWrites (trace w)).

(** [m] does not call the workflow driver, or it ends as
    [reconcileWorkflow] does, entered without a call of the driver or a
    status write before it. *)
Definition reachesWorkflow (ext : Externals) (r : Reconciler) (m : M Outcome) : Prop :=
  ∀ w,
    workflowAnswers (trace (m w).2) = workflowAnswers (trace w)
    ∨ ∃ appFile steps w1,
        m w = reconcileWorkflow ext r appFile steps w1
        ∧ workflowAnswers (trace w1) = workflowAnswers (trace w)
        ∧ statusWrites (trace w1) = statusWrites (trace w).

(** [m] only adds to the trace. *)
Definition grows {A} (m : M A) : Prop :=
  ∀ w, ∃ t, trace (m w).2 = trace w ++ t.

(** [m] makes at least one call. *)
Definition calls {A} (m : M A) : Prop :=
  ∀ w, ∃ e t, trace (m w).2 = trace w ++ e :: t.

(** What tells a pass from the skip, which returns the empty result and no
    error without a call: from [w], [m] makes a call or returns an error. *)
Definition engaged (m : M Outcome) (w : World) : Prop :=
  (∃ e t, trace (m w).2 = trace w ++ e :: t)
  ∨ ∃ res err, (m w).1 = Done res (Some err).

Definition engages (m : M Outcome) : Prop := ∀ w, engaged m w.

(** The workflow driver answers Skipping. *)
Definition skippingExternals : Externals :=
  sampleExternals fiveMinutes false (inr noTrackerLeft)
    (true, [], None) None None
    (inr WorkflowStateSkipping) (5 * Second)%Z (GetFound editedApp).

(** [ext] with another workflow driver. *)
Definition withExecuteSteps (ext : Externals)
    (f : Application → list string → Application * (error + WorkflowState)) : Externals :=
  {| ApplicationReSyncPeriod := ApplicationReSyncPeriod ext;
     VelaVersion := VelaVersion ext;
     EnableReconcileLoopReduction := EnableReconcileLoopReduction ext;
     EnableResourceTrackerDeleteOnlyTrigger := EnableResourceTrackerDeleteOnlyTrigger ext;
     EnableInMemoryContext := EnableInMemoryContext ext;
     Now := Now ext;
     Get := Get ext;
     Update := Update ext;
     StatusPatch := StatusPatch ext;
     StatusUpdate := StatusUpdate ext;
     Unstructured := Unstructured ext;
     ListApplicationResourceTrackers := ListApplicationResourceTrackers ext;
     GarbageCollect := GarbageCollect ext;
     StateKeep := StateKeep ext;
     garbageCollection := garbageCollection ext;
     Dispatch := Dispatch ext;
     NewAppHandler := NewAppHandler ext;
     GenerateAppFile := GenerateAppFile ext;
     PrepareCurrentAppRevision := PrepareCurrentAppRevision ext;
     FinalizeAndApplyAppRevision := FinalizeAndApplyAppRevision ext;
     UpdateAppLatestRevisionStatus := UpdateAppLatestRevisionStatus ext;
     PrepareWorkflowAndPolicy := PrepareWorkflowAndPolicy ext;
     GenerateApplicationSteps := GenerateApplicationSteps ext;
     addServiceStatus := addServiceStatus ext;
     addAppliedResource := addAppliedResource ext;
     ExecuteSteps := f;
     GetBackoffWaitTime := GetBackoffWaitTime ext;
     Trace := Trace ext |}.

(** The workflow driver answers Succeeded and hands the object back
    without a workflow status. *)
Definition finishingExternals : Externals :=
  withExecuteSteps quietExternals
    (λ a _, (withStatus a (withWorkflow (Status a) None), inr WorkflowStateSucceeded)).

(** A live application that does not have the guard yet. *)
Definition unguardedApp : Application := sampleApp 2 1 None [] None.

(** [rt] with other managed fields and another resource version. *)
Definition withBookkeeping (rt : ResourceTracker) (managedFields : list string)
    (resourceVersion : string) : ResourceTracker :=
  {| rtName := rtName rt; rtLabels := rtLabels rt;
     rtDeletionTimestamp := rtDeletionTimestamp rt;
     rtManagedFields := managedFields; rtResourceVersion := resourceVersion;
     rtManagedResources := rtManagedResources rt |}.

(** A tracker of the application default/web that is being deleted. *)
Definition deletedTracker : ResourceTracker :=
  sampleTracker "web-v1-default" (Some 100%Z)
    (Some {[ LabelAppName := "web"; LabelAppNamespace := "default" ]}).

End Controller.

Module Trait.

(** ** Keys, documents and error codes *)

Definition KeyApplication : string := "application".
Definition KeyComponent : string := "component".
Definition KeyStorage : string := "storage".
Definition KeyConfigMap : string := "configMap".
Definition KeySecret : string := "secret".
Definition KeyMountPath : string := "mountPath".
Definition KeyData : string := "data".

(** A decoded property value ([interface{}] as the datastore returns it):
    nil, bool, number, string, [[]interface{}] or [map[string]interface{}]. *)
Inductive JSON : Type :=
| JNull
| JBool (b : bool)
| JNumber (n : Z)
| JString (s : string)
| JArray (items : list JSON)
| JObject (fields : gmap string JSON).

(** [model.JSONStruct]. *)
Abbreviation JSONStruct := (gmap string JSON).

Record Bcode : Type := {
  HTTPCode : Z;
  BusinessCode : Z;
  Message : string;
}.

#[global] Instance Bcode_eq_dec : EqDecision Bcode.
Proof. solve_decision. Defined.

Definition NewBcode (httpCode businessCode : Z) (message : string) : Bcode :=
  {| HTTPCode := httpCode; BusinessCode := businessCode; Message := message |}.

Definition ErrStorageTraitNotExists : Bcode :=
  NewBcode 400 12000 "storage trait is not exists".
Definition ErrStorageDataNotExists : Bcode :=
  NewBcode 400 12001 "storage trait data is not exists".
Definition ErrStorageMountPathNotExists : Bcode :=
  NewBcode 400 12002 "storage trait mount path is not exists".
Definition ErrStorageTraitTypeNotExists : Bcode :=
  NewBcode 400 12003 "storage trait type is not exists".
Definition ErrStorageTraitTypeNotSupport : Bcode :=
  NewBcode 400 12004 "storage trait type not support".
Definition ErrStorageTraitKeyIsExists : Bcode :=
  NewBcode 400 12005 "storage trait data is exists".
Definition ErrTypeAssert : Bcode :=
  NewBcode 400 12006 "type assert err".

(** A Go [error] of the use case: a code of 012_trait.go, or an error
    declared elsewhere ([bcode.ErrStorageDataType],
    [bcode.ErrInvalidProperties], the datastore's errors), known here by
    its name only. *)
Inductive error : Type :=
| ErrBcode (b : Bcode)
| ErrNamed (name : string).

#[global] Instance trait_error_eq_dec : EqDecision error.
Proof. solve_decision. Defined.

Definition ErrStorageDataType : error := ErrNamed "bcode.ErrStorageDataType".
Definition ErrInvalidProperties : error := ErrNamed "bcode.ErrInvalidProperties".
Definition ErrRecordNotExist : error := ErrNamed "datastore.ErrRecordNotExist".

(** ** Requests, responses and stored components *)

Record StorageItemResponse : Type := {
  AppPrimaryKey : string;
  ComponentName : string;
  MountPath : string;
  Key : string;
  Type_ : string;
  Value : string;
}.

Record StorageItemOptions : Type := {
  optType : string;
  optName : string;
  optMountPath : string;
  optDataKey : string;
}.

Record StorageItemRequest : Type := {
  reqType : string;
  reqName : string;
  reqMountPath : string;
  reqDataKey : string;
  reqDataValue : string;
  reqAlias : string;
  reqDescription : string;
}.

Definition withName (q : StorageItemRequest) (name : string) : StorageItemRequest :=
  {| reqType := reqType q; reqName := name; reqMountPath := reqMountPath q;
     reqDataKey := reqDataKey q; reqDataValue := reqDataValue q;
     reqAlias := reqAlias q; reqDescription := reqDescription q |}.

(** [model.ApplicationTrait]; [traitProperties] is the [*JSONStruct]
    pointer, [None] when nil. *)
Record ApplicationTrait : Type := {
  traitAlias : string;
  traitDescription : string;
  traitType : string;
  traitProperties : option JSONStruct;
  traitCreateTime : Z;
  traitUpdateTime : Z;
}.

Definition withProperties (t : ApplicationTrait) (p : option JSONStruct)
  : ApplicationTrait :=
  {| traitAlias := traitAlias t; traitDescription := traitDescription t;
     traitType := traitType t; traitProperties := p;
     traitCreateTime := traitCreateTime t; traitUpdateTime := traitUpdateTime t |}.

Record ApplicationComponent : Type := {
  compAppPrimaryKey : string;
  compName : string;
  compTraits : list ApplicationTrait;
}.

Definition withTraits (c : ApplicationComponent) (l : list ApplicationTrait)
  : ApplicationComponent :=
  {| compAppPrimaryKey := compAppPrimaryKey c; compName := compName c;
     compTraits := l |}.

(** The datastore behind [t.ds]: the stored components by application key
    and component name, and the error its next [Put] answers with. *)
Record DataStore : Type := {
  records : gmap (string * string) ApplicationComponent;
  putError : option error;
}.

Definition dsGet (ds : DataStore) (appPrimaryKey name : string)
  : error + ApplicationComponent :=
  match records ds !! (appPrimaryKey, name) with
  | Some comp => inr comp
  | None => inl ErrRecordNotExist
  end.

Definition dsPut (ds : DataStore) (comp : ApplicationComponent)
  : option error * DataStore :=
  match putError ds with
  | Some err => (Some err, ds)
  | None =>
      (None, {| records := <[(compAppPrimaryKey comp, compName comp) := comp]> (records ds);
                putError := None |})
  end.

(** A call returns, or panics. *)
Inductive Go (A : Type) : Type :=
| Returned (a : A)
| Panicked.

Arguments Returned {A} a.
Arguments Panicked {A}.

(** [defer func() { recover() }()] around a body whose results are not
    named: a panic makes the function return its zero values. *)
Definition recovered {A} (zero : A) (body : Go A) : A :=
  match body with
  | Returned a => a
  | Panicked => zero
  end.

(** [x == s] for an [interface{}] and a string. *)
Definition equalsString (x : option JSON) (s : string) : bool :=
  match x with
  | Some (JString t) => bool_decide (t = s)
  | _ => false
  end.

Definition isStorage (t : ApplicationTrait) : bool :=
  bool_decide (traitType t = KeyStorage).

(** ** [DetailComponentStorageItem], the revision that walks the maps
    (src/unnamed/part_000) *)

(** The loop over the entries of the storage type. [itemData] is the
    variable declared before the loop; it keeps the data of the last entry
    whose mount path matched. *)
Fixpoint detailItems (items : list JSON) (mountPath : string)
    (itemData : option JSONStruct) : Go (Bcode + option JSONStruct) :=
  match items with
  | [] => Returned (inr itemData)
  | JObject item :: rest =>
      match item !! KeyMountPath with
      | None => Returned (inl ErrStorageMountPathNotExists)
      | Some found =>
          if equalsString (Some found) mountPath then
            match item !! KeyData with
            | None => Returned (inl ErrStorageDataNotExists)
            | Some (JObject data) => detailItems rest mountPath (Some data)
            | Some _ => Panicked
            end
          else detailItems rest mountPath itemData
      end
  | _ :: _ => Panicked
  end.

Definition detailStorageTrait (appPrimaryKey compName : string)
    (trait : ApplicationTrait) (itemOptions : StorageItemOptions)
  : Go (option StorageItemResponse * option error) :=
  match traitProperties trait with
  | None => Panicked
  | Some properties =>
      match properties !! optType itemOptions with
      | None => Returned (None, Some (ErrBcode ErrStorageTraitTypeNotExists))
      | Some (JArray items) =>
          match detailItems items (optMountPath itemOptions) None with
          | Panicked => Panicked
          | Returned (inl err) => Returned (None, Some (ErrBcode err))
          | Returned (inr None) =>
              Returned (None, Some (ErrBcode ErrStorageMountPathNotExists))
          | Returned (inr (Some itemData)) =>
              match itemData !! optDataKey itemOptions with
              | Some (JString value) =>
                  Returned (Some {| Type_ := optType itemOptions;
                                    ComponentName := compName;
                                    AppPrimaryKey := appPrimaryKey;
                                    MountPath := optMountPath itemOptions;
                                    Key := optDataKey itemOptions;
                                    Value := value |}, None)
              | Some _ => Panicked
              | None => Returned (None, Some (ErrBcode ErrStorageDataNotExists))
              end
          end
      | Some _ => Panicked
      end
  end.

(** The loop over [comp.Traits]: the first storage trait answers. *)
Fixpoint detailTraits (appPrimaryKey compName : string)
    (traits : list ApplicationTrait) (itemOptions : StorageItemOptions)
  : Go (option StorageItemResponse * option error) :=
  match traits with
  | [] => Returned (None, Some (ErrBcode ErrStorageTraitNotExists))
  | trait :: rest =>
      if isStorage trait
      then detailStorageTrait appPrimaryKey compName trait itemOptions
      else detailTraits appPrimaryKey compName rest itemOptions
  end.

Definition DetailComponentStorageItem (ds : DataStore) (appPrimaryKey : string)
    (componentName : string) (itemOptions : StorageItemOptions)
  : option StorageItemResponse * option error :=
  match dsGet ds appPrimaryKey componentName with
  | inl err => (None, Some err)
  | inr comp =>
      recovered (None, None)
        (detailTraits appPrimaryKey (compName comp) (compTraits comp) itemOptions)
  end.

(** ** [DetailComponentStorageItem], the revisions that query the
    marshalled document (src/unnamed/part_001 and part_002) *)

(** Characters that mean nothing special to gjson, in a path or in a
    quoted query value: letters, digits, [/], [-] and [_]. *)
Definition plainChar (c : Ascii.ascii) : bool :=
  let n := Ascii.nat_of_ascii c in
  (bool_decide (48 ≤ n) && bool_decide (n ≤ 57))
  || (bool_decide (65 ≤ n) && bool_decide (n ≤ 90))
  || (bool_decide (97 ≤ n) && bool_decide (n ≤ 122))
  || bool_decide (n = 47) || bool_decide (n = 45) || bool_decide (n = 95).

Fixpoint gjsonPlain (s : string) : bool :=
  match s with
  | EmptyString => true
  | String c rest => plainChar c && gjsonPlain rest
  end.

(** The [#(mountPath=="...")] query: the first element of the array that
    is an object whose [mountPath] is that string. *)
Fixpoint firstWithMountPath (items : list JSON) (mountPath : string) : option JSONStruct :=
  match items with
  | [] => None
  | JObject item :: rest =>
      if equalsString (item !! KeyMountPath) mountPath then Some item
      else firstWithMountPath rest mountPath
  | _ :: rest => firstWithMountPath rest mountPath
  end.

(** [gjson.Get(string(propJSON), jsonFieldPath)] for the path
    [configMap.#(mountPath=="<mountPath>").data.<dataKey>] the code builds:
    [None] when the result does not exist. gjson is a library outside the
    repository; this is the lookup it documents for a mount path and a key
    made of plain characters ([gjsonPlain]), where escaping the dots
    changes nothing, and for data that is an object. *)
Definition gjsonGetItem (properties : JSONStruct) (mountPath dataKey : string)
  : option JSON :=
  match properties !! KeyConfigMap with
  | Some (JArray items) =>
      match firstWithMountPath items mountPath with
      | Some item =>
          match item !! KeyData with
          | Some (JObject data) => data !! dataKey
          | _ => None
          end
      | None => None
      end
  | _ => None
  end.

Definition detailStorageTraitJSON (appPrimaryKey compName : string)
    (trait : ApplicationTrait) (itemOptions : StorageItemOptions)
  : Go (option StorageItemResponse * option error) :=
  match traitProperties trait with
  | None => Panicked
  | Some properties =>
      match gjsonGetItem properties (optMountPath itemOptions) (optDataKey itemOptions) with
      | None => Returned (None, Some (ErrBcode ErrStorageDataNotExists))
      | Some (JString str) =>
          Returned (Some {| Type_ := optType itemOptions;
                            ComponentName := compName;
                            AppPrimaryKey := appPrimaryKey;
                            MountPath := optMountPath itemOptions;
                            Key := optDataKey itemOptions;
                            Value := str |}, None)
      | Some _ => Returned (None, Some ErrStorageDataType)
      end
  end.

Fixpoint detailTraitsJSON (appPrimaryKey compName : string)
    (traits : list ApplicationTrait) (itemOptions : StorageItemOptions)
  : Go (option StorageItemResponse * option error) :=
  match traits with
  | [] => Returned (None, Some (ErrBcode ErrStorageTraitNotExists))
  | trait :: rest =>
      if isStorage trait
      then detailStorageTraitJSON appPrimaryKey compName trait itemOptions
      else detailTraitsJSON appPrimaryKey compName rest itemOptions
  end.

(** This revision has no deferred [recover]: a panic leaves the function. *)
Definition DetailComponentStorageItemJSON (ds : DataStore) (appPrimaryKey : string)
    (componentName : string) (itemOptions : StorageItemOptions)
  : Go (option StorageItemResponse * option error) :=
  match dsGet ds appPrimaryKey componentName with
  | inl err => Returned (None, Some err)
  | inr comp =>
      detailTraitsJSON appPrimaryKey (compName comp) (compTraits comp) itemOptions
  end.

(** ** [CreateComponentStorageItem] (the same text in the three revisions) *)

(** [strings.ReplaceAll(s, "/", "-")]. *)
Fixpoint replaceSlashes (s : string) : string :=
  match s with
  | EmptyString => EmptyString
  | String c rest =>
      String (if bool_decide (Ascii.nat_of_ascii c = 47) then Ascii.ascii_of_nat 45 else c)
        (replaceSlashes rest)
  end.

(** A [StorageTraitCM] with one data entry, as the document holds it once
    marshalled: [defaultMode] and [mountOnly] are omitted when empty. *)
Definition storageTraitCMSpec (createReq : StorageItemRequest) : JSON :=
  JObject {[ "name" := JString (reqName createReq);
             KeyMountPath := JString (reqMountPath createReq);
             KeyData := JObject {[ reqDataKey createReq := JString (reqDataValue createReq) ]} ]}.

(** What the [for] over the entries of the storage type did. *)
Inductive MergeLoop : Type :=
| LoopReturned (err : option Bcode) (items : list JSON)
| LoopLeft
| LoopPanicked.

(** The loop of [mergeStorageItem]: it returns from the first entry with
    the request's mount path (with the entries as it leaves them), or is
    left by [break] or exhaustion. *)
Fixpoint mergeItems (items : list JSON) (createReq : StorageItemRequest) : MergeLoop :=
  match items with
  | [] => LoopLeft
  | JObject item :: rest =>
      if equalsString (item !! KeyMountPath) (reqMountPath createReq) then
        match item !! KeyData with
        | None => LoopLeft
        | Some (JObject itemDataMap) =>
            match itemDataMap !! reqDataKey createReq with
            | Some _ => LoopReturned (Some ErrStorageTraitKeyIsExists) items
            | None =>
                let itemDataMap :=
                  <[reqDataKey createReq := JString (reqDataValue createReq)]> itemDataMap in
                LoopReturned None (JObject (<[KeyData := JObject itemDataMap]> item) :: rest)
            end
        | Some _ => LoopReturned None items
        end
      else
        match mergeItems rest createReq with
        | LoopReturned err rest' => LoopReturned err (JObject item :: rest')
        | LoopLeft => LoopLeft
        | LoopPanicked => LoopPanicked
        end
  | _ :: _ => LoopPanicked
  end.

(** [mergeStorageItem]: the error it returns and the document
    [storageTrait.Properties] points to afterwards. Every panic comes before
    the first write, and the deferred [recover] turns it into a nil error. *)
Definition mergeStorageItem (properties : option JSONStruct)
    (createReq : StorageItemRequest) : option error * option JSONStruct :=
  match properties with
  | None => (None, None)
  | Some storageProperties =>
      match storageProperties !! reqType createReq with
      | Some (JArray items) =>
          match mergeItems items createReq with
          | LoopReturned err items' =>
              (ErrBcode <$> err,
               Some (<[reqType createReq := JArray items']> storageProperties))
          | LoopLeft =>
              (None,
               Some (<[reqType createReq := JArray (items ++ [storageTraitCMSpec createReq])]>
                       storageProperties))
          | LoopPanicked => (None, Some storageProperties)
          end
      | Some _ => (Some (ErrBcode ErrTypeAssert), Some storageProperties)
      | None =>
          if bool_decide (reqType createReq = KeyConfigMap) then
            (None, Some (<[reqType createReq := storageTraitCMSpec createReq]> storageProperties))
          else (None, Some storageProperties)
      end
  end.

Definition creatStorageTraitAndItem (now : Z) (createReq : StorageItemRequest)
  : error + ApplicationTrait :=
  if bool_decide (reqType createReq = KeyConfigMap) then
    inr {| traitAlias := EmptyString; traitDescription := EmptyString;
           traitType := KeyStorage;
           traitProperties :=
             Some {[ reqType createReq := JArray [storageTraitCMSpec createReq] ]};
           traitCreateTime := now; traitUpdateTime := 0%Z |}
  else inl (ErrBcode ErrStorageTraitTypeNotSupport).

(** The search loop of [CreateComponentStorageItem]:
    [[
      for _, trait := range comp.Traits {
          if strings.Compare(trait.Type, apisCmb.KeyStorage) == 0 {
              hasStorageTrait = true
              storageTrait = &trait
          }
      }
    ]]
    [&trait] is the address of the range variable, and there is one such
    variable for the whole loop in every Go release before 1.22 (the
    controller-runtime API this code base calls, [source.Kind] as a struct
    and handler functions without a context, predates that release). The
    result is [hasStorageTrait] and the value of [trait] when the loop
    ends, which is what [storageTrait] points to whenever it was set: the
    last trait of the component. *)
Fixpoint rangeTraits (traits : list ApplicationTrait) (hasStorageTrait : bool)
    (trait : option ApplicationTrait) : bool * option ApplicationTrait :=
  match traits with
  | [] => (hasStorageTrait, trait)
  | t :: rest => rangeTraits rest (hasStorageTrait || isStorage t) (Some t)
  end.

(** The property document is shared, through its pointer, with the last
    element of [comp.Traits]. *)
Definition withLastProperties (traits : list ApplicationTrait)
    (p : option JSONStruct) : list ApplicationTrait :=
  match reverse traits with
  | [] => []
  | t :: before => reverse (withProperties t p :: before)
  end.

Definition CreateComponentStorageItem (now : Z) (ds : DataStore)
    (appPrimaryKey componentName : string) (createReq : StorageItemRequest)
  : Go (option ApplicationTrait * option error) * DataStore :=
  match dsGet ds appPrimaryKey componentName with
  | inl err => (Returned (None, Some err), ds)
  | inr comp =>
      let createReq :=
        if bool_decide (reqName createReq = EmptyString) then
          withName createReq
            (componentName +:+ replaceSlashes (reqMountPath createReq)
             +:+ reqDataKey createReq)
        else createReq in
      match rangeTraits (compTraits comp) false None with
      | (true, Some storageTrait) =>
          match mergeStorageItem (traitProperties storageTrait) createReq with
          | (Some err, _) => (Returned (None, Some err), ds)
          | (None, properties) =>
              let comp := withTraits comp (withLastProperties (compTraits comp) properties) in
              match dsPut ds comp with
              | (Some err, ds') => (Returned (None, Some err), ds')
              | (None, ds') =>
                  (Returned (Some {| traitAlias := EmptyString;
                                     traitDescription := EmptyString;
                                     traitType := KeyStorage;
                                     traitProperties := properties;
                                     traitCreateTime := now;
                                     traitUpdateTime := 0%Z |}, None), ds')
              end
          end
      | (true, None) => (Panicked, ds)
      | (false, _) =>
          match creatStorageTraitAndItem now createReq with
          | inl err => (Returned (None, Some err), ds)
          | inr created =>
              let comp := withTraits comp (compTraits comp ++ [created]) in
              match dsPut ds comp with
              | (Some err, ds') => (Returned (None, Some err), ds')
              | (None, ds') =>
                  (* the [:=] of the else block declared another
                     [storageTrait]; the outer one is still nil here *)
                  (Panicked, ds')
              end
          end
      end
  end.

(** ** Shapes of documents and sample data *)

(** An entry of a storage type that is an object with a mount path other
    than [mountPath]. *)
Definition otherEntry (mountPath : string) (item : JSON) : Prop :=
  ∃ fields, item = JObject fields
    ∧ is_Some (fields !! KeyMountPath)
    ∧ equalsString (fields !! KeyMountPath) mountPath = false.

(** The trait the read operations answer from: the first storage trait. *)
Definition storageTraitOf (comp : ApplicationComponent) : option ApplicationTrait :=
  List.find isStorage (compTraits comp).

Definition sampleStorageTrait : ApplicationTrait :=
  {| traitAlias := EmptyString; traitDescription := EmptyString;
     traitType := KeyStorage;
     traitProperties :=
       Some {[ KeyConfigMap :=
                 JArray [JObject {[ "name" := JString "web-etc-confapp";
                                    KeyMountPath := JString "/etc/conf";
                                    KeyData := JObject {[ "app" := JString "x" ]} ]}] ]};
     traitCreateTime := 10%Z; traitUpdateTime := 0%Z |}.

Definition sampleScalerTrait : ApplicationTrait :=
  {| traitAlias := EmptyString; traitDescription := EmptyString;
     traitType := "scaler";
     traitProperties := Some {[ "replicas" := JNumber 2 ]};
     traitCreateTime := 11%Z; traitUpdateTime := 0%Z |}.

Definition sampleComponent (traits : list ApplicationTrait) : ApplicationComponent :=
  {| compAppPrimaryKey := "shop"; compName := "web"; compTraits := traits |}.

Definition sampleStore (traits : list ApplicationTrait) : DataStore :=
  {| records := {[ ("shop", "web") := sampleComponent traits ]}; putError := None |}.

Definition sampleOptions (type mountPath dataKey : string) : StorageItemOptions :=
  {| optType := type; optName := EmptyString; optMountPath := mountPath;
     optDataKey := dataKey |}.

Definition sampleRequest (mountPath dataKey dataValue : string) : StorageItemRequest :=
  {| reqType := KeyConfigMap; reqName := EmptyString; reqMountPath := mountPath;
     reqDataKey := dataKey; reqDataValue := dataValue;
     reqAlias := EmptyString; reqDescription := EmptyString |}.

(** ** [UpdateComponentStorageItem] (the same text in the three revisions) *)

(** What the loop over the entries of the storage type did: returned an
    error, wrote the value (the entries as it leaves them), ran out of
    entries, or panicked on a type assertion. *)
Inductive UpdateLoop : Type :=
| UpdateRefused (err : Bcode)
| UpdateWritten (items : list JSON)
| UpdateLeft
| UpdatePanicked.

Fixpoint updateItems (items : list JSON) (updateReq : StorageItemRequest) : UpdateLoop :=
  match items with
  | [] => UpdateLeft
  | JObject item :: rest =>
      match item !! KeyMountPath with
      | None => UpdateRefused ErrStorageMountPathNotExists
      | Some mountPath =>
          if equalsString (Some mountPath) (reqMountPath updateReq) then
            match item !! KeyData with
            | None => UpdateRefused ErrStorageDataNotExists
            | Some (JObject itemDataMap) =>
                match itemDataMap !! reqDataKey updateReq with
                | Some _ =>
                    let itemDataMap :=
                      <[reqDataKey updateReq := JString (reqDataValue updateReq)]> itemDataMap in
                    UpdateWritten (JObject (<[KeyData := JObject itemDataMap]> item) :: rest)
                | None => UpdateRefused ErrStorageDataNotExists
                end
            | Some _ => UpdatePanicked
            end
          else
            match updateItems rest updateReq with
            | UpdateWritten rest' => UpdateWritten (JObject item :: rest')
            | other => other
            end
      end
  | _ :: _ => UpdatePanicked
  end.

(** The body of the [if] on a storage trait, for any of the loops over
    entries: the error it returns, or the trait with the document its
    [Properties] point to after the write. *)
Inductive TraitWrite : Type :=
| WriteRefused (err : Bcode)
| WriteDone (trait : ApplicationTrait)
| WritePanicked.

Definition writeStorageTrait (loop : list JSON → UpdateLoop) (type : string)
    (trait : ApplicationTrait) : TraitWrite :=
  match traitProperties trait with
  | None => WritePanicked
  | Some properties =>
      match properties !! type with
      | None => WriteRefused ErrStorageTraitTypeNotExists
      | Some (JArray items) =>
          match loop items with
          | UpdateRefused err => WriteRefused err
          | UpdateWritten items' =>
              WriteDone (withProperties trait (Some (<[type := JArray items']> properties)))
          | UpdateLeft => WriteRefused ErrStorageMountPathNotExists
          | UpdatePanicked => WritePanicked
          end
      | Some _ => WritePanicked
      end
  end.

(** The loop over [comp.Traits]: the first storage trait decides. The
    written document is shared with the element of [comp.Traits] the range
    variable was copied from, so the traits come back with it. *)
Fixpoint writeTraits (write : ApplicationTrait → TraitWrite)
    (traits : list ApplicationTrait) : Go (Bcode + list ApplicationTrait * ApplicationTrait) :=
  match traits with
  | [] => Returned (inl ErrStorageTraitNotExists)
  | trait :: rest =>
      if isStorage trait then
        match write trait with
        | WriteRefused err => Returned (inl err)
        | WriteDone trait' => Returned (inr (trait' :: rest, trait'))
        | WritePanicked => Panicked
        end
      else
        match writeTraits write rest with
        | Returned (inr (rest', trait')) => Returned (inr (trait :: rest', trait'))
        | other => other
        end
  end.

(** The end of a successful write: [trait.UpdateTime = time.Now()] on the
    copy, [t.ds.Put(ctx, &comp)], and the trait returned from the copy. *)
Definition putWritten (now : Z) (ds : DataStore) (comp : ApplicationComponent)
    (traits : list ApplicationTrait) (trait : ApplicationTrait)
  : (option ApplicationTrait * option error) * DataStore :=
  match dsPut ds (withTraits comp traits) with
  | (Some err, ds') => ((None, Some err), ds')
  | (None, ds') =>
      ((Some {| traitAlias := traitAlias trait; traitDescription := traitDescription trait;
                traitType := traitType trait; traitProperties := traitProperties trait;
                traitCreateTime := traitCreateTime trait; traitUpdateTime := now |},
        None), ds')
  end.

Definition UpdateComponentStorageItem (now : Z) (ds : DataStore)
    (appPrimaryKey componentName : string) (updateReq : StorageItemRequest)
  : (option ApplicationTrait * option error) * DataStore :=
  match dsGet ds appPrimaryKey componentName with
  | inl err => ((None, Some err), ds)
  | inr comp =>
      match writeTraits
              (writeStorageTrait (λ items, updateItems items updateReq) (reqType updateReq))
              (compTraits comp) with
      | Panicked => ((None, None), ds)
      | Returned (inl err) => ((None, Some (ErrBcode err)), ds)
      | Returned (inr (traits, trait)) => putWritten now ds comp traits trait
      end
  end.

(** ** [DeleteComponentStorageItem], the revision that walks the maps
    (src/unnamed/part_000) *)

(** The loop over the entries. When the deleted key was the last of its
    entry, [append(s[:idx], s[idx+1:])] has no [...]: it stores the slice
    [s[idx+1:]] as one element at index [idx] of the array the document
    still holds, over the emptied entry; the result of [append] itself is
    only assigned to the local variable. *)
Fixpoint deleteItems (items : list JSON) (itemOptions : StorageItemOptions) : UpdateLoop :=
  match items with
  | [] => UpdateLeft
  | JObject item :: rest =>
      match item !! KeyMountPath with
      | None => UpdateRefused ErrStorageMountPathNotExists
      | Some mountPath =>
          if equalsString (Some mountPath) (optMountPath itemOptions) then
            match item !! KeyData with
            | None => UpdateRefused ErrStorageDataNotExists
            | Some (JObject itemDataMap) =>
                match itemDataMap !! optDataKey itemOptions with
                | Some _ =>
                    let itemDataMap := delete (optDataKey itemOptions) itemDataMap in
                    if bool_decide (size itemDataMap = 0)
                    then UpdateWritten (JArray rest :: rest)
                    else UpdateWritten (JObject (<[KeyData := JObject itemDataMap]> item) :: rest)
                | None => UpdateRefused ErrStorageDataNotExists
                end
            | Some _ => UpdatePanicked
            end
          else
            match deleteItems rest itemOptions with
            | UpdateWritten rest' => UpdateWritten (JObject item :: rest')
            | other => other
            end
      end
  | _ :: _ => UpdatePanicked
  end.

Definition DeleteComponentStorageItem (now : Z) (ds : DataStore)
    (appPrimaryKey componentName : string) (itemOptions : StorageItemOptions)
  : (option ApplicationTrait * option error) * DataStore :=
  match dsGet ds appPrimaryKey componentName with
  | inl err => ((None, Some err), ds)
  | inr comp =>
      match writeTraits
              (writeStorageTrait (λ items, deleteItems items itemOptions) (optType itemOptions))
              (compTraits comp) with
      | Panicked => ((None, None), ds)
      | Returned (inl err) => ((None, Some (ErrBcode err)), ds)
      | Returned (inr (traits, trait)) => putWritten now ds comp traits trait
      end
  end.

(** The read request for the item a write request names. *)
Definition optionsOf (q : StorageItemRequest) : StorageItemOptions :=
  {| optType := reqType q; optName := reqName q;
     optMountPath := reqMountPath q; optDataKey := reqDataKey q |}.

Definition withDataKey (o : StorageItemOptions) (dataKey : string) : StorageItemOptions :=
  {| optType := optType o; optName := optName o;
     optMountPath := optMountPath o; optDataKey := dataKey |}.

(** The stored component carries the key it is stored under. *)
Definition keyedAs (appPrimaryKey name : string) (comp : ApplicationComponent) : Prop :=
  compAppPrimaryKey comp = appPrimaryKey ∧ compName comp = name.


(** ** [DeleteComponentStorageItem], the revisions that edit the marshalled
    document (src/unnamed/part_001 and part_002) *)

(** [gjson.Get(string(propJSON), jsonFieldPath)] for the path
    [configMap.#(mountPath=="<mountPath>").data]: the data of the first
    entry with the mount path, as [gjsonGetItem] without the last step. *)
Definition gjsonGetData (properties : JSONStruct) (mountPath : string) : option JSON :=
  match properties !! KeyConfigMap with
  | Some (JArray items) =>
      match firstWithMountPath items mountPath with
      | Some item => item !! KeyData
      | None => None
      end
  | _ => None
  end.

Definition ErrUnmarshal : error := ErrNamed "json.UnmarshalTypeError".

Definition decodesToString (v : JSON) : bool :=
  match v with
  | JString _ | JNull => true
  | _ => false
  end.

Definition stringOf (v : JSON) : string :=
  match v with
  | JString s => s
  | _ => EmptyString
  end.

(** [json.Unmarshal([]byte(dataSliceRes.Raw), &dataMap)] into a
    [map[string]string]: an object whose values are strings (or null, read
    as the empty string). *)
Definition unmarshalStringMap (raw : JSON) : error + gmap string string :=
  match raw with
  | JObject fields =>
      if bool_decide (map_Forall (λ _ v, decodesToString v = true) fields)
      then inr (stringOf <$> fields)
      else inl ErrUnmarshal
  | _ => inl ErrUnmarshal
  end.

Section DeleteJSON.

(** [sjson.Set(string(propJSON), jsonFieldPath, dataMapJSON)] followed by
    [json.Unmarshal([]byte(value), &data)]: the error of the latter, if any.
    sjson is a library outside the repository, and the document decoded
    here is only ever assigned to the range variable. *)
Variable sjsonSetDecoded : JSONStruct → string → gmap string string → option error.

(** The loop over [comp.Traits]: the error returned, or [inr tt] when the
    body gets to [t.ds.Put]. *)
Fixpoint deleteTraitsJSON (traits : list ApplicationTrait)
    (itemOptions : StorageItemOptions) : Go (error + unit) :=
  match traits with
  | [] => Returned (inl (ErrBcode ErrStorageTraitNotExists))
  | trait :: rest =>
      if isStorage trait then
        match traitProperties trait with
        | None => Panicked
        | Some properties =>
            match gjsonGetData properties (optMountPath itemOptions) with
            | None => Returned (inl (ErrBcode ErrStorageDataNotExists))
            | Some (JObject _ as raw) | Some (JArray _ as raw) =>
                match unmarshalStringMap raw with
                | inl err => Returned (inl err)
                | inr dataMap =>
                    match sjsonSetDecoded properties (optMountPath itemOptions)
                            (delete (optDataKey itemOptions) dataMap) with
                    | Some err => Returned (inl err)
                    | None => Returned (inr tt)
                    end
                end
            | Some _ => Returned (inl ErrStorageDataType)
            end
        end
      else deleteTraitsJSON rest itemOptions
  end.

(** [trait.Properties = data] and [trait.UpdateTime = time.Now()] assign to
    the range variable, a copy of the element of [comp.Traits]: what
    [t.ds.Put(ctx, &comp)] stores is the component as it was read. This
    revision has no deferred [recover]. *)
Definition DeleteComponentStorageItemJSON (ds : DataStore)
    (appPrimaryKey componentName : string) (itemOptions : StorageItemOptions)
  : Go (option error) * DataStore :=
  match dsGet ds appPrimaryKey componentName with
  | inl err => (Returned (Some err), ds)
  | inr comp =>
      match deleteTraitsJSON (compTraits comp) itemOptions with
      | Panicked => (Panicked, ds)
      | Returned (inl err) => (Returned (Some err), ds)
      | Returned (inr _) =>
          match dsPut ds comp with
          | (err, ds') => (Returned err, ds')
          end
      end
  end.

End DeleteJSON.

(** Every record of the store carries the key it is stored under, as
    [t.ds.Get] fills the component it is given. *)
Definition wellKeyed (ds : DataStore) : Prop :=
  ∀ appPrimaryKey name comp,
    records ds !! (appPrimaryKey, name) = Some comp → keyedAs appPrimaryKey name comp.

(** ** A storage trait with two entries *)

Definition sampleTwoKeyEntry : JSONStruct :=
  {[ "name" := JString "web-etc-confapp";
     KeyMountPath := JString "/etc/conf";
     KeyData := JObject {[ "app" := JString "x"; "log" := JString "debug" ]} ]}.

Definition sampleOtherEntry : JSONStruct :=
  {[ "name" := JString "web-var-runpid";
     KeyMountPath := JString "/var/run";
     KeyData := JObject {[ "pid" := JString "1" ]} ]}.

Definition sampleTwoKeyProperties : JSONStruct :=
  {[ KeyConfigMap := JArray [JObject sampleOtherEntry; JObject sampleTwoKeyEntry] ]}.

Definition sampleTwoKeyTrait : ApplicationTrait :=
  withProperties sampleStorageTrait (Some sampleTwoKeyProperties).

Definition sampleTwoKeyStore : DataStore :=
  sampleStore [sampleScalerTrait; sampleTwoKeyTrait].

Definition sampleSecretRequest (mountPath dataKey dataValue : string) : StorageItemRequest :=
  {| reqType := KeySecret; reqName := EmptyString; reqMountPath := mountPath;
     reqDataKey := dataKey; reqDataValue := dataValue;
     reqAlias := EmptyString; reqDescription := EmptyString |}.

End Trait.

(** * Properties of the controller *)

Module ControllerFacts.
Import Controller.

(** Unfolds the state-passing plumbing of a pass. *)
Ltac run :=
  unfold mbind, mret, fmap, M_bind, M_ret, M_fmap, getApp, modifyApp, emit,
    cacheStore, DeleteInMemoryContext in *;
  cbn [fst snd app StepStatusCache MemStoreDeleted trace] in *.

(** ** Observed generation *)

Lemma updateObservedGeneration_observed (a : Application) :
  ObservedGeneration (Status (updateObservedGeneration a)) = Generation a.
Proof.
  unfold updateObservedGeneration. case_bool_decide as H; cbn; [done |].
  destruct (decide (ObservedGeneration (Status a) = Generation a)); [done | contradiction].
Qed.

Lemma updateObservedGeneration_generation (a : Application) :
  Generation (updateObservedGeneration a) = Generation a.
Proof. unfold updateObservedGeneration. by case_bool_decide. Qed.

Lemma updateObservedGeneration_idempotent (a : Application) :
  updateObservedGeneration (updateObservedGeneration a) = updateObservedGeneration a.
Proof.
  unfold updateObservedGeneration at 1.
  rewrite updateObservedGeneration_observed, updateObservedGeneration_generation.
  by case_bool_decide.
Qed.

Lemma onlyStatusChanged_refl a : onlyStatusChanged a a.
Proof. by destruct a. Qed.

Lemma onlyStatusChanged_withStatus a b s :
  onlyStatusChanged a b → onlyStatusChanged a (withStatus b s).
Proof. unfold onlyStatusChanged. intros ->. by destruct a. Qed.

Lemma onlyStatusChanged_updateObservedGeneration a b :
  onlyStatusChanged a b → onlyStatusChanged a (updateObservedGeneration b).
Proof.
  intros H. unfold updateObservedGeneration. case_bool_decide; [| done].
  by apply onlyStatusChanged_withStatus.
Qed.

Lemma onlyStatusChanged_SetConditions a b c :
  onlyStatusChanged a b → onlyStatusChanged a (SetConditions b c).
Proof. intros H. by apply onlyStatusChanged_withStatus. Qed.

Lemma onlyStatusChanged_trans a b c :
  onlyStatusChanged a b → onlyStatusChanged b c → onlyStatusChanged a c.
Proof. unfold onlyStatusChanged. intros -> ->. by destruct a. Qed.


Lemma onlyStatusChanged_generation a b :
  onlyStatusChanged a b → Generation b = Generation a.
Proof. unfold onlyStatusChanged. by intros ->. Qed.

Section Writers.

Variable ext : Externals.
Variable r : Reconciler.

Lemma patchStatus_app phase w :
  app (patchStatus ext phase w).2
  = updateObservedGeneration (withStatus (app w) (withPhase (Status (app w)) phase)).
Proof. unfold patchStatus. run. by destruct (StatusPatch ext _). Qed.

Lemma patchStatus_trace phase w :
  trace (patchStatus ext phase w).2
  = trace w ++ [EStatusPatch (app (patchStatus ext phase w).2)].
Proof. unfold patchStatus. run. by destruct (StatusPatch ext _). Qed.

Lemma patchStatus_result phase w :
  (patchStatus ext phase w).1 = StatusPatch ext (app (patchStatus ext phase w).2).
Proof. unfold patchStatus. run. by destruct (StatusPatch ext _) eqn:E; cbn. Qed.

Lemma updateStatus_app phase w :
  app (updateStatus ext r phase w).2
  = updateObservedGeneration (withStatus (app w) (withPhase (Status (app w)) phase)).
Proof.
  unfold updateStatus. run. destruct (disableStatusUpdate r); cbn; [| done].
  destruct (Unstructured ext _); [done |]. by destruct (StatusUpdate ext _).
Qed.

Lemma patchStatus_onlyStatus phase w :
  onlyStatusChanged (app w) (app (patchStatus ext phase w).2).
Proof.
  rewrite patchStatus_app. apply onlyStatusChanged_updateObservedGeneration,
    onlyStatusChanged_withStatus, onlyStatusChanged_refl.
Qed.

Lemma updateStatus_onlyStatus phase w :
  onlyStatusChanged (app w) (app (updateStatus ext r phase w).2).
Proof.
  rewrite updateStatus_app. apply onlyStatusChanged_updateObservedGeneration,
    onlyStatusChanged_withStatus, onlyStatusChanged_refl.
Qed.

Lemma endWithNegativeCondition_world condition phase w :
  (endWithNegativeCondition ext condition phase w).2
  = (patchStatus ext phase
       {| app := SetConditions (app w) condition; StepStatusCache := StepStatusCache w;
          MemStoreDeleted := MemStoreDeleted w; trace := trace w |}).2.
Proof.
  unfold endWithNegativeCondition. run.
  by destruct (patchStatus ext phase _) as [[e|] w'].
Qed.

Lemma endWithNegativeCondition_onlyStatus condition phase w :
  onlyStatusChanged (app w) (app (endWithNegativeCondition ext condition phase w).2).
Proof.
  rewrite endWithNegativeCondition_world.
  eapply onlyStatusChanged_trans; [| apply patchStatus_onlyStatus].
  cbn. apply onlyStatusChanged_SetConditions, onlyStatusChanged_refl.
Qed.


Lemma gcResourceTrackers_onlyStatus phase gcOutdated w :
  onlyStatusChanged (app w) (app (gcResourceTrackers ext r phase gcOutdated w).2).
Proof.
  unfold gcResourceTrackers. run.
  destruct (GarbageCollect ext (app w) _) as [[finished waiting] [e|]].
  - eapply onlyStatusChanged_trans; [| apply endWithNegativeCondition_onlyStatus].
    apply onlyStatusChanged_refl.
  - destruct finished; cbn.
    + case_bool_decide.
      * destruct (updateStatus ext r _ _) as [o w1] eqn:U. cbn.
        change w1 with (o, w1).2. rewrite <- U.
        eapply onlyStatusChanged_trans; [| apply updateStatus_onlyStatus].
        apply onlyStatusChanged_refl.
      * destruct (patchStatus ext _ _) as [o w1] eqn:P. cbn.
        change w1 with (o, w1).2. rewrite <- P.
        eapply onlyStatusChanged_trans; [| apply patchStatus_onlyStatus].
        apply onlyStatusChanged_refl.
    + destruct (patchStatus ext _ _) as [o w1] eqn:P. cbn.
      change w1 with (o, w1).2. rewrite <- P.
      eapply onlyStatusChanged_trans; [| apply patchStatus_onlyStatus].
      cbn. apply onlyStatusChanged_SetConditions, onlyStatusChanged_refl.
Qed.





End Writers.



(** The second pass of the scenario: the trackers are gone, the finalizer
    is removed and the object is updated without it. *)
Example handleFinalizers_removes_finalizer_example :
  Finalizers (app (handleFinalizers deletedExternals (sampleReconciler false false)
                     (sampleWorld deletingApp)).2) = [].
Proof. reflexivity. Qed.

(** The same two passes through [Reconcile]: requeue after the fixed
    backoff with the finalizer kept, then the finalizer removed. *)
Example Reconcile_deletion_scenario :
  (Reconcile deletingExternals (sampleReconciler false false) webRequest (startOfPass ∅)).1
  = Done {| Requeue := false; RequeueAfter := baseGCBackoffWaitTime |} None
  ∧ Finalizers (app (Reconcile deletingExternals (sampleReconciler false false) webRequest
                       (startOfPass ∅)).2) = [resourceTrackerFinalizer]
  ∧ Finalizers (app (Reconcile deletedExternals (sampleReconciler false false) webRequest
                       (startOfPass ∅)).2) = [].
Proof. repeat split. Qed.

(** ** C2: observed generation and negative conditions *)

(** C2, as stated, fails: a pass over generation 2 that ends with a
    negative condition writes a status whose observed generation is 2,
    where the object had 1. *)
Lemma negative_condition_advances_observed_generation :
  ObservedGeneration (Status editedApp) = 1%Z
  ∧ ObservedGeneration (Status (app
      (endWithNegativeCondition quietExternals
         (ErrorCondition 1%Z "Parsed" (ErrExternal "cannot parse"))
         ApplicationRendering (sampleWorld editedApp)).2)) = 2%Z
  ∧ ∃ written,
      trace (endWithNegativeCondition quietExternals
         (ErrorCondition 1%Z "Parsed" (ErrExternal "cannot parse"))
         ApplicationRendering (sampleWorld editedApp)).2 = [EStatusPatch written]
      ∧ ObservedGeneration (Status written) = 2%Z.
Proof. repeat split. eexists. split; reflexivity. Qed.

Lemma updateStatus_trace (ext : Externals) (r : Reconciler) phase w :
  trace (updateStatus ext r phase w).2
  = trace w ++
    (if disableStatusUpdate r
     then match Unstructured ext (app (updateStatus ext r phase w).2) with
          | Some _ => []
          | None => [EStatusUpdate (app (updateStatus ext r phase w).2)]
          end
     else [EStatusUpdate (app (updateStatus ext r phase w).2)]).
Proof.
  rewrite updateStatus_app. unfold updateStatus. run.
  destruct (disableStatusUpdate r); cbn; [| done].
  destruct (Unstructured ext _); cbn; [by rewrite app_nil_r |].
  by destruct (StatusUpdate ext _).
Qed.

Lemma updateStatus_result (ext : Externals) (r : Reconciler) phase w :
  (updateStatus ext r phase w).1
  = if disableStatusUpdate r
    then match Unstructured ext (app (updateStatus ext r phase w).2) with
         | Some err => Some err
         | None => StatusUpdate ext (app (updateStatus ext r phase w).2)
         end
    else StatusUpdate ext (app (updateStatus ext r phase w).2).
Proof.
  rewrite updateStatus_app. unfold updateStatus. run.
  destruct (disableStatusUpdate r); cbn; [| done].
  destruct (Unstructured ext _); cbn; [done |].
  by destruct (StatusUpdate ext _).
Qed.

(** C2, amended. Every status writer ([patchStatus], [updateStatus], and
    through [patchStatus] every exit with a negative condition) sets the
    observed generation before it writes: it leaves the object with
    observed generation equal to its generation, which it does not change;
    the object it sends, the one the trace records and the one the API
    call is made with, is that object; and the assignment changes nothing
    once the two are equal. [patchStatus] and the exit with a negative
    condition always send one patch; [updateStatus] sends one update,
    unless the compatibility conversion failed first. *)
Theorem status_writers_set_observed_generation
    (ext : Externals) (r : Reconciler) (condition : Condition)
    (phase : ApplicationPhase) (w : World) :
  (Generation (app (patchStatus ext phase w).2) = Generation (app w)
   ∧ ObservedGeneration (Status (app (patchStatus ext phase w).2)) = Generation (app w)
   ∧ trace (patchStatus ext phase w).2
     = trace w ++ [EStatusPatch (app (patchStatus ext phase w).2)]
   ∧ (patchStatus ext phase w).1 = StatusPatch ext (app (patchStatus ext phase w).2))
  ∧ (Generation (app (updateStatus ext r phase w).2) = Generation (app w)
     ∧ ObservedGeneration (Status (app (updateStatus ext r phase w).2)) = Generation (app w)
     ∧ trace (updateStatus ext r phase w).2
       = trace w ++
         (if disableStatusUpdate r
          then match Unstructured ext (app (updateStatus ext r phase w).2) with
               | Some _ => []
               | None => [EStatusUpdate (app (updateStatus ext r phase w).2)]
               end
          else [EStatusUpdate (app (updateStatus ext r phase w).2)])
     ∧ (updateStatus ext r phase w).1
       = if disableStatusUpdate r
         then match Unstructured ext (app (updateStatus ext r phase w).2) with
              | Some err => Some err
              | None => StatusUpdate ext (app (updateStatus ext r phase w).2)
              end
         else StatusUpdate ext (app (updateStatus ext r phase w).2))
  ∧ (Generation (app (endWithNegativeCondition ext condition phase w).2) = Generation (app w)
     ∧ ObservedGeneration (Status (app (endWithNegativeCondition ext condition phase w).2))
       = Generation (app w)
     ∧ trace (endWithNegativeCondition ext condition phase w).2
       = trace w ++ [EStatusPatch (app (endWithNegativeCondition ext condition phase w).2)])
  ∧ ∀ a, ObservedGeneration (Status a) = Generation a → updateObservedGeneration a = a.
Proof.
  split; [| split; [| split]].
  - split; [| split; [| split]].
    + apply onlyStatusChanged_generation, patchStatus_onlyStatus.
    + by rewrite patchStatus_app, updateObservedGeneration_observed.
    + apply patchStatus_trace.
    + apply patchStatus_result.
  - split; [| split; [| split]].
    + apply onlyStatusChanged_generation, updateStatus_onlyStatus.
    + by rewrite updateStatus_app, updateObservedGeneration_observed.
    + apply updateStatus_trace.
    + apply updateStatus_result.
  - split; [| split].
    + apply onlyStatusChanged_generation, endWithNegativeCondition_onlyStatus.
    + by rewrite endWithNegativeCondition_world, patchStatus_app,
        updateObservedGeneration_observed.
    + by rewrite endWithNegativeCondition_world, patchStatus_trace.
  - intros a Ha. unfold updateObservedGeneration. by case_bool_decide.
Qed.

(** ** C3 and C4: the update filter *)

(** C3, as stated, fails in two ways. A notification whose old and new
    objects are equal as delivered (so equal after normalizing too) is let
    through: the filter takes it for a resync. And the applied resources,
    the services and the resource version are only volatile between two
    objects that both carry a workflow status: without one, a
    notification that differs from the old object in nothing but the
    resource version is let through. *)
Lemma updates_equal_after_normalizing_that_pass :
  (normalizeVolatile editedApp editedApp = editedApp
   ∧ UpdateFunc {| ObjectOld := ObjApplication editedApp;
                   ObjectNew := ObjApplication editedApp |} = true)
  ∧ (Workflow (Status editedApp) = None
     ∧ Workflow (Status (withResourceVersion editedApp "42")) = None
     ∧ withResourceVersion (withResourceVersion editedApp "42") (ResourceVersion editedApp)
       = editedApp
     ∧ UpdateFunc {| ObjectOld := ObjApplication editedApp;
                     ObjectNew := ObjApplication (withResourceVersion editedApp "42") |}
       = true).
Proof. repeat split. Qed.

(** Objects that agree outside the volatile fields are equal once the
    filter has overwritten those of the new one. *)
Lemma agreeOutsideVolatile_normalized (old new : Application) :
  agreeOutsideVolatile old new → normalizeVolatile old new = old.
Proof.
  intros (H1 & H2 & H3 & H4 & H5 & H6 & H7 & H8 & H9 & H10 & H11 & Hwf).
  unfold normalizeVolatile, ignoreWorkflowChanges, ignoreManagedFields.
  destruct old as [? ? ? ? ? ? ? ? ? [? ? ? ? ? [[]|] ?]],
           new as [? ? ? ? ? ? ? ? ? [? ? ? ? ? [[]|] ?]];
    cbn in *; try done; destruct Hwf as (? & ? & ?); by subst.
Qed.

(** C3, amended. A pair of application notifications that differ as
    delivered but agree on every field outside the volatile ones is
    suppressed. The volatile fields, named one by one in
    [agreeOutsideVolatile]: the managed fields; and, when both objects
    carry a workflow status, the steps, context backend and message of
    that status, the applied resources, the services and the resource
    version. *)
Theorem changed_update_equal_after_normalizing_is_suppressed (old new : Application) :
  old ≠ new →
  agreeOutsideVolatile old new →
  UpdateFunc {| ObjectOld := ObjApplication old; ObjectNew := ObjApplication new |} = false.
Proof.
  intros Hne Hagree. unfold UpdateFunc, DeepEqual. cbn [ObjectNew ObjectOld].
  rewrite bool_decide_eq_false_2 by done.
  rewrite bool_decide_eq_false_2.
  2: { cbn. destruct Hagree as (_ & _ & Hgen & _). by intros H. }
  fold (normalizeVolatile old new).
  rewrite (agreeOutsideVolatile_normalized old new Hagree).
  by rewrite bool_decide_eq_true_2.
Qed.

(** The running workflow added a step and the object got a new resource
    version. *)
Lemma changed_update_equal_after_normalizing_example :
  UpdateFunc {| ObjectOld := ObjApplication (workflowStepped editedApp ["deploy"] "41");
                ObjectNew := ObjApplication (workflowStepped editedApp ["deploy"; "notify"] "42") |}
  = false.
Proof.
  apply (changed_update_equal_after_normalizing_is_suppressed
           (workflowStepped editedApp ["deploy"] "41")
           (workflowStepped editedApp ["deploy"; "notify"] "42")).
  - discriminate.
  - repeat split.
Defined.

(** C4. A pair of application notifications whose generations differ is
    let through. *)
Theorem generation_change_passes (old new : Application) :
  Generation old ≠ Generation new →
  UpdateFunc {| ObjectOld := ObjApplication old; ObjectNew := ObjApplication new |} = true.
Proof.
  intros Hgen. unfold UpdateFunc, DeepEqual. cbn.
  case_bool_decide; [done |]. by rewrite bool_decide_eq_true_2.
Qed.

Lemma generation_change_passes_example :
  UpdateFunc {| ObjectOld := ObjApplication (sampleApp 1 1 None [] None);
                ObjectNew := ObjApplication (sampleApp 2 1 None [] None) |} = true.
Proof.
  apply (generation_change_passes (sampleApp 1 1 None [] None) (sampleApp 2 1 None [] None)).
  cbn. lia.
Defined.

(** ** C5: a failed status write and the step cache *)

(** A refused status patch stores the re-run sentinel [-1] under the
    object's cache key before the error is returned. *)
Lemma patchStatus_failure_invalidates (ext : Externals) (phase : ApplicationPhase)
    (w : World) (e : error) :
  (patchStatus ext phase w).1 = Some e →
  StepStatusCache (patchStatus ext phase w).2 !! cacheKey (app w) = Some (-1)%Z.
Proof.
  unfold patchStatus. run. destruct (StatusPatch ext _) eqn:E; cbn; [| done].
  intros _. rewrite <- (lookup_insert_eq (StepStatusCache w) (cacheKey (app w)) (-1)%Z).
  f_equal. f_equal. unfold updateObservedGeneration, cacheKey.
  by case_bool_decide.
Qed.

Lemma patchStatus_failure_invalidates_example :
  StepStatusCache (patchStatus patchConflictExternals ApplicationWorkflowSuspending
                     (sampleWorld editedApp)).2 !! "web-default" = Some (-1)%Z.
Proof.
  apply (patchStatus_failure_invalidates patchConflictExternals
           ApplicationWorkflowSuspending (sampleWorld editedApp)
           (ErrExternal "the object has been modified")).
  reflexivity.
Defined.

(** C5 fails on the code: with status updates not disabled,
    [updateStatus] returns the error of a refused update at once and
    leaves the step cache as it was. The pass: the workflow driver answers
    Initializing, garbage collection has finished, the status update is
    refused. *)
Theorem failed_status_update_keeps_step_cache :
  (Reconcile updateConflictExternals (sampleReconciler false false) webRequest
     (startOfPass ∅)).1
  = Done emptyResult (Some (ErrExternal "the object has been modified"))
  ∧ (∃ written,
       filter (λ e, isStatusWrite e = true)
         (trace (Reconcile updateConflictExternals (sampleReconciler false false)
                   webRequest (startOfPass ∅)).2)
       = [EStatusUpdate written])
  ∧ StepStatusCache (Reconcile updateConflictExternals (sampleReconciler false false)
                       webRequest (startOfPass ∅)).2 !! "web-default" = None.
Proof. repeat split. eexists. vm_compute. reflexivity. Qed.

(** The sibling paths do invalidate: the same refused update in
    compatibility mode, and a refused patch. *)
Example failed_compat_update_invalidates_step_cache :
  StepStatusCache (Reconcile updateConflictExternals (sampleReconciler true false)
                     webRequest (startOfPass ∅)).2 !! "web-default" = Some (-1)%Z.
Proof. reflexivity. Qed.

Example failed_patch_invalidates_step_cache :
  StepStatusCache (Reconcile patchConflictExternals (sampleReconciler false false)
                     webRequest (startOfPass ∅)).2 !! "web-default" = Some (-1)%Z.
Proof. reflexivity. Qed.

(** ** C6: the controller requirement *)

(** C6, as stated, fails: with [ignoreAppNoCtrlReq] set, an application
    that demands no controller version is skipped too. *)
Lemma undemanding_app_is_skipped_when_ignored :
  Annotations editedApp = None
  ∧ matchControllerRequirement (sampleReconciler false true) editedApp = false
  ∧ Reconcile quietExternals (sampleReconciler false true) webRequest (startOfPass ∅)
    = (Done emptyResult None,
       {| app := editedApp; StepStatusCache := ∅; MemStoreDeleted := []; trace := [] |}).
Proof. repeat split. Qed.

(** When the match fails: which applications fail it, and what the pass
    does then. *)
Lemma Reconcile_skip_on_failed_match
    (ext : Externals) (r : Reconciler) (req : Request) (fetched : Application) (w : World) :
  Get ext req = GetFound fetched →
  (∀ annotations requireVersion,
     Annotations fetched = Some annotations →
     annotations !! AnnotationControllerRequirement = Some requireVersion →
     requireVersion ≠ controllerVersion r →
     matchControllerRequirement r fetched = false)
  ∧ ((∀ annotations, Annotations fetched = Some annotations →
        annotations !! AnnotationControllerRequirement = None) →
     matchControllerRequirement r fetched = negb (ignoreAppNoCtrlReq r))
  ∧ (matchControllerRequirement r fetched = false →
     (Reconcile ext r req w).1 = Done emptyResult None
     ∧ trace (Reconcile ext r req w).2 = trace w
     ∧ StepStatusCache (Reconcile ext r req w).2 = StepStatusCache w
     ∧ app (Reconcile ext r req w).2 = fetched).
Proof.
  intros Hget. repeat split.
  - intros annotations v Ha Hv Hne. unfold matchControllerRequirement.
    rewrite Ha, Hv. by apply bool_decide_eq_false_2.
  - intros Hnone. unfold matchControllerRequirement.
    destruct (Annotations fetched) as [annotations|]; [| by destruct (ignoreAppNoCtrlReq r)].
    rewrite (Hnone annotations eq_refl). by destruct (ignoreAppNoCtrlReq r).
  - unfold Reconcile. rewrite Hget. run. by rewrite H.
  - unfold Reconcile. rewrite Hget. run. by rewrite H.
  - unfold Reconcile. rewrite Hget. run. by rewrite H.
  - unfold Reconcile. rewrite Hget. run. by rewrite H.
Qed.

(** ** C7: requeue while the workflow is executing *)

(** C7, as stated, fails for a zero backoff: [ret] reads a zero duration
    as unset and the pass requeues after the re-sync period. *)
Lemma executing_with_zero_backoff_requeues_after_resync :
  GetBackoffWaitTime (executingExternals 0%Z) editedApp = 0%Z
  ∧ (Reconcile (executingExternals 0%Z) (sampleReconciler false false) webRequest
       (startOfPass ∅)).1
    = Done {| Requeue := false; RequeueAfter := fiveMinutes |} None
  ∧ ApplicationReSyncPeriod (executingExternals 0%Z) = fiveMinutes.
Proof. repeat split. Qed.

(** C7, amended. When the workflow driver returns Executing and its
    backoff is not zero, the pass returns a result that requeues after
    exactly that backoff, with whatever error garbage collection or the
    status patch gave. *)
Theorem executing_requeues_after_nonzero_backoff
    (ext : Externals) (r : Reconciler) (appFile : AppFile) (steps : list string)
    (w : World) (executed : Application) (backoff : Duration) :
  ExecuteSteps ext (app w) steps = (executed, inr WorkflowStateExecuting) →
  (∀ a, GetBackoffWaitTime ext a = backoff) →
  backoff ≠ 0%Z →
  ∃ err, (reconcileWorkflow ext r appFile steps w).1
         = Done {| Requeue := false; RequeueAfter := backoff |} err.
Proof.
  intros Hexec Hback Hnz. unfold reconcileWorkflow. run. rewrite Hexec. cbn.
  destruct (gcResourceTrackers ext r ApplicationRunningWorkflow false _) as [[res err] w1].
  cbn. exists err. unfold ret, requeue, result, done. cbn.
  rewrite Hback. by rewrite bool_decide_eq_true_2.
Qed.

Lemma executing_requeues_after_five_seconds_example :
  ∃ err, (reconcileWorkflow (executingExternals (5 * Second)%Z) (sampleReconciler false false)
            {| PolicyWorkloads := []; WorkflowMode := "DAG" |} ["deploy"]
            (sampleWorld editedApp)).1
         = Done {| Requeue := false; RequeueAfter := (5 * Second)%Z |} err.
Proof.
  apply (executing_requeues_after_nonzero_backoff (executingExternals (5 * Second)%Z)
           (sampleReconciler false false) {| PolicyWorkloads := []; WorkflowMode := "DAG" |}
           ["deploy"] (sampleWorld editedApp) editedApp (5 * Second)%Z).
  - reflexivity.
  - reflexivity.
  - discriminate.
Defined.

(** The scenario: two passes, the driver's backoff 5s and then 10s. *)
Example executing_twice_requeues_5s_then_10s :
  (Reconcile (executingExternals (5 * Second)%Z) (sampleReconciler false false) webRequest
     (startOfPass ∅)).1
  = Done {| Requeue := false; RequeueAfter := (5 * Second)%Z |} None
  ∧ (Reconcile (executingExternals (10 * Second)%Z) (sampleReconciler false false) webRequest
       (startOfPass ∅)).1
    = Done {| Requeue := false; RequeueAfter := (10 * Second)%Z |} None.
Proof. split; reflexivity. Qed.

(** ** C10: from a tracker notification to a reconcile request *)

(** C10. [handleResourceTracker] adds a request only for a ResourceTracker
    whose app-name and app-namespace labels are both non-empty, and the
    request carries them; a tracker with either label missing or empty adds
    nothing; and with the delete-only trigger enabled a tracker without a
    deletion timestamp adds nothing. *)
Theorem handleResourceTracker_enqueues_only_labelled_trackers
    (ext : Externals) (obj : Object) (queue : list Request) :
  (handleResourceTracker ext obj queue ≠ queue →
     ∃ rt, obj = ObjResourceTracker rt
       ∧ labelOf rt LabelAppName ≠ EmptyString
       ∧ labelOf rt LabelAppNamespace ≠ EmptyString
       ∧ handleResourceTracker ext obj queue
         = queue ++ [{| reqNamespace := labelOf rt LabelAppNamespace;
                        reqName := labelOf rt LabelAppName |}])
  ∧ (∀ rt, obj = ObjResourceTracker rt →
       labelOf rt LabelAppName = EmptyString ∨ labelOf rt LabelAppNamespace = EmptyString →
       handleResourceTracker ext obj queue = queue)
  ∧ (∀ rt, obj = ObjResourceTracker rt →
       EnableResourceTrackerDeleteOnlyTrigger ext = true →
       rtDeletionTimestamp rt = None →
       handleResourceTracker ext obj queue = queue).
Proof.
  repeat split.
  - destruct obj as [a | rt | k]; cbn; [done | | done]. intros H. exists rt.
    destruct (EnableResourceTrackerDeleteOnlyTrigger ext && _); [done |].
    unfold labelOf. destruct (rtLabels rt) as [labels|]; cbn in *; [| done].
    repeat case_bool_decide; cbn in *; done.
  - intros rt -> Hlabel. cbn.
    destruct (EnableResourceTrackerDeleteOnlyTrigger ext && _); [done |].
    unfold labelOf in Hlabel. destruct (rtLabels rt) as [labels|]; cbn in *; [| done].
    repeat case_bool_decide; cbn; try done. naive_solver.
  - intros rt -> Hon Hdel. cbn. rewrite Hon, Hdel. by rewrite bool_decide_eq_true_2.
Qed.

(** A deleted tracker that carries both labels is mapped to its application. *)
Example handleResourceTracker_deleted_tracker_example :
  handleResourceTracker quietExternals
    (ObjResourceTracker (sampleTracker "web-v1-default" (Some 100%Z)
       (Some {[ LabelAppName := "web"; LabelAppNamespace := "default" ]}))) []
  = [webRequest].
Proof. reflexivity. Qed.

End ControllerFacts.

(** * Properties of the storage-item use case *)

Module TraitFacts.
Import Trait.

Lemma detailTraits_storageTraitOf appPrimaryKey name traits itemOptions :
  detailTraits appPrimaryKey name traits itemOptions
  = match List.find isStorage traits with
    | Some trait => detailStorageTrait appPrimaryKey name trait itemOptions
    | None => Returned (None, Some (ErrBcode ErrStorageTraitNotExists))
    end.
Proof.
  induction traits as [| t rest IH]; cbn; [done |]. by destruct (isStorage t).
Qed.

Lemma detailTraitsJSON_storageTraitOf appPrimaryKey name traits itemOptions :
  detailTraitsJSON appPrimaryKey name traits itemOptions
  = match List.find isStorage traits with
    | Some trait => detailStorageTraitJSON appPrimaryKey name trait itemOptions
    | None => Returned (None, Some (ErrBcode ErrStorageTraitNotExists))
    end.
Proof.
  induction traits as [| t rest IH]; cbn; [done |]. by destruct (isStorage t).
Qed.

(** Entries with another mount path leave [itemData] as it is. *)
Lemma detailItems_other_prefix mountPath before rest itemData :
  Forall (otherEntry mountPath) before →
  detailItems (before ++ rest) mountPath itemData = detailItems rest mountPath itemData.
Proof.
  induction 1 as [| item before (fields & -> & [v Hv] & Hne) _ IH]; cbn; [done |].
  rewrite Hv in *. cbn in Hne. by rewrite Hne.
Qed.

Lemma detailItems_others mountPath items itemData :
  Forall (otherEntry mountPath) items →
  detailItems items mountPath itemData = Returned (inr itemData).
Proof.
  intros H. rewrite <- (app_nil_r items). by rewrite detailItems_other_prefix.
Qed.

Lemma equalsString_same s : equalsString (Some (JString s)) s = true.
Proof. cbn. by apply bool_decide_eq_true_2. Qed.

(** ** C8: what a read answers when a level is missing *)

(** C8 fails on the revisions that query the marshalled document
    (src/unnamed/part_001 and part_002). The stored storage trait has one
    configMap entry, mounted at /etc/conf, with the key app; the mount
    paths and keys asked for are plain, so the path the code builds means
    the lookup [gjsonGetItem]. A read of type secret, which the trait does
    not have, is answered with the configMap value and no error, where the
    revision that walks the maps answers "storage trait type is not
    exists"; a mount path that no entry has is answered "storage trait data
    is not exists", the error of a missing key, where the revision that
    walks the maps answers "storage trait mount path is not exists". *)
Theorem detail_json_revisions_collapse_missing_levels :
  (gjsonPlain "/etc/conf" = true ∧ gjsonPlain "/var/run" = true
   ∧ gjsonPlain "app" = true ∧ gjsonPlain "missing" = true)
  ∧ (∃ properties, traitProperties sampleStorageTrait = Some properties
       ∧ properties !! KeySecret = None)
  ∧ (DetailComponentStorageItemJSON (sampleStore [sampleScalerTrait; sampleStorageTrait])
       "shop" "web" (sampleOptions KeySecret "/etc/conf" "app")
     = Returned (Some {| AppPrimaryKey := "shop"; ComponentName := "web";
                         MountPath := "/etc/conf"; Key := "app";
                         Type_ := KeySecret; Value := "x" |}, None)
     ∧ DetailComponentStorageItem (sampleStore [sampleScalerTrait; sampleStorageTrait])
         "shop" "web" (sampleOptions KeySecret "/etc/conf" "app")
       = (None, Some (ErrBcode ErrStorageTraitTypeNotExists)))
  ∧ (DetailComponentStorageItemJSON (sampleStore [sampleScalerTrait; sampleStorageTrait])
       "shop" "web" (sampleOptions KeyConfigMap "/var/run" "app")
     = Returned (None, Some (ErrBcode ErrStorageDataNotExists))
     ∧ DetailComponentStorageItem (sampleStore [sampleScalerTrait; sampleStorageTrait])
         "shop" "web" (sampleOptions KeyConfigMap "/var/run" "app")
       = (None, Some (ErrBcode ErrStorageMountPathNotExists)))
  ∧ (DetailComponentStorageItemJSON (sampleStore [sampleScalerTrait; sampleStorageTrait])
       "shop" "web" (sampleOptions KeyConfigMap "/etc/conf" "missing")
     = Returned (None, Some (ErrBcode ErrStorageDataNotExists))
     ∧ DetailComponentStorageItem (sampleStore [sampleScalerTrait; sampleStorageTrait])
         "shop" "web" (sampleOptions KeyConfigMap "/etc/conf" "missing")
       = (None, Some (ErrBcode ErrStorageDataNotExists))).
Proof.
  split; [by repeat split |].
  split; [eexists; split; reflexivity |].
  by repeat split.
Qed.

(** What the revision that walks the maps answers. Without a storage
    trait, every revision answers "storage trait is not exists". With one
    (the first of the component) and its property document, the revision
    that walks the maps answers "storage trait type is not exists" when
    the document has no entry list for the requested type, "storage trait
    mount path is not exists" when no entry of the list has the mount path,
    and "storage trait data is not exists" when the entry with the mount
    path has no such data key (entries being objects with a mount path,
    the requested one unique); these four codes differ. *)
Theorem detail_map_walking_missing_level_errors
    (ds : DataStore) (appPrimaryKey componentName : string)
    (itemOptions : StorageItemOptions) (comp : ApplicationComponent) :
  dsGet ds appPrimaryKey componentName = inr comp →
  (storageTraitOf comp = None →
     DetailComponentStorageItem ds appPrimaryKey componentName itemOptions
     = (None, Some (ErrBcode ErrStorageTraitNotExists))
     ∧ DetailComponentStorageItemJSON ds appPrimaryKey componentName itemOptions
       = Returned (None, Some (ErrBcode ErrStorageTraitNotExists)))
  ∧ (∀ trait properties,
       storageTraitOf comp = Some trait →
       traitProperties trait = Some properties →
       (properties !! optType itemOptions = None →
          DetailComponentStorageItem ds appPrimaryKey componentName itemOptions
          = (None, Some (ErrBcode ErrStorageTraitTypeNotExists)))
       ∧ (∀ items,
            properties !! optType itemOptions = Some (JArray items) →
            Forall (otherEntry (optMountPath itemOptions)) items →
            DetailComponentStorageItem ds appPrimaryKey componentName itemOptions
            = (None, Some (ErrBcode ErrStorageMountPathNotExists)))
       ∧ (∀ before entry data after,
            properties !! optType itemOptions
              = Some (JArray (before ++ JObject entry :: after)) →
            Forall (otherEntry (optMountPath itemOptions)) before →
            Forall (otherEntry (optMountPath itemOptions)) after →
            entry !! KeyMountPath = Some (JString (optMountPath itemOptions)) →
            entry !! KeyData = Some (JObject data) →
            data !! optDataKey itemOptions = None →
            DetailComponentStorageItem ds appPrimaryKey componentName itemOptions
            = (None, Some (ErrBcode ErrStorageDataNotExists))))
  ∧ NoDup [ErrStorageTraitNotExists; ErrStorageTraitTypeNotExists;
           ErrStorageMountPathNotExists; ErrStorageDataNotExists].
Proof.
  intros Hget. unfold DetailComponentStorageItem, DetailComponentStorageItemJSON, storageTraitOf.
  rewrite Hget, detailTraits_storageTraitOf, detailTraitsJSON_storageTraitOf.
  split; [| split].
  - by intros ->.
  - intros trait properties -> Hprops.
    unfold detailStorageTrait. rewrite Hprops.
    repeat split.
    + by intros ->.
    + intros items -> Hothers. by rewrite detailItems_others.
    + intros before entry data after -> Hbefore Hafter Hmount Hdata Hkey.
      rewrite detailItems_other_prefix by done. cbn [detailItems].
      rewrite Hmount, equalsString_same, Hdata, detailItems_others by done.
      by rewrite Hkey.
  - repeat constructor; set_solver.
Qed.

(** A read of a type the sample storage trait does not have, answered by
    the revision that walks the maps. *)
Lemma detail_map_walking_missing_type_example :
  DetailComponentStorageItem (sampleStore [sampleScalerTrait; sampleStorageTrait])
    "shop" "web" (sampleOptions KeySecret "/etc/conf" "app")
  = (None, Some (ErrBcode ErrStorageTraitTypeNotExists)).
Proof.
  destruct (detail_map_walking_missing_level_errors
              (sampleStore [sampleScalerTrait; sampleStorageTrait])
              "shop" "web" (sampleOptions KeySecret "/etc/conf" "app")
              (sampleComponent [sampleScalerTrait; sampleStorageTrait]) eq_refl)
    as (_ & Hlevels & _).
  destruct (Hlevels sampleStorageTrait _ eq_refl eq_refl) as (Htype & _).
  exact (Htype eq_refl).
Defined.

(** The other levels on the same component, by evaluation. *)
Example detail_levels_example :
  DetailComponentStorageItem (sampleStore [sampleScalerTrait]) "shop" "web"
    (sampleOptions KeyConfigMap "/etc/conf" "app")
  = (None, Some (ErrBcode ErrStorageTraitNotExists))
  ∧ DetailComponentStorageItem (sampleStore [sampleScalerTrait; sampleStorageTrait])
      "shop" "web" (sampleOptions KeyConfigMap "/var/run" "app")
    = (None, Some (ErrBcode ErrStorageMountPathNotExists))
  ∧ DetailComponentStorageItem (sampleStore [sampleScalerTrait; sampleStorageTrait])
      "shop" "web" (sampleOptions KeyConfigMap "/etc/conf" "missing")
    = (None, Some (ErrBcode ErrStorageDataNotExists))
  ∧ DetailComponentStorageItem (sampleStore [sampleScalerTrait; sampleStorageTrait])
      "shop" "web" (sampleOptions KeyConfigMap "/etc/conf" "app")
    = (Some {| AppPrimaryKey := "shop"; ComponentName := "web";
               MountPath := "/etc/conf"; Key := "app";
               Type_ := KeyConfigMap; Value := "x" |}, None).
Proof. repeat split. Qed.

(** ** C9: creating a data key that exists *)

(** After the loop, [storageTrait] points at a copy of the last trait. *)
Lemma rangeTraits_app traits t hasStorageTrait trait :
  rangeTraits (traits ++ [t]) hasStorageTrait trait
  = ((rangeTraits traits hasStorageTrait trait).1 || isStorage t, Some t).
Proof.
  revert hasStorageTrait trait.
  induction traits as [| x rest IH]; intros h v; cbn; [done |]. by rewrite IH.
Qed.

Lemma mergeItems_existing_key createReq before entry data after :
  Forall (otherEntry (reqMountPath createReq)) before →
  entry !! KeyMountPath = Some (JString (reqMountPath createReq)) →
  entry !! KeyData = Some (JObject data) →
  is_Some (data !! reqDataKey createReq) →
  mergeItems (before ++ JObject entry :: after) createReq
  = LoopReturned (Some ErrStorageTraitKeyIsExists) (before ++ JObject entry :: after).
Proof.
  intros Hbefore Hmount Hdata [v Hkey].
  induction Hbefore as [| item before (fields & -> & _ & Hne) _ IH]; cbn.
  - by rewrite Hmount, equalsString_same, Hdata, Hkey.
  - by rewrite Hne, IH.
Qed.

(** When the storage trait is the last trait of the component, a create
    request for a key that the first entry with its mount path already
    holds is refused with "storage trait data is exists" and nothing is
    stored. *)
Lemma create_existing_key_refused_when_storage_trait_is_last
    (now : Z) (ds : DataStore) (appPrimaryKey componentName : string)
    (createReq : StorageItemRequest) (comp : ApplicationComponent)
    (others : list ApplicationTrait) (trait : ApplicationTrait)
    (properties : JSONStruct) (before after : list JSON) (entry data : JSONStruct) :
  dsGet ds appPrimaryKey componentName = inr comp →
  compTraits comp = others ++ [trait] →
  isStorage trait = true →
  traitProperties trait = Some properties →
  properties !! reqType createReq = Some (JArray (before ++ JObject entry :: after)) →
  Forall (otherEntry (reqMountPath createReq)) before →
  entry !! KeyMountPath = Some (JString (reqMountPath createReq)) →
  entry !! KeyData = Some (JObject data) →
  is_Some (data !! reqDataKey createReq) →
  CreateComponentStorageItem now ds appPrimaryKey componentName createReq
  = (Returned (None, Some (ErrBcode ErrStorageTraitKeyIsExists)), ds).
Proof.
  intros Hget Htraits Hstorage Hprops Htype Hbefore Hmount Hdata Hkey.
  unfold CreateComponentStorageItem. rewrite Hget, Htraits, rangeTraits_app, Hstorage.
  rewrite orb_true_r. unfold mergeStorageItem. rewrite Hprops.
  set (named := if bool_decide (reqName createReq = EmptyString) then _ else createReq).
  assert (reqType named = reqType createReq ∧ reqMountPath named = reqMountPath createReq
          ∧ reqDataKey named = reqDataKey createReq) as (Ht & Hm & Hk).
  { unfold named. by case_bool_decide. }
  rewrite Ht, Htype.
  rewrite (mergeItems_existing_key named before entry data after);
    rewrite ?Hm, ?Hk; done.
Qed.

Lemma create_existing_key_refused_example :
  CreateComponentStorageItem 20%Z (sampleStore [sampleScalerTrait; sampleStorageTrait])
    "shop" "web" (sampleRequest "/etc/conf" "app" "y")
  = (Returned (None, Some (ErrBcode ErrStorageTraitKeyIsExists)),
     sampleStore [sampleScalerTrait; sampleStorageTrait]).
Proof.
  eapply (create_existing_key_refused_when_storage_trait_is_last 20%Z
            (sampleStore [sampleScalerTrait; sampleStorageTrait]) "shop" "web"
            (sampleRequest "/etc/conf" "app" "y")
            (sampleComponent [sampleScalerTrait; sampleStorageTrait])
            [sampleScalerTrait] sampleStorageTrait _ [] [] _ {[ "app" := JString "x" ]}).
  - reflexivity.
  - reflexivity.
  - reflexivity.
  - reflexivity.
  - reflexivity.
  - constructor.
  - reflexivity.
  - reflexivity.
  - by eexists.
Defined.

(** C9 fails on the code when another trait follows the storage trait.
    The component holds the storage trait (key [app] under [/etc/conf],
    value [x]) and then a scaler trait. The create request for that key is
    not refused: [storageTrait] points at a copy of the scaler trait, the
    merge finds no configMap there and adds one, the component is stored,
    and the call returns the scaler's document as the storage trait. *)
Theorem create_existing_key_accepted_when_another_trait_follows :
  DetailComponentStorageItem (sampleStore [sampleStorageTrait; sampleScalerTrait])
    "shop" "web" (sampleOptions KeyConfigMap "/etc/conf" "app")
  = (Some {| AppPrimaryKey := "shop"; ComponentName := "web";
             MountPath := "/etc/conf"; Key := "app";
             Type_ := KeyConfigMap; Value := "x" |}, None)
  ∧ CreateComponentStorageItem 20%Z (sampleStore [sampleStorageTrait; sampleScalerTrait])
      "shop" "web" (sampleRequest "/etc/conf" "app" "y")
    = (Returned
         (Some {| traitAlias := EmptyString; traitDescription := EmptyString;
                  traitType := KeyStorage;
                  traitProperties :=
                    Some {[ "replicas" := JNumber 2;
                            KeyConfigMap :=
                              JObject {[ "name" := JString "web-etc-confapp";
                                         KeyMountPath := JString "/etc/conf";
                                         KeyData := JObject {[ "app" := JString "y" ]} ]} ]};
                  traitCreateTime := 20%Z; traitUpdateTime := 0%Z |}, None),
       sampleStore
         [sampleStorageTrait;
          withProperties sampleScalerTrait
            (Some {[ "replicas" := JNumber 2;
                     KeyConfigMap :=
                       JObject {[ "name" := JString "web-etc-confapp";
                                  KeyMountPath := JString "/etc/conf";
                                  KeyData := JObject {[ "app" := JString "y" ]} ]} ]})]).
Proof. split; vm_compute; reflexivity. Qed.

End TraitFacts.

(** * Invariants of a reconcile pass and the watch filters *)

Module PassFacts.
Import Controller ControllerFacts.

(** ** The trace of a pass, piece by piece

    [quiet], [noWrite] and [oneWrite] are kept by the operations of the
    monad, so they are proved for a function of the pass by following its
    text: the step tactics below read the head of the goal and apply the
    matching lemma. *)

Lemma statusWrites_app t u : statusWrites (t ++ u) = statusWrites t + statusWrites u.
Proof. unfold statusWrites. rewrite filter_app, length_app. reflexivity. Qed.

Lemma workflowAnswers_app t u :
  workflowAnswers (t ++ u) = workflowAnswers t ++ workflowAnswers u.
Proof. apply omap_app. Qed.

Lemma quiet_ret {A} (a : A) : quiet (mret a).
Proof. intros w. reflexivity. Qed.

Lemma quiet_bind {A B} (m : M A) (k : A → M B) :
  quiet m → (∀ a, quiet (k a)) → quiet (m ≫= k).
Proof.
  intros Hm Hk w. unfold mbind, M_bind. specialize (Hm w).
  destruct (m w) as [a w1]. cbn in *. rewrite Hk. exact Hm.
Qed.

Lemma quiet_fmap {A B} (f : A → B) (m : M A) : quiet m → quiet (f <$> m).
Proof.
  intros Hm w. unfold fmap, M_fmap. specialize (Hm w). destruct (m w). exact Hm.
Qed.

Lemma quiet_getApp : quiet getApp.
Proof. intros w. reflexivity. Qed.

Lemma quiet_modifyApp f : quiet (modifyApp f).
Proof. intros w. reflexivity. Qed.

Lemma quiet_cacheStore k v : quiet (cacheStore k v).
Proof. intros w. reflexivity. Qed.

Lemma quiet_DeleteInMemoryContext n : quiet (DeleteInMemoryContext n).
Proof. intros w. reflexivity. Qed.

Lemma quiet_emit e :
  (∀ answer, e ≠ EExecuteSteps answer) → quiet (emit e).
Proof.
  intros He w. change (trace (emit e w).2) with (trace w ++ [e]).
  rewrite workflowAnswers_app.
  destruct e; try apply app_nil_r. destruct (He answer). reflexivity.
Qed.

Lemma noWrite_ret {A} (a : A) : noWrite (mret a).
Proof. intros w. reflexivity. Qed.

Lemma noWrite_bind {A B} (m : M A) (k : A → M B) :
  noWrite m → (∀ a, noWrite (k a)) → noWrite (m ≫= k).
Proof.
  intros Hm Hk w. unfold mbind, M_bind. specialize (Hm w).
  destruct (m w) as [a w1]. cbn in *. rewrite Hk. exact Hm.
Qed.

Lemma noWrite_fmap {A B} (f : A → B) (m : M A) : noWrite m → noWrite (f <$> m).
Proof.
  intros Hm w. unfold fmap, M_fmap. specialize (Hm w). destruct (m w). exact Hm.
Qed.

Lemma noWrite_getApp : noWrite getApp.
Proof. intros w. reflexivity. Qed.

Lemma noWrite_modifyApp f : noWrite (modifyApp f).
Proof. intros w. reflexivity. Qed.

Lemma noWrite_cacheStore k v : noWrite (cacheStore k v).
Proof. intros w. reflexivity. Qed.

Lemma noWrite_DeleteInMemoryContext n : noWrite (DeleteInMemoryContext n).
Proof. intros w. reflexivity. Qed.

Lemma statusWrites_single e :
  statusWrites [e] = if isStatusWrite e then 1 else 0.
Proof. unfold statusWrites. cbn. destruct (isStatusWrite e); reflexivity. Qed.

Lemma noWrite_emit e : isStatusWrite e = false → noWrite (emit e).
Proof.
  intros He w. change (trace (emit e w).2) with (trace w ++ [e]).
  rewrite statusWrites_app, statusWrites_single, He. lia.
Qed.

Lemma oneWrite_noWrite {A} (m : M A) : noWrite m → oneWrite m.
Proof. intros H w. rewrite H. lia. Qed.

Lemma oneWrite_emit e : oneWrite (emit e).
Proof.
  intros w. change (trace (emit e w).2) with (trace w ++ [e]).
  rewrite statusWrites_app, statusWrites_single. destruct (isStatusWrite e); lia.
Qed.

Lemma oneWrite_bind_l {A B} (m : M A) (k : A → M B) :
  noWrite m → (∀ a, oneWrite (k a)) → oneWrite (m ≫= k).
Proof.
  intros Hm Hk w. unfold mbind, M_bind. specialize (Hm w).
  destruct (m w) as [a w1]. cbn in *. rewrite <- Hm. apply Hk.
Qed.

Lemma oneWrite_bind_r {A B} (m : M A) (k : A → M B) :
  oneWrite m → (∀ a, noWrite (k a)) → oneWrite (m ≫= k).
Proof.
  intros Hm Hk w. unfold mbind, M_bind. specialize (Hm w).
  destruct (m w) as [a w1]. cbn in *. rewrite Hk. exact Hm.
Qed.

Lemma oneWrite_fmap {A B} (f : A → B) (m : M A) : oneWrite m → oneWrite (f <$> m).
Proof.
  intros Hm w. unfold fmap, M_fmap. specialize (Hm w). destruct (m w). exact Hm.
Qed.

Create HintDb pass discriminated.

Ltac known := solve [trivial with pass nocore].

Ltac quiet_step :=
  first
  [ known
  | lazymatch goal with
    | |- quiet (mret _) => apply quiet_ret
    | |- quiet getApp => apply quiet_getApp
    | |- quiet (modifyApp _) => apply quiet_modifyApp
    | |- quiet (cacheStore _ _) => apply quiet_cacheStore
    | |- quiet (DeleteInMemoryContext _) => apply quiet_DeleteInMemoryContext
    | |- quiet (emit _) => apply quiet_emit; discriminate
    | |- quiet (fmap _ _) => apply quiet_fmap
    | |- quiet (mbind _ _) => apply quiet_bind; [| intros ?]
    | |- quiet (match ?x with _ => _ end) => destruct x
    | |- quiet ((fun _ => _) _) => cbv beta
    end ].

Ltac noWrite_step :=
  first
  [ known
  | lazymatch goal with
    | |- noWrite (mret _) => apply noWrite_ret
    | |- noWrite getApp => apply noWrite_getApp
    | |- noWrite (modifyApp _) => apply noWrite_modifyApp
    | |- noWrite (cacheStore _ _) => apply noWrite_cacheStore
    | |- noWrite (DeleteInMemoryContext _) => apply noWrite_DeleteInMemoryContext
    | |- noWrite (emit _) => apply noWrite_emit; reflexivity
    | |- noWrite (fmap _ _) => apply noWrite_fmap
    | |- noWrite (mbind _ _) => apply noWrite_bind; [| intros ?]
    | |- noWrite (match ?x with _ => _ end) => destruct x
    | |- noWrite ((fun _ => _) _) => cbv beta
    end ].

(** At most one status write: a bind spends it on one side. *)
Ltac oneWrite_step :=
  first
  [ known
  | lazymatch goal with
    | |- oneWrite (mret _) => apply oneWrite_noWrite, noWrite_ret
    | |- oneWrite (emit _) => apply oneWrite_emit
    | |- oneWrite (fmap _ _) => apply oneWrite_fmap
    | |- oneWrite (mbind _ _) =>
        first [ apply oneWrite_bind_l; [solve [repeat noWrite_step] | intros ?]
              | apply oneWrite_bind_r; [| intros ?; solve [repeat noWrite_step]] ]
    | |- oneWrite (match ?x with _ => _ end) => destruct x
    | |- oneWrite ((fun _ => _) _) => cbv beta
    end ].

Section Invariants.

Variable ext : Externals.
Variable r : Reconciler.

Lemma quiet_patchStatus phase : quiet (patchStatus ext phase).
Proof. unfold patchStatus. repeat quiet_step. Qed.

Lemma quiet_updateStatus phase : quiet (updateStatus ext r phase).
Proof. unfold updateStatus. repeat quiet_step. Qed.

Hint Resolve quiet_patchStatus quiet_updateStatus : pass.

Lemma quiet_endWithNegativeCondition c phase :
  quiet (endWithNegativeCondition ext c phase).
Proof. unfold endWithNegativeCondition. repeat quiet_step. Qed.

Hint Resolve quiet_endWithNegativeCondition : pass.

Lemma quiet_gcResourceTrackers phase o : quiet (gcResourceTrackers ext r phase o).
Proof. unfold gcResourceTrackers. repeat quiet_step. Qed.

Lemma quiet_clientUpdate : quiet (clientUpdate ext).
Proof. unfold clientUpdate. repeat quiet_step. Qed.

Hint Resolve quiet_gcResourceTrackers quiet_clientUpdate : pass.

Lemma quiet_handleFinalizers : quiet (handleFinalizers ext r).
Proof. unfold handleFinalizers. repeat quiet_step. Qed.

Lemma quiet_callHandler f : quiet (callHandler f).
Proof. unfold callHandler. repeat quiet_step. Qed.

Lemma quiet_doWorkflowFinish : quiet (doWorkflowFinish ext).
Proof. unfold doWorkflowFinish. repeat quiet_step. Qed.

Hint Resolve quiet_handleFinalizers quiet_callHandler quiet_doWorkflowFinish : pass.

Lemma quiet_reconcileTail appFile services : quiet (reconcileTail ext r appFile services).
Proof. unfold reconcileTail. repeat quiet_step. Qed.

Hint Resolve quiet_reconcileTail : pass.

(** Status writes. *)

Lemma oneWrite_patchStatus phase : oneWrite (patchStatus ext phase).
Proof. unfold patchStatus. repeat oneWrite_step. Qed.

Lemma oneWrite_updateStatus phase : oneWrite (updateStatus ext r phase).
Proof. unfold updateStatus. repeat oneWrite_step. Qed.

Hint Resolve oneWrite_patchStatus oneWrite_updateStatus : pass.

Lemma oneWrite_endWithNegativeCondition c phase :
  oneWrite (endWithNegativeCondition ext c phase).
Proof. unfold endWithNegativeCondition. repeat oneWrite_step. Qed.

Hint Resolve oneWrite_endWithNegativeCondition : pass.

Lemma oneWrite_gcResourceTrackers phase o : oneWrite (gcResourceTrackers ext r phase o).
Proof. unfold gcResourceTrackers. repeat oneWrite_step. Qed.

Lemma noWrite_clientUpdate : noWrite (clientUpdate ext).
Proof. unfold clientUpdate. repeat noWrite_step. Qed.

Lemma noWrite_callHandler f : noWrite (callHandler f).
Proof. unfold callHandler. repeat noWrite_step. Qed.

Lemma noWrite_doWorkflowFinish : noWrite (doWorkflowFinish ext).
Proof. unfold doWorkflowFinish. repeat noWrite_step. Qed.

Hint Resolve oneWrite_gcResourceTrackers noWrite_clientUpdate noWrite_callHandler
  noWrite_doWorkflowFinish : pass.

Lemma oneWrite_handleFinalizers : oneWrite (handleFinalizers ext r).
Proof. unfold handleFinalizers. repeat oneWrite_step. Qed.

Lemma oneWrite_reconcileTail appFile services :
  oneWrite (reconcileTail ext r appFile services).
Proof. unfold reconcileTail. repeat oneWrite_step. Qed.

Hint Resolve oneWrite_handleFinalizers oneWrite_reconcileTail : pass.

Lemma oneWrite_reconcileWorkflow appFile steps :
  oneWrite (reconcileWorkflow ext r appFile steps).
Proof. unfold reconcileWorkflow. repeat oneWrite_step. Qed.

Hint Resolve oneWrite_reconcileWorkflow : pass.

Lemma oneWrite_reconcileRender : oneWrite (reconcileRender ext r).
Proof. unfold reconcileRender. repeat oneWrite_step. Qed.


(** ** How a pass reaches the workflow driver *)

Lemma reachesWorkflow_quiet (m : M Outcome) : quiet m → reachesWorkflow ext r m.
Proof. intros H w. left. apply H. Qed.

Lemma reachesWorkflow_bind {A} (m : M A) (k : A → M Outcome) :
  quiet m → noWrite m → (∀ a, reachesWorkflow ext r (k a)) →
  reachesWorkflow ext r (m ≫= k).
Proof.
  intros Hq Hn Hk w. unfold mbind, M_bind.
  specialize (Hq w). specialize (Hn w). destruct (m w) as [a w0]. cbn in *.
  destruct (Hk a w0) as [H | (appFile & steps & w1 & Heq & Ha & Hs)].
  - left. by rewrite H.
  - right. exists appFile, steps, w1. repeat split; [done | congruence | congruence].
Qed.

Lemma reachesWorkflow_reconcileWorkflow appFile steps :
  reachesWorkflow ext r (reconcileWorkflow ext r appFile steps).
Proof. intros w. right. by exists appFile, steps, w. Qed.

Hint Resolve reachesWorkflow_reconcileWorkflow : pass.

Ltac reaches_step :=
  first
  [ known
  | apply reachesWorkflow_quiet; solve [repeat quiet_step]
  | lazymatch goal with
    | |- reachesWorkflow _ _ (mbind _ _) =>
        apply reachesWorkflow_bind;
          [solve [repeat quiet_step] | solve [repeat noWrite_step] | intros ?]
    | |- reachesWorkflow _ _ (match ?x with _ => _ end) => destruct x
    | |- reachesWorkflow _ _ ((fun _ => _) _) => cbv beta
    end ].

Lemma reachesWorkflow_reconcileRender : reachesWorkflow ext r (reconcileRender ext r).
Proof. unfold reconcileRender. repeat reaches_step. Qed.

Lemma endWith_ends rr endReconcile : (endWith ext rr endReconcile).1.1 = endReconcile.
Proof. unfold endWith. by destruct (ret ext rr). Qed.

(** [handleFinalizers] writes a status only on its deletion branch, which
    always ends the pass. *)
Lemma handleFinalizers_write_ends w :
  DeletionTimestamp (app (handleFinalizers ext r w).2) = DeletionTimestamp (app w)
  ∧ (statusWrites (trace (handleFinalizers ext r w).2) = statusWrites (trace w)
     ∨ (DeletionTimestamp (app w) ≠ None ∧ (handleFinalizers ext r w).1.1.1 = true)).
Proof.
  unfold handleFinalizers, clientUpdate. run.
  destruct (IsZero (DeletionTimestamp (app w))) eqn:Hzero.
  - destruct (FinalizerExists (app w) resourceTrackerFinalizer); cbn.
    + split; [done | by left].
    + unfold AddFinalizer. destruct (FinalizerExists _ _); cbn.
      * split; [done |]. left. exact (noWrite_emit (EUpdate _) eq_refl w).
      * split; [done |]. left. exact (noWrite_emit (EUpdate _) eq_refl w).
  - assert (DeletionTimestamp (app w) ≠ None) as Hsome.
    { intros H. rewrite H in Hzero. discriminate. }
    destruct (FinalizerExists (app w) resourceTrackerFinalizer); cbn; [| split; [done | by left]].
    destruct (ListApplicationResourceTrackers ext (app w)); cbn.
    { split; [done |]. right. split; [done |]. apply endWith_ends. }
    pose proof (gcResourceTrackers_onlyStatus ext r ApplicationDeleting true w) as Hgc.
    destruct (gcResourceTrackers ext r ApplicationDeleting true w) as [[res err] w1].
    cbn in Hgc. assert (DeletionTimestamp (app w1) = DeletionTimestamp (app w)) as Hdel.
    { unfold onlyStatusChanged in Hgc. by rewrite Hgc. }
    destruct err; cbn; [by split; [| right] |].
    destruct (noTrackers _); cbn.
    { split; [done |]. right. split; [done |]. apply endWith_ends. }
    destruct (EnableInMemoryContext ext); cbn; by split; [| right].
Qed.

Lemma reachesWorkflow_Reconcile req : reachesWorkflow ext r (Reconcile ext r req).
Proof.
  unfold Reconcile. destruct (Get ext req) as [fetched | | e];
    [| apply reachesWorkflow_quiet; repeat quiet_step ..].
  apply reachesWorkflow_bind; [repeat quiet_step | repeat noWrite_step | intros _].
  destruct (negb _); [apply reachesWorkflow_quiet; repeat quiet_step |].
  apply reachesWorkflow_bind; [repeat quiet_step | repeat noWrite_step | intros _].
  apply reachesWorkflow_bind; [repeat quiet_step | repeat noWrite_step | intros a].
  destruct (NewAppHandler ext a); [apply reachesWorkflow_quiet; repeat quiet_step |].
  intros w. unfold mbind, M_bind.
  pose proof (quiet_handleFinalizers w) as Hq.
  destruct (handleFinalizers_write_ends w) as [_ Hw].
  destruct (handleFinalizers ext r w) as [[[endReconcile res] err] w0]. cbn in *.
  unfold getApp. cbn.
  destruct err as [e|].
  - left. destruct (DeletionTimestamp (app w0)); cbn; [done |].
    rewrite <- Hq. apply (quiet_fmap _ _ (quiet_endWithNegativeCondition _ _)).
  - destruct endReconcile; cbn; [by left |].
    destruct Hw as [Hw | [_ [=]]].
    destruct (reachesWorkflow_reconcileRender w0) as [H | (appFile & steps & w1 & Heq & Ha & Hs)].
    + left. congruence.
    + right. exists appFile, steps, w1. repeat split; congruence.
Qed.


(** The functions of this file send at most one status write in a pass:
    on every path through [Reconcile], [patchStatus] or [updateStatus]
    runs at most once. What the methods of the application handler write
    behind their own calls is outside this file and is not counted. *)
Theorem Reconcile_writes_status_at_most_once (req : Request) (w : World) :
  statusWrites (trace (Reconcile ext r req w).2) ≤ S (statusWrites (trace w)).
Proof.
  revert w. change (oneWrite (Reconcile ext r req)).
  unfold Reconcile. destruct (Get ext req) as [fetched | | e];
    [| apply oneWrite_noWrite; repeat noWrite_step ..].
  apply oneWrite_bind_l; [repeat noWrite_step | intros _].
  destruct (negb _); [apply oneWrite_noWrite; repeat noWrite_step |].
  apply oneWrite_bind_l; [repeat noWrite_step | intros _].
  apply oneWrite_bind_l; [repeat noWrite_step | intros a].
  destruct (NewAppHandler ext a); [repeat oneWrite_step |].
  intros w. unfold mbind, M_bind.
  pose proof (oneWrite_handleFinalizers w) as Hone.
  destruct (handleFinalizers_write_ends w) as [Hdel Hw].
  destruct (handleFinalizers ext r w) as [[[endReconcile res] err] w0]. cbn in *.
  unfold getApp. cbn.
  destruct err as [e|].
  - rewrite Hdel. destruct (DeletionTimestamp (app w)) eqn:Hd; cbn; [done |].
    destruct Hw as [Hw | [[] _]]; [| done]. rewrite <- Hw.
    apply (oneWrite_fmap _ _ (oneWrite_endWithNegativeCondition _ _)).
  - destruct endReconcile; cbn; [done |].
    destruct Hw as [Hw | [_ [=]]]. rewrite <- Hw. apply oneWrite_reconcileRender.
Qed.

Lemma reconcileWorkflow_answer appFile steps w :
  workflowAnswers (trace (reconcileWorkflow ext r appFile steps w).2)
  = workflowAnswers (trace w) ++ [(ExecuteSteps ext (app w) steps).2].
Proof.
  unfold reconcileWorkflow. unfold mbind at 1, M_bind at 1, getApp at 1. cbn [fst snd].
  destruct (ExecuteSteps ext (app w) steps) as [a' executed]. cbn [snd].
  unfold mbind at 1, M_bind at 1, modifyApp at 1. cbn [fst snd].
  unfold mbind at 1, M_bind at 1, emit at 1. cbn [fst snd app trace].
  match goal with
  | |- workflowAnswers (trace (?rest ?w0).2) = _ =>
      assert (quiet rest) as Hq by (cbv beta; repeat quiet_step);
      rewrite (Hq w0)
  end.
  cbn [trace]. by rewrite workflowAnswers_app.
Qed.

Lemma reconcileWorkflow_executing appFile steps w executed backoff :
  ExecuteSteps ext (app w) steps = (executed, inr WorkflowStateExecuting) →
  (∀ a, GetBackoffWaitTime ext a = backoff) →
  backoff ≠ 0%Z →
  ∃ err, (reconcileWorkflow ext r appFile steps w).1
         = Done {| Requeue := false; RequeueAfter := backoff |} err.
Proof.
  intros Hexec Hback Hnz. unfold reconcileWorkflow. run. rewrite Hexec. cbn.
  destruct (gcResourceTrackers ext r ApplicationRunningWorkflow false _) as [[res err] w1].
  cbn. exists err. unfold ret, requeue, result, done. cbn.
  rewrite Hback. by rewrite bool_decide_eq_true_2.
Qed.

Lemma reconcileWorkflow_skipping_trace appFile steps w executed :
  ExecuteSteps ext (app w) steps = (executed, inr WorkflowStateSkipping) →
  (reconcileWorkflow ext r appFile steps w).1 = Done emptyResult None
  ∧ trace (reconcileWorkflow ext r appFile steps w).2
    = trace w ++ [EExecuteSteps (inr WorkflowStateSkipping)].
Proof. intros Hexec. unfold reconcileWorkflow. run. by rewrite Hexec. Qed.

Lemma reconcileWorkflow_finishing_panics appFile steps w executed state :
  ExecuteSteps ext (app w) steps = (executed, inr state) →
  state = WorkflowStateTerminated ∨ state = WorkflowStateSucceeded →
  (∀ a, Trace ext a = None) →
  Workflow (Status executed) = None →
  (reconcileWorkflow ext r appFile steps w).1 = Panic.
Proof.
  intros Hexec Hstate Htrace Hwf. unfold reconcileWorkflow, doWorkflowFinish. run.
  rewrite Hexec. cbn [fst snd app].
  destruct Hstate as [-> | ->]; cbn; rewrite Htrace; cbn; by rewrite Hwf.
Qed.

End Invariants.

(** A pass calls the workflow driver at most once. *)
Theorem Reconcile_executes_steps_at_most_once
    (ext : Externals) (r : Reconciler) (req : Request) (w : World) :
  workflowAnswers (trace (Reconcile ext r req w).2) = workflowAnswers (trace w)
  ∨ ∃ answer,
      workflowAnswers (trace (Reconcile ext r req w).2)
      = workflowAnswers (trace w) ++ [answer].
Proof.
  destruct (reachesWorkflow_Reconcile ext r req w)
    as [H | (appFile & steps & w1 & Heq & Ha & _)]; [by left |].
  right. eexists. rewrite Heq, reconcileWorkflow_answer, Ha. reflexivity.
Qed.

(** Whenever the workflow driver answered Executing in a pass and its
    backoff is not zero, the pass, wherever it started from, returns a
    result that requeues after that backoff. *)
Theorem Reconcile_requeues_after_backoff_while_executing
    (ext : Externals) (r : Reconciler) (req : Request) (w : World) (backoff : Duration) :
  workflowAnswers (trace w) = [] →
  (∀ a, GetBackoffWaitTime ext a = backoff) →
  backoff ≠ 0%Z →
  inr WorkflowStateExecuting ∈ workflowAnswers (trace (Reconcile ext r req w).2) →
  ∃ err, (Reconcile ext r req w).1
         = Done {| Requeue := false; RequeueAfter := backoff |} err.
Proof.
  intros Hstart Hback Hnz Hin.
  destruct (reachesWorkflow_Reconcile ext r req w)
    as [H | (appFile & steps & w1 & Heq & Ha & _)].
  { rewrite H, Hstart in Hin. by apply elem_of_nil in Hin. }
  rewrite Heq in Hin |- *.
  rewrite reconcileWorkflow_answer, Ha, Hstart in Hin. cbn in Hin.
  apply list_elem_of_singleton in Hin.
  destruct (ExecuteSteps ext (app w1) steps) as [executed answer] eqn:Hexec.
  cbn in Hin. subst answer.
  by eapply reconcileWorkflow_executing.
Qed.

Lemma Reconcile_requeues_after_backoff_example :
  ∃ err, (Reconcile (executingExternals (5 * Second)%Z) (sampleReconciler false false)
            webRequest (startOfPass ∅)).1
         = Done {| Requeue := false; RequeueAfter := (5 * Second)%Z |} err.
Proof.
  apply (Reconcile_requeues_after_backoff_while_executing
           (executingExternals (5 * Second)%Z) (sampleReconciler false false)
           webRequest (startOfPass ∅) (5 * Second)%Z).
  - reflexivity.
  - reflexivity.
  - discriminate.
  - vm_compute. constructor.
Defined.

(** When the workflow driver answers Skipping the pass returns at once:
    the empty result, no error, and the driver's call is the last call of
    the pass. *)
Theorem Reconcile_returns_at_once_when_skipping
    (ext : Externals) (r : Reconciler) (req : Request) (w : World) :
  workflowAnswers (trace w) = [] →
  inr WorkflowStateSkipping ∈ workflowAnswers (trace (Reconcile ext r req w).2) →
  (Reconcile ext r req w).1 = Done emptyResult None
  ∧ ∃ before,
      trace (Reconcile ext r req w).2
      = before ++ [EExecuteSteps (inr WorkflowStateSkipping)].
Proof.
  intros Hstart Hin.
  destruct (reachesWorkflow_Reconcile ext r req w)
    as [H | (appFile & steps & w1 & Heq & Ha & Hs)].
  { rewrite H, Hstart in Hin. by apply elem_of_nil in Hin. }
  rewrite Heq in Hin |- *.
  rewrite reconcileWorkflow_answer, Ha, Hstart in Hin. cbn in Hin.
  apply list_elem_of_singleton in Hin.
  destruct (ExecuteSteps ext (app w1) steps) as [executed answer] eqn:Hexec.
  cbn in Hin. subst answer.
  destruct (reconcileWorkflow_skipping_trace ext r appFile steps w1 executed Hexec)
    as [Hres Htrace].
  split; [done |]. by exists (trace w1).
Qed.

Lemma Reconcile_returns_at_once_when_skipping_example :
  (Reconcile skippingExternals (sampleReconciler false false) webRequest
     (startOfPass ∅)).1 = Done emptyResult None
  ∧ ∃ before,
      trace (Reconcile skippingExternals (sampleReconciler false false) webRequest
               (startOfPass ∅)).2
      = before ++ [EExecuteSteps (inr WorkflowStateSkipping)].
Proof.
  apply (Reconcile_returns_at_once_when_skipping skippingExternals
           (sampleReconciler false false) webRequest (startOfPass ∅)).
  - reflexivity.
  - vm_compute. constructor.
Defined.

(** [doWorkflowFinish] assigns through [app.Status.Workflow] without a nil
    test and nothing on the way recovers: when the driver answers
    Terminated or Succeeded for an object it leaves without a workflow
    status, and the trace is recorded, the pass panics. *)
Theorem Reconcile_panics_finishing_without_workflow_status
    (ext : Externals) (r : Reconciler) (req : Request) (w : World) :
  workflowAnswers (trace w) = [] →
  inr WorkflowStateTerminated ∈ workflowAnswers (trace (Reconcile ext r req w).2)
  ∨ inr WorkflowStateSucceeded ∈ workflowAnswers (trace (Reconcile ext r req w).2) →
  (∀ a, Trace ext a = None) →
  (∀ a steps, Workflow (Status (ExecuteSteps ext a steps).1) = None) →
  (Reconcile ext r req w).1 = Panic.
Proof.
  intros Hstart Hin Htrace Hwf.
  destruct (reachesWorkflow_Reconcile ext r req w)
    as [H | (appFile & steps & w1 & Heq & Ha & Hs)].
  { rewrite H, Hstart in Hin. destruct Hin as [Hin | Hin]; by apply elem_of_nil in Hin. }
  rewrite Heq in Hin |- *.
  rewrite reconcileWorkflow_answer, Ha, Hstart in Hin. cbn in Hin.
  rewrite !list_elem_of_singleton in Hin.
  pose proof (Hwf (app w1) steps) as Hnone.
  destruct (ExecuteSteps ext (app w1) steps) as [executed answer] eqn:Hexec.
  cbn in Hin, Hnone.
  destruct Hin as [<- | <-];
    eapply reconcileWorkflow_finishing_panics; eauto.
Qed.

Lemma Reconcile_panics_finishing_example :
  (Reconcile finishingExternals (sampleReconciler false false) webRequest
     (startOfPass ∅)).1 = Panic.
Proof.
  apply (Reconcile_panics_finishing_without_workflow_status finishingExternals
           (sampleReconciler false false) webRequest (startOfPass ∅)).
  - reflexivity.
  - right. vm_compute. constructor.
  - reflexivity.
  - reflexivity.
Defined.

(** ** Without the object *)

(** When the object cannot be fetched the pass touches nothing: a missing
    object gives a requeue after the re-sync period without an error, any
    other failure is returned as it is. *)
Theorem Reconcile_without_object
    (ext : Externals) (r : Reconciler) (req : Request) (w : World) :
  (Get ext req = GetNotFound →
     Reconcile ext r req w
     = (Done {| Requeue := false; RequeueAfter := ApplicationReSyncPeriod ext |} None, w))
  ∧ (∀ e, Get ext req = GetFailed e →
       Reconcile ext r req w = (Done emptyResult (Some e), w)).
Proof.
  split.
  - intros H. unfold Reconcile. by rewrite H.
  - intros e H. unfold Reconcile. by rewrite H.
Qed.

(** ** The finalizer on a live object *)

(** On an object that is not being deleted [handleFinalizers] only ever
    adds the guard: afterwards the object has it, the status is untouched,
    at most one update was sent, and the pass goes on unless the guard was
    just added and loop reduction is off. *)
Theorem handleFinalizers_guards_live_object
    (ext : Externals) (r : Reconciler) (w : World) :
  IsZero (DeletionTimestamp (app w)) = true →
  FinalizerExists (app (handleFinalizers ext r w).2) resourceTrackerFinalizer = true
  ∧ (Finalizers (app (handleFinalizers ext r w).2) = Finalizers (app w)
     ∨ Finalizers (app (handleFinalizers ext r w).2)
       = Finalizers (app w) ++ [resourceTrackerFinalizer])
  ∧ Status (app (handleFinalizers ext r w).2) = Status (app w)
  ∧ (trace (handleFinalizers ext r w).2 = trace w
     ∨ trace (handleFinalizers ext r w).2
       = trace w ++ [EUpdate (app (handleFinalizers ext r w).2)])
  ∧ (FinalizerExists (app w) resourceTrackerFinalizer = true →
     handleFinalizers ext r w
     = ((false, {| Requeue := false; RequeueAfter := ApplicationReSyncPeriod ext |}, None), w))
  ∧ (FinalizerExists (app w) resourceTrackerFinalizer = false →
     (handleFinalizers ext r w).1.1.1 = negb (EnableReconcileLoopReduction ext)
     ∧ (handleFinalizers ext r w).1.2
       = Wrap (Update ext (app (handleFinalizers ext r w).2)) errUpdateApplicationFinalizer).
Proof.
  intros Hzero. unfold handleFinalizers, clientUpdate. run. rewrite Hzero.
  destruct (FinalizerExists (app w) resourceTrackerFinalizer) eqn:Hfin; cbn.
  - repeat split; try done; by left.
  - unfold AddFinalizer. rewrite Hfin. cbn.
    assert (FinalizerExists (withFinalizers (app w)
              (Finalizers (app w) ++ [resourceTrackerFinalizer]))
              resourceTrackerFinalizer = true) as Hnow.
    { unfold FinalizerExists. cbn. apply bool_decide_eq_true_2. set_solver. }
    repeat split; try done.
    + by right.
    + by right.
    + apply endWith_ends.
    + unfold endWith. by destruct (ret ext _) as [res err] eqn:Hret;
        unfold ret, result in Hret; cbn in Hret;
        destruct (Update ext _); cbn in Hret; inversion Hret.
Qed.

Lemma handleFinalizers_guards_live_object_example :
  FinalizerExists
    (app (handleFinalizers quietExternals (sampleReconciler false false)
            (sampleWorld unguardedApp)).2) resourceTrackerFinalizer = true.
Proof.
  refine (proj1 (handleFinalizers_guards_live_object quietExternals
                   (sampleReconciler false false) (sampleWorld unguardedApp) _)).
  reflexivity.
Defined.

(** ** What the garbage collection step records *)

Lemma Phase_updateObservedGeneration a :
  Phase (Status (updateObservedGeneration a)) = Phase (Status a).
Proof. unfold updateObservedGeneration. by case_bool_decide. Qed.

Lemma gcResourceTrackers_keeps_phase
    (ext : Externals) (r : Reconciler) (phase : ApplicationPhase) (gcOutdated : bool)
    (w : World) :
  phase ≠ ApplicationRendering →
  Phase (Status (app (gcResourceTrackers ext r phase gcOutdated w).2)) = phase.
Proof.
  intros Hphase. unfold gcResourceTrackers. run.
  rewrite (bool_decide_eq_false_2 _ Hphase).
  destruct (GarbageCollect ext (app w) _) as [[finished waiting] [e|]]; cbn [fst snd].
  - by rewrite endWithNegativeCondition_world, patchStatus_app, Phase_updateObservedGeneration.
  - destruct finished; cbn [negb];
      destruct (patchStatus ext _ _) as [o w1] eqn:P; cbn [snd];
      change w1 with (o, w1).2; rewrite <- P;
      by rewrite patchStatus_app, Phase_updateObservedGeneration.
Qed.

(** [gcResourceTrackers] leaves the object in the phase it was given,
    except that a finished collection in the Rendering phase moves it on to
    RunningWorkflow. *)
Theorem gcResourceTrackers_records_phase
    (ext : Externals) (r : Reconciler) (phase : ApplicationPhase) (gcOutdated : bool)
    (w : World) :
  Phase (Status (app (gcResourceTrackers ext r phase gcOutdated w).2))
  = match GarbageCollect ext (app w) (gcOptions gcOutdated) with
    | (true, _, None) =>
        if bool_decide (phase = ApplicationRendering)
        then ApplicationRunningWorkflow else phase
    | _ => phase
    end.
Proof.
  unfold gcResourceTrackers. run.
  destruct (GarbageCollect ext (app w) _) as [[finished waiting] [e|]]; cbn [fst snd].
  - rewrite endWithNegativeCondition_world, patchStatus_app, Phase_updateObservedGeneration.
    by destruct finished.
  - destruct finished; cbn [negb].
    + case_bool_decide.
      * destruct (updateStatus ext r _ _) as [o w1] eqn:U. cbn [snd].
        change w1 with (o, w1).2. rewrite <- U.
        by rewrite updateStatus_app, Phase_updateObservedGeneration.
      * destruct (patchStatus ext _ _) as [o w1] eqn:P. cbn [snd].
        change w1 with (o, w1).2. rewrite <- P.
        by rewrite patchStatus_app, Phase_updateObservedGeneration.
    + destruct (patchStatus ext _ _) as [o w1] eqn:P. cbn [snd].
      change w1 with (o, w1).2. rewrite <- P.
      by rewrite patchStatus_app, Phase_updateObservedGeneration.
Qed.

(** ** A negative condition always ends in an error *)

(** [endWithNegativeCondition] records the phase, sends exactly one status
    patch, and returns the empty result with an error: the error of the
    patch when the patch was refused, the object-level error of the
    condition otherwise. *)
Theorem endWithNegativeCondition_returns_error
    (ext : Externals) (condition : Condition) (phase : ApplicationPhase) (w : World) :
  (endWithNegativeCondition ext condition phase w).1
  = (emptyResult,
     Some (match StatusPatch ext (app (endWithNegativeCondition ext condition phase w).2) with
           | Some e => WithMessage e "cannot update application status"
           | None => ErrObjectLevel (condType condition) (condMessage condition)
           end))
  ∧ Phase (Status (app (endWithNegativeCondition ext condition phase w).2)) = phase
  ∧ trace (endWithNegativeCondition ext condition phase w).2
    = trace w ++ [EStatusPatch (app (endWithNegativeCondition ext condition phase w).2)].
Proof.
  split; [| split].
  - rewrite endWithNegativeCondition_world. unfold endWithNegativeCondition. run.
    match goal with |- context [patchStatus ext phase ?w0] =>
      pose proof (patchStatus_result ext phase w0) as Hres;
      destruct (patchStatus ext phase w0) as [o w1] end.
    cbn in *. rewrite <- Hres. by destruct o.
  - by rewrite endWithNegativeCondition_world, patchStatus_app, Phase_updateObservedGeneration.
  - by rewrite endWithNegativeCondition_world, patchStatus_trace.
Qed.


(** ** What the update filter lets through *)

(** What is suppressed is equal after normalizing. *)
Lemma UpdateFunc_false_normalized (old new : Application) :
  UpdateFunc {| ObjectOld := ObjApplication old; ObjectNew := ObjApplication new |} = false →
  normalizeVolatile old new = old.
Proof.
  unfold UpdateFunc, DeepEqual. cbn [ObjectNew ObjectOld].
  fold (normalizeVolatile old new).
  case_bool_decide as Heq; [done |]. case_bool_decide as Hgen; [done |].
  by rewrite negb_false_iff, bool_decide_eq_true.
Qed.

Lemma normalizeVolatile_lasting (old new : Application) :
  Name (normalizeVolatile old new) = Name new
  ∧ Namespace (normalizeVolatile old new) = Namespace new
  ∧ DeletionTimestamp (normalizeVolatile old new) = DeletionTimestamp new
  ∧ Finalizers (normalizeVolatile old new) = Finalizers new
  ∧ Annotations (normalizeVolatile old new) = Annotations new
  ∧ Spec (normalizeVolatile old new) = Spec new
  ∧ Phase (Status (normalizeVolatile old new)) = Phase (Status new)
  ∧ ObservedGeneration (Status (normalizeVolatile old new)) = ObservedGeneration (Status new)
  ∧ Conditions (Status (normalizeVolatile old new)) = Conditions (Status new)
  ∧ LatestRevision (Status (normalizeVolatile old new)) = LatestRevision (Status new).
Proof.
  unfold normalizeVolatile, ignoreWorkflowChanges, ignoreManagedFields. cbn.
  by destruct (Workflow (Status old)), (Workflow (Status new)).
Qed.

(** A change of the name, the namespace, the deletion timestamp, the
    finalizers, the annotations, the spec, the phase, the observed
    generation, the conditions or the latest revision is always let
    through. *)
Theorem UpdateFunc_passes_lasting_changes (old new : Application) :
  Name old ≠ Name new ∨ Namespace old ≠ Namespace new
  ∨ DeletionTimestamp old ≠ DeletionTimestamp new
  ∨ Finalizers old ≠ Finalizers new
  ∨ Annotations old ≠ Annotations new
  ∨ Spec old ≠ Spec new
  ∨ Phase (Status old) ≠ Phase (Status new)
  ∨ ObservedGeneration (Status old) ≠ ObservedGeneration (Status new)
  ∨ Conditions (Status old) ≠ Conditions (Status new)
  ∨ LatestRevision (Status old) ≠ LatestRevision (Status new) →
  UpdateFunc {| ObjectOld := ObjApplication old; ObjectNew := ObjApplication new |} = true.
Proof.
  intros Hdiff. apply not_false_iff_true. intros Hfalse.
  apply UpdateFunc_false_normalized in Hfalse as Hnorm.
  destruct (normalizeVolatile_lasting old new)
    as (H1 & H2 & H3 & H4 & H5 & H6 & H7 & H8 & H9 & H10).
  rewrite Hnorm in *. naive_solver.
Qed.

Lemma UpdateFunc_passes_lasting_changes_example :
  UpdateFunc {| ObjectOld := ObjApplication editedApp;
                ObjectNew := ObjApplication unguardedApp |} = true.
Proof.
  apply (UpdateFunc_passes_lasting_changes editedApp unguardedApp).
  right. right. right. left. discriminate.
Defined.

(** A notification in which only the managed fields changed is suppressed. *)
Theorem UpdateFunc_suppresses_managed_fields_change (old : Application) (fields : list string) :
  fields ≠ ManagedFields old →
  UpdateFunc {| ObjectOld := ObjApplication old;
                ObjectNew := ObjApplication (withManagedFields old fields) |} = false.
Proof.
  intros Hne. unfold UpdateFunc, DeepEqual. cbn [ObjectNew ObjectOld].
  rewrite bool_decide_eq_false_2.
  2: { intros H. apply (f_equal ManagedFields) in H. by cbn in H. }
  rewrite bool_decide_eq_false_2 by (cbn; by intros H).
  rewrite negb_false_iff, bool_decide_eq_true.
  unfold ignoreWorkflowChanges, ignoreManagedFields. cbn.
  destruct old as [? ? ? ? ? ? ? ? ? [? ? ? ? ? [[]|] ?]]; reflexivity.
Qed.

Lemma UpdateFunc_suppresses_managed_fields_change_example :
  UpdateFunc {| ObjectOld := ObjApplication editedApp;
                ObjectNew := ObjApplication
                  (withManagedFields editedApp ["kubectl"; "vela-core"]) |} = false.
Proof.
  apply (UpdateFunc_suppresses_managed_fields_change editedApp ["kubectl"; "vela-core"]).
  discriminate.
Defined.

(** The resource version is only ignored between two objects that both
    carry a workflow status: when either has none, a change of the resource
    version is let through. *)
Theorem UpdateFunc_passes_resource_version_without_workflow (old new : Application) :
  Workflow (Status old) = None ∨ Workflow (Status new) = None →
  ResourceVersion old ≠ ResourceVersion new →
  UpdateFunc {| ObjectOld := ObjApplication old; ObjectNew := ObjApplication new |} = true.
Proof.
  intros Hwf Hrv. apply not_false_iff_true. intros Hfalse.
  apply UpdateFunc_false_normalized in Hfalse as Hnorm.
  apply Hrv. rewrite <- Hnorm at 1.
  unfold normalizeVolatile, ignoreWorkflowChanges, ignoreManagedFields. cbn.
  destruct Hwf as [-> | ->]; [done |]. by destruct (Workflow (Status old)).
Qed.

Lemma UpdateFunc_passes_resource_version_example :
  UpdateFunc {| ObjectOld := ObjApplication editedApp;
                ObjectNew := ObjApplication (withResourceVersion editedApp "42") |} = true.
Proof.
  apply (UpdateFunc_passes_resource_version_without_workflow editedApp
           (withResourceVersion editedApp "42")).
  - by left.
  - discriminate.
Defined.

(** ** Tracker notifications *)

(** An update of a resource tracker that replaces nothing but the managed
    fields and the resource version is suppressed; and whatever is
    suppressed has the name, the labels, the deletion timestamp and the
    managed resources of the old tracker. *)
Theorem filterManagedFieldChangesUpdate_ignores_bookkeeping (old new : ResourceTracker) :
  (∀ managedFields resourceVersion,
     filterManagedFieldChangesUpdate
       {| ObjectOld := ObjResourceTracker old;
          ObjectNew := ObjResourceTracker (withBookkeeping old managedFields resourceVersion) |}
     = false)
  ∧ (filterManagedFieldChangesUpdate
       {| ObjectOld := ObjResourceTracker old; ObjectNew := ObjResourceTracker new |} = false →
     rtName new = rtName old ∧ rtLabels new = rtLabels old
     ∧ rtDeletionTimestamp new = rtDeletionTimestamp old
     ∧ rtManagedResources new = rtManagedResources old).
Proof.
  unfold filterManagedFieldChangesUpdate, DeepEqual. cbn. split.
  - intros managedFields resourceVersion.
    rewrite negb_false_iff, bool_decide_eq_true. by destruct old.
  - rewrite negb_false_iff, bool_decide_eq_true. intros <-. by cbn.
Qed.

(** A resource tracker that carries both labels, and is being deleted when
    only deletions trigger, adds exactly the request for its application
    at the end of the queue. *)
Theorem handleResourceTracker_enqueues_labelled_tracker
    (ext : Externals) (rt : ResourceTracker) (queue : list Request) :
  labelOf rt LabelAppName ≠ EmptyString →
  labelOf rt LabelAppNamespace ≠ EmptyString →
  EnableResourceTrackerDeleteOnlyTrigger ext = false ∨ rtDeletionTimestamp rt ≠ None →
  handleResourceTracker ext (ObjResourceTracker rt) queue
  = queue ++ [{| reqNamespace := labelOf rt LabelAppNamespace;
                 reqName := labelOf rt LabelAppName |}].
Proof.
  intros Hname Hns Htrigger. cbn.
  assert (EnableResourceTrackerDeleteOnlyTrigger ext
          && bool_decide (rtDeletionTimestamp rt = None) = false) as ->.
  { destruct Htrigger as [-> | H]; [done |]. rewrite (bool_decide_eq_false_2 _ H).
    apply andb_false_r. }
  unfold labelOf in *. destruct (rtLabels rt) as [labels|]; cbn in *; [| done].
  by rewrite !bool_decide_eq_true_2.
Qed.

Lemma handleResourceTracker_enqueues_labelled_tracker_example :
  handleResourceTracker quietExternals (ObjResourceTracker deletedTracker) [] = [webRequest].
Proof.
  apply (handleResourceTracker_enqueues_labelled_tracker quietExternals deletedTracker []).
  - discriminate.
  - discriminate.
  - right. discriminate.
Defined.

(** ** The phase a pass ends in after the workflow *)

Lemma forallb_false {A} (f : A → bool) (l : list A) :
  forallb f l = false ↔ ∃ x, x ∈ l ∧ f x = false.
Proof.
  induction l as [| y l IH]; cbn.
  - split; [done | intros (x & Hx & _); by apply elem_of_nil in Hx].
  - rewrite andb_false_iff, IH. split.
    + intros [Hy | (x & Hx & Hf)]; [exists y | exists x]; split; try done; set_solver.
    + intros (x & Hx & Hf). apply elem_of_cons in Hx as [-> | Hx]; [by left |].
      right. by exists x.
Qed.

Lemma isHealthy_false services :
  isHealthy services = false
  ↔ ∃ service, service ∈ services
      ∧ (svcHealthy service = false
         ∨ ∃ tr, tr ∈ svcTraits service ∧ traitHealthy tr = false).
Proof.
  unfold isHealthy. rewrite forallb_false. split.
  - intros (service & Hin & Hbad). exists service. split; [done |].
    apply andb_false_iff in Hbad as [Hbad | Hbad]; [by left | right].
    by apply forallb_false.
  - intros (service & Hin & Hbad). exists service. split; [done |].
    apply andb_false_iff. destruct Hbad as [Hbad | Hbad]; [by left | right].
    by apply forallb_false.
Qed.

Lemma reconcileTail_phase_eq (ext : Externals) (r : Reconciler) (appFile : AppFile)
    (services : list ApplicationComponentStatus) (w : World) :
  Phase (Status (app (reconcileTail ext r appFile services w).2))
  = if negb (hasHealthCheckPolicy (PolicyWorkloads appFile)) && negb (isHealthy services)
    then ApplicationUnhealthy else ApplicationRunning.
Proof.
  unfold reconcileTail. run.
  set (phase := if negb (hasHealthCheckPolicy (PolicyWorkloads appFile)) && negb (isHealthy services)
                then ApplicationUnhealthy else ApplicationRunning).
  assert (phase = ApplicationUnhealthy ∨ phase = ApplicationRunning) as Hphase.
  { unfold phase. destruct (_ && _); auto. }
  assert (∀ w0, Phase (Status (app (gcResourceTrackers ext r phase true w0).2)) = phase) as Hgc.
  { intros w0. apply gcResourceTrackers_keeps_phase. destruct Hphase; congruence. }
  assert (∀ c w0, Phase (Status (app (endWithNegativeCondition ext c phase w0).2)) = phase) as Hneg.
  { intros c w0. by rewrite endWithNegativeCondition_world, patchStatus_app,
      Phase_updateObservedGeneration. }
  destruct (hasHealthCheckPolicy (PolicyWorkloads appFile)); cbn [negb andb] in *.
  - destruct (StateKeep ext _); cbn [fst snd app];
      (destruct (garbageCollection ext _); cbn [fst snd app];
       [destruct (endWithNegativeCondition ext _ _ _) as [o w1] eqn:E; cbn [snd];
        change w1 with (o, w1).2; rewrite <- E; apply Hneg
       |destruct (gcResourceTrackers ext r _ _ _) as [o w1] eqn:E; cbn [snd];
        change w1 with (o, w1).2; rewrite <- E; apply Hgc]).
  - destruct (isHealthy services); cbn [negb] in *;
      (destruct (StateKeep ext _); cbn [fst snd app];
       (destruct (garbageCollection ext _); cbn [fst snd app];
        [destruct (endWithNegativeCondition ext _ _ _) as [o w1] eqn:E; cbn [snd];
         change w1 with (o, w1).2; rewrite <- E; apply Hneg
        |destruct (gcResourceTrackers ext r _ _ _) as [o w1] eqn:E; cbn [snd];
         change w1 with (o, w1).2; rewrite <- E; apply Hgc])).
Qed.

(** The end of a pass leaves the object Unhealthy exactly when no policy
    manages the health check and some component, or some trait of a
    component, is not healthy; it leaves it Running otherwise, whatever
    state-keep and garbage collection answer. *)
Theorem reconcileTail_phase (ext : Externals) (r : Reconciler) (appFile : AppFile)
    (services : list ApplicationComponentStatus) (w : World) :
  (Phase (Status (app (reconcileTail ext r appFile services w).2)) = ApplicationUnhealthy
   ∨ Phase (Status (app (reconcileTail ext r appFile services w).2)) = ApplicationRunning)
  ∧ (Phase (Status (app (reconcileTail ext r appFile services w).2)) = ApplicationUnhealthy
     ↔ hasHealthCheckPolicy (PolicyWorkloads appFile) = false
       ∧ ∃ service, service ∈ services
           ∧ (svcHealthy service = false
              ∨ ∃ tr, tr ∈ svcTraits service ∧ traitHealthy tr = false)).
Proof.
  rewrite reconcileTail_phase_eq, <- isHealthy_false.
  destruct (hasHealthCheckPolicy (PolicyWorkloads appFile)), (isHealthy services);
    cbn; naive_solver.
Qed.

(** ** A pass that is not skipped

    [grows], [calls] and [engages] follow the text of the pass in the same
    way. *)

Lemma grows_ret {A} (a : A) : grows (mret a).
Proof. intros w. exists []. cbn. by rewrite app_nil_r. Qed.

Lemma grows_getApp : grows getApp.
Proof. intros w. exists []. cbn. by rewrite app_nil_r. Qed.

Lemma grows_modifyApp f : grows (modifyApp f).
Proof. intros w. exists []. cbn. by rewrite app_nil_r. Qed.

Lemma grows_cacheStore k v : grows (cacheStore k v).
Proof. intros w. exists []. cbn. by rewrite app_nil_r. Qed.

Lemma grows_DeleteInMemoryContext n : grows (DeleteInMemoryContext n).
Proof. intros w. exists []. cbn. by rewrite app_nil_r. Qed.

Lemma calls_emit e : calls (emit e).
Proof. intros w. by exists e, []. Qed.

Lemma calls_grows {A} (m : M A) : calls m → grows m.
Proof. intros H w. destruct (H w) as (e & t & Ht). by exists (e :: t). Qed.

Lemma grows_bind {A B} (m : M A) (k : A → M B) :
  grows m → (∀ a, grows (k a)) → grows (m ≫= k).
Proof.
  intros Hm Hk w. unfold mbind, M_bind. destruct (Hm w) as [t Ht].
  destruct (m w) as [a w1]. cbn in *. destruct (Hk a w1) as [t' Ht'].
  exists (t ++ t'). by rewrite Ht', Ht, app_assoc.
Qed.

Lemma grows_fmap {A B} (f : A → B) (m : M A) : grows m → grows (f <$> m).
Proof.
  intros Hm w. unfold fmap, M_fmap. destruct (Hm w) as [t Ht].
  destruct (m w). by exists t.
Qed.

Lemma calls_bind_l {A B} (m : M A) (k : A → M B) :
  calls m → (∀ a, grows (k a)) → calls (m ≫= k).
Proof.
  intros Hm Hk w. unfold mbind, M_bind. destruct (Hm w) as (e & t & Ht).
  destruct (m w) as [a w1]. cbn in *. destruct (Hk a w1) as [t' Ht'].
  exists e, (t ++ t'). by rewrite Ht', Ht, <- app_assoc.
Qed.

Lemma calls_after (t0 t : list Effect) e t' :
  ∃ e' t'', (t0 ++ t) ++ e :: t' = t0 ++ e' :: t''.
Proof.
  destruct t as [| x t].
  - exists e, t'. by rewrite app_nil_r.
  - exists x, (t ++ e :: t'). by rewrite <- app_assoc.
Qed.

Lemma calls_bind_r {A B} (m : M A) (k : A → M B) :
  grows m → (∀ a, calls (k a)) → calls (m ≫= k).
Proof.
  intros Hm Hk w. unfold mbind, M_bind. destruct (Hm w) as [t Ht].
  destruct (m w) as [a w1]. cbn in *. destruct (Hk a w1) as (e & t' & Ht').
  rewrite Ht', Ht. apply calls_after.
Qed.

Lemma calls_fmap {A B} (f : A → B) (m : M A) : calls m → calls (f <$> m).
Proof.
  intros Hm w. unfold fmap, M_fmap. destruct (Hm w) as (e & t & Ht).
  destruct (m w). by exists e, t.
Qed.

Lemma engages_calls (m : M Outcome) : calls m → engages m.
Proof. intros H w. left. apply H. Qed.

Lemma engages_bind {A} (m : M A) (k : A → M Outcome) :
  grows m → (∀ a, engages (k a)) → engages (m ≫= k).
Proof.
  intros Hm Hk w. unfold engaged, mbind, M_bind. destruct (Hm w) as [t Ht].
  destruct (m w) as [a w1]. cbn in *.
  destruct (Hk a w1) as [(e & t' & Ht') | Herr]; [left | by right].
  rewrite Ht', Ht. apply calls_after.
Qed.

Ltac grows_step :=
  first
  [ known
  | lazymatch goal with
    | |- grows (mret _) => apply grows_ret
    | |- grows getApp => apply grows_getApp
    | |- grows (modifyApp _) => apply grows_modifyApp
    | |- grows (cacheStore _ _) => apply grows_cacheStore
    | |- grows (DeleteInMemoryContext _) => apply grows_DeleteInMemoryContext
    | |- grows (emit _) => apply calls_grows, calls_emit
    | |- grows (fmap _ _) => apply grows_fmap
    | |- grows (mbind _ _) => apply grows_bind; [| intros ?]
    | |- grows (match ?x with _ => _ end) => destruct x
    | |- grows ((fun _ => _) _) => cbv beta
    end ].

(** A call: the bind whose first part is the call, or a later one. *)
Ltac calls_step :=
  first
  [ known
  | lazymatch goal with
    | |- calls (emit _) => apply calls_emit
    | |- calls (fmap _ _) => apply calls_fmap
    | |- calls (mbind _ (emit _)) =>
        apply calls_bind_l; [apply calls_emit | intros ?; solve [repeat grows_step]]
    | |- calls (mbind _ _) =>
        first [ apply calls_bind_l; [known | intros ?; solve [repeat grows_step]]
              | apply calls_bind_r; [solve [repeat grows_step] | intros ?] ]
    | |- calls (match ?x with _ => _ end) => destruct x
    | |- calls ((fun _ => _) _) => cbv beta
    end ].

Ltac engages_step :=
  first
  [ known
  | apply engages_calls; solve [repeat calls_step]
  | lazymatch goal with
    | |- engages (mbind _ _) =>
        apply engages_bind; [solve [repeat grows_step] | intros ?]
    | |- engages (match ?x with _ => _ end) => destruct x
    | |- engages ((fun _ => _) _) => cbv beta
    end ].

Section Engaged.

Variable ext : Externals.
Variable r : Reconciler.

Lemma calls_patchStatus phase : calls (patchStatus ext phase).
Proof. unfold patchStatus. repeat calls_step. Qed.

Hint Resolve calls_patchStatus : pass.

Lemma grows_patchStatus phase : grows (patchStatus ext phase).
Proof. apply calls_grows, calls_patchStatus. Qed.

Lemma grows_updateStatus phase : grows (updateStatus ext r phase).
Proof. unfold updateStatus. repeat grows_step. Qed.

Hint Resolve grows_patchStatus grows_updateStatus : pass.

Lemma calls_endWithNegativeCondition c phase :
  calls (endWithNegativeCondition ext c phase).
Proof. unfold endWithNegativeCondition. repeat calls_step. Qed.

Hint Resolve calls_endWithNegativeCondition : pass.

Lemma grows_endWithNegativeCondition c phase :
  grows (endWithNegativeCondition ext c phase).
Proof. apply calls_grows, calls_endWithNegativeCondition. Qed.

Hint Resolve grows_endWithNegativeCondition : pass.

Lemma calls_gcResourceTrackers phase o : calls (gcResourceTrackers ext r phase o).
Proof. unfold gcResourceTrackers. repeat calls_step. Qed.

Lemma calls_clientUpdate : calls (clientUpdate ext).
Proof. unfold clientUpdate. repeat calls_step. Qed.

Hint Resolve calls_gcResourceTrackers calls_clientUpdate : pass.

Lemma grows_gcResourceTrackers phase o : grows (gcResourceTrackers ext r phase o).
Proof. apply calls_grows, calls_gcResourceTrackers. Qed.

Lemma grows_callHandler f : grows (callHandler f).
Proof. unfold callHandler. repeat grows_step. Qed.

Lemma grows_doWorkflowFinish : grows (doWorkflowFinish ext).
Proof. unfold doWorkflowFinish. repeat grows_step. Qed.

Hint Resolve grows_gcResourceTrackers grows_callHandler grows_doWorkflowFinish : pass.

Lemma grows_reconcileTail appFile services : grows (reconcileTail ext r appFile services).
Proof. unfold reconcileTail. repeat grows_step. Qed.

Hint Resolve grows_reconcileTail : pass.

Lemma calls_reconcileWorkflow appFile steps : calls (reconcileWorkflow ext r appFile steps).
Proof. unfold reconcileWorkflow. repeat calls_step. Qed.

Hint Resolve calls_reconcileWorkflow : pass.

Lemma engages_reconcileRender : engages (reconcileRender ext r).
Proof. unfold reconcileRender. repeat engages_step. Qed.

(** [handleFinalizers] makes a call, or lets the pass go on, or returns
    an error. *)
Lemma handleFinalizers_engaged w :
  (∃ e t, trace (handleFinalizers ext r w).2 = trace w ++ e :: t)
  ∨ (trace (handleFinalizers ext r w).2 = trace w
     ∧ ((handleFinalizers ext r w).1.1.1 = false
        ∨ ∃ err, (handleFinalizers ext r w).1.2 = Some err)).
Proof.
  unfold handleFinalizers, clientUpdate. run.
  destruct (IsZero (DeletionTimestamp (app w))).
  - destruct (FinalizerExists (app w) resourceTrackerFinalizer); cbn.
    + right. split; [done |]. left. apply endWith_ends.
    + left. by eexists _, [].
  - destruct (FinalizerExists (app w) resourceTrackerFinalizer); cbn;
      [| right; split; [done |]; left; apply endWith_ends].
    destruct (ListApplicationResourceTrackers ext (app w)) as [err | trackers]; cbn.
    { right. split; [done |]. right. by exists err. }
    left. destruct (calls_gcResourceTrackers ApplicationDeleting true w) as (e & t & Ht).
    destruct (gcResourceTrackers ext r ApplicationDeleting true w) as [[res err] w1].
    cbn in Ht. destruct err; cbn; [by exists e, t |].
    destruct (noTrackers trackers); cbn.
    + exists e, (t ++ [EUpdate (RemoveFinalizer (app w1) resourceTrackerFinalizer)]).
      by rewrite Ht, <- app_assoc.
    + destruct (EnableInMemoryContext ext); cbn; by exists e, t.
Qed.

Lemma engages_Reconcile_matched (req : Request) (fetched : Application) :
  Get ext req = GetFound fetched →
  matchControllerRequirement r fetched = true →
  engages (Reconcile ext r req).
Proof.
  intros Hget Hmatch. unfold Reconcile. rewrite Hget, Hmatch. cbn [negb].
  apply engages_bind; [repeat grows_step | intros _].
  apply engages_bind; [repeat grows_step | intros _].
  apply engages_bind; [repeat grows_step | intros a].
  destruct (NewAppHandler ext a); [repeat engages_step |].
  intros w. unfold engaged, mbind, M_bind.
  pose proof (handleFinalizers_engaged w) as Hf.
  destruct (handleFinalizers ext r w) as [[[endReconcile res] err] w0]. cbn in Hf.
  unfold getApp. cbn [fst snd].
  destruct err as [e|].
  - destruct (DeletionTimestamp (app w0)); [right; by eexists _, _ |].
    left. destruct (calls_fmap done _ (calls_endWithNegativeCondition
                      (ReconcileError (Now ext) e) ApplicationStarting) w0) as (x & t & Ht).
    destruct Hf as [(x0 & t0 & Ht0) | [Ht0 _]]; rewrite Ht, Ht0.
    + apply (calls_after (trace w) (x0 :: t0)).
    + by exists x, t.
  - destruct endReconcile.
    + destruct Hf as [Hf | [_ [[=] | [? [=]]]]]. by left.
    + destruct (engages_reconcileRender w0) as [(x & t & Ht) | Herr]; [left | by right].
      destruct Hf as [(x0 & t0 & Ht0) | [Ht0 _]]; rewrite Ht, Ht0.
      * apply (calls_after (trace w) (x0 :: t0)).
      * by exists x, t.
Qed.

End Engaged.

(** ** C6: skipped on a failed match, and only then *)

(** C6, amended. For a fetched application: a required controller version
    that is present and differs from the controller's own fails the match;
    an application that demands none fails it exactly when the reconciler
    ignores applications without a requirement. Whenever the match fails
    the pass is skipped: it returns an empty result and no error, having
    made no call (so no status write) and left the step cache alone. And
    whenever the match holds the pass is not skipped: it goes on to make
    a call (an update, a status write, a garbage collection, the workflow
    driver) or to return an error. *)
Theorem Reconcile_skips_unmatched_controller_requirement
    (ext : Externals) (r : Reconciler) (req : Request) (fetched : Application) (w : World) :
  Get ext req = GetFound fetched →
  (∀ annotations requireVersion,
     Annotations fetched = Some annotations →
     annotations !! AnnotationControllerRequirement = Some requireVersion →
     requireVersion ≠ controllerVersion r →
     matchControllerRequirement r fetched = false)
  ∧ ((∀ annotations, Annotations fetched = Some annotations →
        annotations !! AnnotationControllerRequirement = None) →
     matchControllerRequirement r fetched = negb (ignoreAppNoCtrlReq r))
  ∧ (matchControllerRequirement r fetched = false →
     (Reconcile ext r req w).1 = Done emptyResult None
     ∧ trace (Reconcile ext r req w).2 = trace w
     ∧ StepStatusCache (Reconcile ext r req w).2 = StepStatusCache w
     ∧ app (Reconcile ext r req w).2 = fetched)
  ∧ (matchControllerRequirement r fetched = true →
     (∃ e t, trace (Reconcile ext r req w).2 = trace w ++ e :: t)
     ∨ ∃ res err, (Reconcile ext r req w).1 = Done res (Some err)).
Proof.
  intros Hget.
  destruct (Reconcile_skip_on_failed_match ext r req fetched w Hget)
    as (Hdiffers & Hnone & Hskip).
  split; [exact Hdiffers |]. split; [exact Hnone |]. split; [exact Hskip |].
  intros Hmatch. exact (engages_Reconcile_matched ext r req fetched Hget Hmatch w).
Qed.

(** An application pinned to another controller version is skipped; the
    same reconciler goes on with one that demands none. *)
Lemma Reconcile_skips_pinned_app_example :
  ((Reconcile pinnedExternals (sampleReconciler false false) webRequest (startOfPass ∅)).1
   = Done emptyResult None
   ∧ trace (Reconcile pinnedExternals (sampleReconciler false false) webRequest
              (startOfPass ∅)).2 = [])
  ∧ ((∃ e t, trace (Reconcile quietExternals (sampleReconciler false false) webRequest
                      (startOfPass ∅)).2 = trace (startOfPass ∅) ++ e :: t)
     ∨ ∃ res err, (Reconcile quietExternals (sampleReconciler false false) webRequest
                     (startOfPass ∅)).1 = Done res (Some err)).
Proof.
  split.
  - destruct (Reconcile_skips_unmatched_controller_requirement pinnedExternals
                (sampleReconciler false false) webRequest pinnedApp (startOfPass ∅) eq_refl)
      as (_ & _ & Hskip & _).
    destruct (Hskip eq_refl) as (Hres & Htrace & _). by split.
  - destruct (Reconcile_skips_unmatched_controller_requirement quietExternals
                (sampleReconciler false false) webRequest editedApp (startOfPass ∅) eq_refl)
      as (_ & _ & _ & Hgoes).
    exact (Hgoes eq_refl).
Defined.

End PassFacts.

(** * Storage items: what is written is what is read *)

Module StoreFacts.
Import Trait TraitFacts.

Lemma find_split {A} (f : A → bool) (l : list A) (x : A) :
  List.find f l = Some x →
  ∃ before after, l = before ++ x :: after
    ∧ Forall (λ y, f y = false) before ∧ f x = true.
Proof.
  induction l as [| y l IH]; cbn; [done |].
  destruct (f y) eqn:Hy.
  - intros [= ->]. by exists [], l.
  - intros H. destruct (IH H) as (before & after & -> & Hb & Hx).
    exists (y :: before), after. repeat split; [| done]. by constructor.
Qed.

Lemma find_first {A} (f : A → bool) (before after : list A) (x : A) :
  Forall (λ y, f y = false) before → f x = true →
  List.find f (before ++ x :: after) = Some x.
Proof.
  induction 1 as [| y before Hy _ IH]; cbn; intros Hx; [by rewrite Hx |].
  rewrite Hy. by apply IH.
Qed.

Lemma writeTraits_first write before trait after :
  Forall (λ t, isStorage t = false) before → isStorage trait = true →
  writeTraits write (before ++ trait :: after)
  = match write trait with
    | WriteRefused err => Returned (inl err)
    | WriteDone trait' => Returned (inr (before ++ trait' :: after, trait'))
    | WritePanicked => Panicked
    end.
Proof.
  induction 1 as [| t before Ht _ IH]; cbn; intros Hs.
  - rewrite Hs. by destruct (write trait).
  - rewrite Ht, (IH Hs). by destruct (write trait).
Qed.

Lemma writeTraits_none write traits :
  List.find isStorage traits = None →
  writeTraits write traits = Returned (inl ErrStorageTraitNotExists).
Proof.
  induction traits as [| t rest IH]; cbn; [done |].
  destruct (isStorage t); [done |]. intros H. by rewrite (IH H).
Qed.

Lemma updateItems_written updateReq before entry data after :
  Forall (otherEntry (reqMountPath updateReq)) before →
  entry !! KeyMountPath = Some (JString (reqMountPath updateReq)) →
  entry !! KeyData = Some (JObject data) →
  is_Some (data !! reqDataKey updateReq) →
  updateItems (before ++ JObject entry :: after) updateReq
  = UpdateWritten
      (before ++
       JObject (<[KeyData := JObject (<[reqDataKey updateReq := JString (reqDataValue updateReq)]> data)]> entry)
       :: after).
Proof.
  intros Hbefore Hmount Hdata [v Hkey].
  induction Hbefore as [| item before (fields & -> & [m Hm] & Hne) _ IH];
    cbn [updateItems app].
  - by rewrite Hmount, equalsString_same, Hdata, Hkey.
  - rewrite Hm in *. by rewrite Hne, IH.
Qed.

Lemma deleteItems_written itemOptions before entry data after :
  Forall (otherEntry (optMountPath itemOptions)) before →
  entry !! KeyMountPath = Some (JString (optMountPath itemOptions)) →
  entry !! KeyData = Some (JObject data) →
  is_Some (data !! optDataKey itemOptions) →
  deleteItems (before ++ JObject entry :: after) itemOptions
  = UpdateWritten
      (before ++
       (if bool_decide (size (delete (optDataKey itemOptions) data) = 0)
        then JArray after
        else JObject (<[KeyData := JObject (delete (optDataKey itemOptions) data)]> entry))
       :: after).
Proof.
  intros Hbefore Hmount Hdata [v Hkey].
  induction Hbefore as [| item items (fields & -> & [m Hm] & Hne) _ IH];
    cbn [deleteItems app].
  - rewrite Hmount, equalsString_same, Hdata, Hkey. by case_bool_decide.
  - rewrite Hm in *. by rewrite Hne, IH.
Qed.

Lemma updateItems_missing_key updateReq before entry data after :
  Forall (otherEntry (reqMountPath updateReq)) before →
  entry !! KeyMountPath = Some (JString (reqMountPath updateReq)) →
  entry !! KeyData = Some (JObject data) →
  data !! reqDataKey updateReq = None →
  updateItems (before ++ JObject entry :: after) updateReq
  = UpdateRefused ErrStorageDataNotExists.
Proof.
  intros Hbefore Hmount Hdata Hkey.
  induction Hbefore as [| item before (fields & -> & [m Hm] & Hne) _ IH];
    cbn [updateItems app].
  - by rewrite Hmount, equalsString_same, Hdata, Hkey.
  - rewrite Hm in *. by rewrite Hne, IH.
Qed.

Lemma detailItems_found mountPath before entry data after itemData :
  Forall (otherEntry mountPath) before →
  Forall (otherEntry mountPath) after →
  entry !! KeyMountPath = Some (JString mountPath) →
  entry !! KeyData = Some (JObject data) →
  detailItems (before ++ JObject entry :: after) mountPath itemData
  = Returned (inr (Some data)).
Proof.
  intros Hbefore Hafter Hmount Hdata.
  rewrite detailItems_other_prefix by done. cbn [detailItems].
  by rewrite Hmount, equalsString_same, Hdata, detailItems_others.
Qed.

Lemma dsGet_dsPut ds comp appPrimaryKey name :
  putError ds = None → keyedAs appPrimaryKey name comp →
  dsPut ds comp
  = (None, {| records := <[(appPrimaryKey, name) := comp]> (records ds); putError := None |})
  ∧ dsGet (dsPut ds comp).2 appPrimaryKey name = inr comp.
Proof.
  intros Hput [Hk Hn]. unfold dsPut, dsGet. rewrite Hput, Hk, Hn. cbn.
  by rewrite lookup_insert_eq.
Qed.




(** Unless they return a trait, the writes that walk the maps store nothing. *)
Theorem map_walking_writes_store_only_on_success
    (now : Z) (ds : DataStore) (appPrimaryKey componentName : string)
    (updateReq : StorageItemRequest) (itemOptions : StorageItemOptions) :
  ((UpdateComponentStorageItem now ds appPrimaryKey componentName updateReq).1.1 = None →
   (UpdateComponentStorageItem now ds appPrimaryKey componentName updateReq).2 = ds)
  ∧ ((DeleteComponentStorageItem now ds appPrimaryKey componentName itemOptions).1.1 = None →
     (DeleteComponentStorageItem now ds appPrimaryKey componentName itemOptions).2 = ds).
Proof.
  unfold UpdateComponentStorageItem, DeleteComponentStorageItem, putWritten, dsPut.
  split; destruct (dsGet ds _ _) as [e | comp]; try done;
    destruct (writeTraits _ _) as [[e | [traits trait]] |]; try done;
    by destruct (putError ds).
Qed.

Lemma isStorage_withProperties trait p : isStorage (withProperties trait p) = isStorage trait.
Proof. done. Qed.

Lemma KeyData_ne_KeyMountPath : KeyData ≠ KeyMountPath.
Proof. discriminate. Qed.

Section Entry.

Variables (now : Z) (ds : DataStore) (appPrimaryKey componentName : string).
Variables (comp : ApplicationComponent) (trait : ApplicationTrait).
Variables (properties : JSONStruct) (before after : list JSON) (entry data : JSONStruct).
Variables (type mountPath : string).

Hypothesis Hget : dsGet ds appPrimaryKey componentName = inr comp.
Hypothesis Hkeyed : keyedAs appPrimaryKey componentName comp.
Hypothesis Hput : putError ds = None.
Hypothesis Htrait : storageTraitOf comp = Some trait.
Hypothesis Hprops : traitProperties trait = Some properties.
Hypothesis Htype : properties !! type = Some (JArray (before ++ JObject entry :: after)).
Hypothesis Hbefore : Forall (otherEntry mountPath) before.
Hypothesis Hmount : entry !! KeyMountPath = Some (JString mountPath).
Hypothesis Hdata : entry !! KeyData = Some (JObject data).

(** Reading before the write. *)
Lemma detail_before itemOptions :
  DetailComponentStorageItem ds appPrimaryKey componentName itemOptions
  = recovered (None, None)
      (detailStorageTrait appPrimaryKey (compName comp) trait itemOptions).
Proof.
  unfold DetailComponentStorageItem, storageTraitOf in *.
  by rewrite Hget, detailTraits_storageTraitOf, Htrait.
Qed.

(** A write of the first storage trait, stored, and read again. *)
Lemma write_stored loop items' :
  loop (before ++ JObject entry :: after) = UpdateWritten items' →
  ∃ traits',
    writeTraits (writeStorageTrait loop type) (compTraits comp)
    = Returned (inr (traits',
        withProperties trait (Some (<[type := JArray items']> properties))))
    ∧ (putWritten now ds comp traits'
         (withProperties trait (Some (<[type := JArray items']> properties)))).1
      = (Some {| traitAlias := traitAlias trait; traitDescription := traitDescription trait;
                 traitType := traitType trait;
                 traitProperties := Some (<[type := JArray items']> properties);
                 traitCreateTime := traitCreateTime trait; traitUpdateTime := now |}, None)
    ∧ ∀ itemOptions,
        DetailComponentStorageItem
          (putWritten now ds comp traits'
             (withProperties trait (Some (<[type := JArray items']> properties)))).2
          appPrimaryKey componentName itemOptions
        = recovered (None, None)
            (detailStorageTrait appPrimaryKey (compName comp)
               (withProperties trait (Some (<[type := JArray items']> properties)))
               itemOptions).
Proof.
  intros Hloop. unfold storageTraitOf in Htrait.
  destruct (find_split _ _ _ Htrait) as (tb & ta & Htraits & Htb & Hst).
  exists (tb ++ withProperties trait (Some (<[type := JArray items']> properties)) :: ta).
  split; [| split].
  - rewrite Htraits, writeTraits_first by done.
    unfold writeStorageTrait. by rewrite Hprops, Htype, Hloop.
  - unfold putWritten.
    by rewrite (proj1 (dsGet_dsPut ds (withTraits comp _) appPrimaryKey componentName Hput Hkeyed)).
  - intros itemOptions. unfold putWritten.
    destruct (dsGet_dsPut ds (withTraits comp
      (tb ++ withProperties trait (Some (<[type := JArray items']> properties)) :: ta))
      appPrimaryKey componentName Hput Hkeyed) as [Hp Hg].
    rewrite Hp in Hg |- *. cbn [snd] in *.
    unfold DetailComponentStorageItem. rewrite Hg. cbn [compTraits compName withTraits].
    by rewrite detailTraits_storageTraitOf, find_first.
Qed.

(** An update of a key the entry holds is stored and read back; the other
    keys of the entry read as before. *)
Theorem update_then_detail (updateReq : StorageItemRequest) :
  reqType updateReq = type →
  reqMountPath updateReq = mountPath →
  Forall (otherEntry mountPath) after →
  is_Some (data !! reqDataKey updateReq) →
  (∃ returned,
     (UpdateComponentStorageItem now ds appPrimaryKey componentName updateReq).1
     = (Some returned, None)
     ∧ traitUpdateTime returned = now)
  ∧ DetailComponentStorageItem
      (UpdateComponentStorageItem now ds appPrimaryKey componentName updateReq).2
      appPrimaryKey componentName (optionsOf updateReq)
    = (Some {| AppPrimaryKey := appPrimaryKey; ComponentName := compName comp;
               MountPath := mountPath; Key := reqDataKey updateReq;
               Type_ := type; Value := reqDataValue updateReq |}, None)
  ∧ ∀ other, other ≠ reqDataKey updateReq →
      DetailComponentStorageItem
        (UpdateComponentStorageItem now ds appPrimaryKey componentName updateReq).2
        appPrimaryKey componentName (withDataKey (optionsOf updateReq) other)
      = DetailComponentStorageItem ds appPrimaryKey componentName
          (withDataKey (optionsOf updateReq) other).
Proof.
  intros Ht Hm Hafter Hkey.
  pose proof (updateItems_written updateReq before entry data after) as Hloop.
  rewrite Hm in Hloop. specialize (Hloop Hbefore Hmount Hdata Hkey).
  destruct (write_stored (λ items, updateItems items updateReq) _ Hloop)
    as (traits' & Hw & Hres & Hread).
  unfold UpdateComponentStorageItem. rewrite Hget, Ht, Hw, Hres.
  split; [by eexists |].
  assert (∀ itemData,
    detailItems
      (before ++
       JObject (<[KeyData := JObject (<[reqDataKey updateReq := JString (reqDataValue updateReq)]> data)]> entry)
       :: after) mountPath itemData
    = Returned (inr (Some (<[reqDataKey updateReq := JString (reqDataValue updateReq)]> data))))
    as Hitems.
  { intros itemData. apply detailItems_found; try done.
    - rewrite lookup_insert_ne; [done | apply KeyData_ne_KeyMountPath].
    - apply lookup_insert_eq. }
  split.
  - rewrite Hread. unfold detailStorageTrait.
    cbn [traitProperties withProperties optionsOf optType optMountPath optDataKey].
    rewrite Ht, Hm, lookup_insert_eq, Hitems. by rewrite lookup_insert_eq.
  - intros other Hother. rewrite Hread, detail_before. unfold detailStorageTrait.
    cbn [traitProperties withProperties optionsOf withDataKey optType optMountPath optDataKey].
    rewrite Hprops, Ht, Hm, Htype, lookup_insert_eq, Hitems.
    rewrite (detailItems_found _ _ _ data) by done.
    by rewrite lookup_insert_ne.
Qed.

(** An update never adds a key. *)
Theorem update_of_missing_key_is_refused (updateReq : StorageItemRequest) :
  reqType updateReq = type →
  reqMountPath updateReq = mountPath →
  data !! reqDataKey updateReq = None →
  UpdateComponentStorageItem now ds appPrimaryKey componentName updateReq
  = ((None, Some (ErrBcode ErrStorageDataNotExists)), ds).
Proof.
  intros Ht Hm Hkey.
  pose proof (updateItems_missing_key updateReq before entry data after) as Hloop.
  rewrite Hm in Hloop. specialize (Hloop Hbefore Hmount Hdata Hkey).
  unfold UpdateComponentStorageItem.
  rewrite Hget. pose proof Htrait as Hfind. unfold storageTraitOf in Hfind.
  destruct (find_split _ _ _ Hfind) as (tb & ta & -> & Htb & Hst).
  rewrite writeTraits_first by done. unfold writeStorageTrait.
  by rewrite Hprops, Ht, Htype, Hloop.
Qed.

(** Deleting one of several keys of an entry removes that key only. *)
Theorem delete_then_detail (itemOptions : StorageItemOptions) :
  optType itemOptions = type →
  optMountPath itemOptions = mountPath →
  Forall (otherEntry mountPath) after →
  is_Some (data !! optDataKey itemOptions) →
  size (delete (optDataKey itemOptions) data) ≠ 0 →
  (∃ returned,
     (DeleteComponentStorageItem now ds appPrimaryKey componentName itemOptions).1
     = (Some returned, None))
  ∧ DetailComponentStorageItem
      (DeleteComponentStorageItem now ds appPrimaryKey componentName itemOptions).2
      appPrimaryKey componentName itemOptions
    = (None, Some (ErrBcode ErrStorageDataNotExists))
  ∧ ∀ other, other ≠ optDataKey itemOptions →
      DetailComponentStorageItem
        (DeleteComponentStorageItem now ds appPrimaryKey componentName itemOptions).2
        appPrimaryKey componentName (withDataKey itemOptions other)
      = DetailComponentStorageItem ds appPrimaryKey componentName
          (withDataKey itemOptions other).
Proof.
  intros Ht Hm Hafter Hkey Hsize.
  pose proof (deleteItems_written itemOptions before entry data after) as Hloop.
  rewrite Hm in Hloop. specialize (Hloop Hbefore Hmount Hdata Hkey).
  rewrite bool_decide_eq_false_2 in Hloop by done.
  destruct (write_stored (λ items, deleteItems items itemOptions) _ Hloop)
    as (traits' & Hw & Hres & Hread).
  unfold DeleteComponentStorageItem. rewrite Hget, Ht, Hw, Hres.
  split; [by eexists |].
  assert (∀ itemData, detailItems
      (before ++
       JObject (<[KeyData := JObject (delete (optDataKey itemOptions) data)]> entry)
       :: after) mountPath itemData
    = Returned (inr (Some (delete (optDataKey itemOptions) data))))
    as Hitems.
  { intros itemData. apply detailItems_found; try done.
    - rewrite lookup_insert_ne; [done | apply KeyData_ne_KeyMountPath].
    - apply lookup_insert_eq. }
  split.
  - rewrite Hread. unfold detailStorageTrait. cbn [traitProperties withProperties].
    rewrite Ht, lookup_insert_eq, Hm, Hitems. by rewrite lookup_delete_eq.
  - intros other Hother. rewrite Hread, detail_before. unfold detailStorageTrait.
    cbn [traitProperties withProperties withDataKey optType optMountPath optDataKey].
    rewrite Hprops, Ht, Htype, lookup_insert_eq, Hm, Hitems.
    rewrite (detailItems_found _ _ _ data) by done.
    by rewrite lookup_delete_ne.
Qed.

(** Deleting the last key of an entry puts a list where the entry was:
    afterwards a read of that storage type that gets as far as the entry's
    place panics, and the deferred recover makes it answer nothing at all. *)
Theorem delete_of_last_key_breaks_reads (itemOptions : StorageItemOptions) :
  optType itemOptions = type →
  optMountPath itemOptions = mountPath →
  is_Some (data !! optDataKey itemOptions) →
  size (delete (optDataKey itemOptions) data) = 0 →
  (∃ returned,
     (DeleteComponentStorageItem now ds appPrimaryKey componentName itemOptions).1
     = (Some returned, None)
     ∧ traitProperties returned
       = Some (<[type := JArray (before ++ JArray after :: after)]> properties))
  ∧ ∀ read, optType read = type →
      Forall (otherEntry (optMountPath read)) before →
      DetailComponentStorageItem
        (DeleteComponentStorageItem now ds appPrimaryKey componentName itemOptions).2
        appPrimaryKey componentName read
      = (None, None).
Proof.
  intros Ht Hm Hkey Hsize.
  pose proof (deleteItems_written itemOptions before entry data after) as Hloop.
  rewrite Hm in Hloop. specialize (Hloop Hbefore Hmount Hdata Hkey).
  rewrite bool_decide_eq_true_2 in Hloop by done.
  destruct (write_stored (λ items, deleteItems items itemOptions) _ Hloop)
    as (traits' & Hw & Hres & Hread).
  unfold DeleteComponentStorageItem. rewrite Hget, Ht, Hw, Hres.
  split; [by eexists |].
  intros read Hrt Hothers. rewrite Hread. unfold detailStorageTrait.
  cbn [traitProperties withProperties]. rewrite Hrt, lookup_insert_eq.
  by rewrite detailItems_other_prefix.
Qed.

End Entry.

(** ** The revisions that edit the marshalled document delete nothing *)

Lemma dsPut_same ds comp appPrimaryKey name :
  records ds !! (appPrimaryKey, name) = Some comp →
  keyedAs appPrimaryKey name comp →
  (dsPut ds comp).2 = ds.
Proof.
  intros Hrec [Hk Hn]. unfold dsPut. destruct ds as [recs [e|]]; cbn in *; [done |].
  by rewrite Hk, Hn, insert_id.
Qed.

(** Whatever it returns, [DeleteComponentStorageItem] of the revisions that
    edit the marshalled document leaves the store as it was. *)
Theorem delete_json_leaves_store
    (sjsonSetDecoded : JSONStruct → string → gmap string string → option error)
    (ds : DataStore) (appPrimaryKey componentName : string)
    (itemOptions : StorageItemOptions) :
  wellKeyed ds →
  (DeleteComponentStorageItemJSON sjsonSetDecoded ds appPrimaryKey componentName
     itemOptions).2 = ds.
Proof.
  intros Hkeyed. unfold DeleteComponentStorageItemJSON, dsGet.
  destruct (records ds !! (appPrimaryKey, componentName)) as [comp|] eqn:Hrec; [| done].
  destruct (deleteTraitsJSON _ _ _) as [[err | []] |]; try done.
  pose proof (dsPut_same ds comp _ _ Hrec (Hkeyed _ _ _ Hrec)) as Hsame.
  by destruct (dsPut ds comp).
Qed.

(** ** [CreateComponentStorageItem] *)

Lemma mergeItems_new_key createReq before entry data after :
  Forall (otherEntry (reqMountPath createReq)) before →
  entry !! KeyMountPath = Some (JString (reqMountPath createReq)) →
  entry !! KeyData = Some (JObject data) →
  data !! reqDataKey createReq = None →
  mergeItems (before ++ JObject entry :: after) createReq
  = LoopReturned None
      (before ++
       JObject (<[KeyData := JObject (<[reqDataKey createReq := JString (reqDataValue createReq)]> data)]> entry)
       :: after).
Proof.
  intros Hbefore Hmount Hdata Hkey.
  induction Hbefore as [| item before (fields & -> & _ & Hne) _ IH]; cbn [mergeItems app].
  - by rewrite Hmount, equalsString_same, Hdata, Hkey.
  - by rewrite Hne, IH.
Qed.

Lemma mergeItems_left createReq items :
  Forall (otherEntry (reqMountPath createReq)) items →
  mergeItems items createReq = LoopLeft.
Proof.
  induction 1 as [| item items (fields & -> & _ & Hne) _ IH]; cbn [mergeItems]; [done |].
  by rewrite Hne, IH.
Qed.

Lemma withLastProperties_last others trait p :
  withLastProperties (others ++ [trait]) p = others ++ [withProperties trait p].
Proof.
  unfold withLastProperties. rewrite reverse_snoc, reverse_cons.
  by rewrite reverse_involutive.
Qed.

Lemma rangeTraits_none traits hasStorageTrait trait :
  List.find isStorage traits = None →
  (rangeTraits traits hasStorageTrait trait).1 = hasStorageTrait.
Proof.
  revert hasStorageTrait trait.
  induction traits as [| t rest IH]; intros h v; cbn; [done |].
  destruct (isStorage t); [done |]. intros H. rewrite (IH _ _ H). apply orb_false_r.
Qed.

Lemma find_none_Forall {A} (f : A → bool) (l : list A) :
  List.find f l = None → Forall (λ y, f y = false) l.
Proof.
  induction l as [| y l IH]; cbn; [constructor |].
  destruct (f y) eqn:Hy; [done |]. intros H. constructor; [done | by apply IH].
Qed.

(** Reading a component that was just stored. *)
Lemma detail_after_put ds comp appPrimaryKey componentName before trait after itemOptions :
  putError ds = None →
  keyedAs appPrimaryKey componentName comp →
  Forall (λ t, isStorage t = false) before →
  isStorage trait = true →
  dsPut ds (withTraits comp (before ++ trait :: after))
  = (None, (dsPut ds (withTraits comp (before ++ trait :: after))).2)
  ∧ DetailComponentStorageItem (dsPut ds (withTraits comp (before ++ trait :: after))).2
      appPrimaryKey componentName itemOptions
    = recovered (None, None)
        (detailStorageTrait appPrimaryKey (compName comp) trait itemOptions).
Proof.
  intros Hput Hkeyed Hbefore Hstorage.
  destruct (dsGet_dsPut ds (withTraits comp (before ++ trait :: after))
              appPrimaryKey componentName Hput Hkeyed) as [Hp Hg].
  split; [by rewrite Hp |].
  unfold DetailComponentStorageItem. rewrite Hg. cbn [compTraits compName withTraits].
  by rewrite detailTraits_storageTraitOf, find_first.
Qed.

(** The name the request gets when it has none changes nothing else. *)
Lemma named_request (createReq : StorageItemRequest) (name : string) :
  let named := if bool_decide (reqName createReq = EmptyString)
               then withName createReq name else createReq in
  reqType named = reqType createReq ∧ reqMountPath named = reqMountPath createReq
  ∧ reqDataKey named = reqDataKey createReq ∧ reqDataValue named = reqDataValue createReq.
Proof. cbn. by case_bool_decide. Qed.

Lemma storageTraitCMSpec_found createReq items itemData :
  Forall (otherEntry (reqMountPath createReq)) items →
  detailItems (items ++ [storageTraitCMSpec createReq]) (reqMountPath createReq) itemData
  = Returned (inr (Some {[ reqDataKey createReq := JString (reqDataValue createReq) ]})).
Proof.
  intros Hitems. unfold storageTraitCMSpec.
  by apply (detailItems_found _ items _ _ []).
Qed.

(** A key created in an entry that exists is stored and read back, and the
    other keys of the entry read as before, when the storage trait is the
    last trait of the component and its only storage trait. *)
Theorem create_key_then_detail
    (now : Z) (ds : DataStore) (appPrimaryKey componentName : string)
    (createReq : StorageItemRequest) (comp : ApplicationComponent)
    (others : list ApplicationTrait) (trait : ApplicationTrait)
    (properties : JSONStruct) (before after : list JSON) (entry data : JSONStruct) :
  dsGet ds appPrimaryKey componentName = inr comp →
  keyedAs appPrimaryKey componentName comp →
  putError ds = None →
  compTraits comp = others ++ [trait] →
  Forall (λ t, isStorage t = false) others →
  isStorage trait = true →
  traitProperties trait = Some properties →
  properties !! reqType createReq = Some (JArray (before ++ JObject entry :: after)) →
  Forall (otherEntry (reqMountPath createReq)) before →
  Forall (otherEntry (reqMountPath createReq)) after →
  entry !! KeyMountPath = Some (JString (reqMountPath createReq)) →
  entry !! KeyData = Some (JObject data) →
  data !! reqDataKey createReq = None →
  (∃ returned,
     (CreateComponentStorageItem now ds appPrimaryKey componentName createReq).1
     = Returned (Some returned, None))
  ∧ DetailComponentStorageItem
      (CreateComponentStorageItem now ds appPrimaryKey componentName createReq).2
      appPrimaryKey componentName (optionsOf createReq)
    = (Some {| AppPrimaryKey := appPrimaryKey; ComponentName := compName comp;
               MountPath := reqMountPath createReq; Key := reqDataKey createReq;
               Type_ := reqType createReq; Value := reqDataValue createReq |}, None)
  ∧ ∀ other, other ≠ reqDataKey createReq →
      DetailComponentStorageItem
        (CreateComponentStorageItem now ds appPrimaryKey componentName createReq).2
        appPrimaryKey componentName (withDataKey (optionsOf createReq) other)
      = DetailComponentStorageItem ds appPrimaryKey componentName
          (withDataKey (optionsOf createReq) other).
Proof.
  intros Hget Hkeyed Hput Htraits Hothers Hstorage Hprops Htype Hbefore Hafter
    Hmount Hdata Hkey.
  unfold CreateComponentStorageItem. rewrite Hget, Htraits, rangeTraits_app, Hstorage.
  rewrite orb_true_r. unfold mergeStorageItem. rewrite Hprops.
  destruct (named_request createReq
              (componentName +:+ replaceSlashes (reqMountPath createReq)
               +:+ reqDataKey createReq)) as (Ht & Hm & Hk & Hv).
  set (named := if bool_decide (reqName createReq = EmptyString) then _ else createReq) in *.
  rewrite Ht, Htype.
  rewrite (mergeItems_new_key named before entry data after) by (rewrite ?Hm, ?Hk; done).
  rewrite Hk, Hv. cbn [fmap option_fmap option_map]. rewrite withLastProperties_last.
  set (written := <[reqType createReq := _]> properties).
  assert (isStorage (withProperties trait (Some written)) = true) as Hst by done.
  destruct (detail_after_put ds comp appPrimaryKey componentName others
              (withProperties trait (Some written)) [] (optionsOf createReq)
              Hput Hkeyed Hothers Hst) as [Hp _].
  rewrite Hp. cbn [fst snd].
  split; [by eexists |].
  assert (∀ itemData,
    detailItems
      (before ++
       JObject (<[KeyData := JObject (<[reqDataKey createReq := JString (reqDataValue createReq)]> data)]> entry)
       :: after) (reqMountPath createReq) itemData
    = Returned (inr (Some (<[reqDataKey createReq := JString (reqDataValue createReq)]> data))))
    as Hitems.
  { intros itemData. apply detailItems_found; try done.
    - rewrite lookup_insert_ne; [done | apply KeyData_ne_KeyMountPath].
    - apply lookup_insert_eq. }
  split.
  - rewrite (proj2 (detail_after_put ds comp appPrimaryKey componentName others
              (withProperties trait (Some written)) [] _ Hput Hkeyed Hothers Hst)).
    unfold detailStorageTrait, written.
    cbn [traitProperties withProperties optionsOf optType optMountPath optDataKey].
    rewrite lookup_insert_eq, Hitems. by rewrite lookup_insert_eq.
  - intros other Hother.
    rewrite (proj2 (detail_after_put ds comp appPrimaryKey componentName others
              (withProperties trait (Some written)) [] _ Hput Hkeyed Hothers Hst)).
    unfold DetailComponentStorageItem. rewrite Hget, Htraits, detailTraits_storageTraitOf.
    rewrite find_first by done.
    unfold detailStorageTrait, written.
    cbn [traitProperties withProperties optionsOf withDataKey optType optMountPath optDataKey].
    rewrite Hprops, Htype, lookup_insert_eq, Hitems.
    rewrite (detailItems_found _ _ _ data) by done.
    by rewrite lookup_insert_ne.
Qed.

(** An item created under a mount path no entry has is appended as an
    entry of its own, stored and read back. *)
Theorem create_mount_path_then_detail
    (now : Z) (ds : DataStore) (appPrimaryKey componentName : string)
    (createReq : StorageItemRequest) (comp : ApplicationComponent)
    (others : list ApplicationTrait) (trait : ApplicationTrait)
    (properties : JSONStruct) (items : list JSON) :
  dsGet ds appPrimaryKey componentName = inr comp →
  keyedAs appPrimaryKey componentName comp →
  putError ds = None →
  compTraits comp = others ++ [trait] →
  Forall (λ t, isStorage t = false) others →
  isStorage trait = true →
  traitProperties trait = Some properties →
  properties !! reqType createReq = Some (JArray items) →
  Forall (otherEntry (reqMountPath createReq)) items →
  (∃ returned written,
     (CreateComponentStorageItem now ds appPrimaryKey componentName createReq).1
     = Returned (Some returned, None)
     ∧ traitProperties returned = Some written
     ∧ ∃ added, written !! reqType createReq = Some (JArray (items ++ [added])))
  ∧ DetailComponentStorageItem
      (CreateComponentStorageItem now ds appPrimaryKey componentName createReq).2
      appPrimaryKey componentName (optionsOf createReq)
    = (Some {| AppPrimaryKey := appPrimaryKey; ComponentName := compName comp;
               MountPath := reqMountPath createReq; Key := reqDataKey createReq;
               Type_ := reqType createReq; Value := reqDataValue createReq |}, None).
Proof.
  intros Hget Hkeyed Hput Htraits Hothers Hstorage Hprops Htype Hitems.
  unfold CreateComponentStorageItem. rewrite Hget, Htraits, rangeTraits_app, Hstorage.
  rewrite orb_true_r. unfold mergeStorageItem. rewrite Hprops.
  destruct (named_request createReq
              (componentName +:+ replaceSlashes (reqMountPath createReq)
               +:+ reqDataKey createReq)) as (Ht & Hm & Hk & Hv).
  set (named := if bool_decide (reqName createReq = EmptyString) then _ else createReq) in *.
  rewrite Ht, Htype.
  rewrite (mergeItems_left named items) by (by rewrite Hm).
  rewrite withLastProperties_last.
  set (written := <[reqType createReq := _]> properties).
  assert (isStorage (withProperties trait (Some written)) = true) as Hst by done.
  destruct (detail_after_put ds comp appPrimaryKey componentName others
              (withProperties trait (Some written)) [] (optionsOf createReq)
              Hput Hkeyed Hothers Hst) as [Hp Hread].
  rewrite Hp. cbn [fst snd]. split.
  - eexists _, written. split; [done |]. split; [done |].
    eexists. unfold written. apply lookup_insert_eq.
  - rewrite Hread. unfold detailStorageTrait, written.
    cbn [traitProperties withProperties optionsOf optType optMountPath optDataKey].
    rewrite lookup_insert_eq, <- Hm.
    rewrite (storageTraitCMSpec_found named items None) by (by rewrite Hm).
    rewrite Hk, Hv, Hm. by rewrite lookup_singleton_eq.
Qed.

(** The first configMap item of a component without a storage trait: the
    component is stored with a new storage trait that holds the item, and
    the call panics on its way out, [storageTrait] of the function's scope
    being nil. *)
Theorem create_first_item_is_stored_and_panics
    (now : Z) (ds : DataStore) (appPrimaryKey componentName : string)
    (createReq : StorageItemRequest) (comp : ApplicationComponent) :
  dsGet ds appPrimaryKey componentName = inr comp →
  keyedAs appPrimaryKey componentName comp →
  putError ds = None →
  storageTraitOf comp = None →
  reqType createReq = KeyConfigMap →
  (CreateComponentStorageItem now ds appPrimaryKey componentName createReq).1 = Panicked
  ∧ DetailComponentStorageItem
      (CreateComponentStorageItem now ds appPrimaryKey componentName createReq).2
      appPrimaryKey componentName (optionsOf createReq)
    = (Some {| AppPrimaryKey := appPrimaryKey; ComponentName := compName comp;
               MountPath := reqMountPath createReq; Key := reqDataKey createReq;
               Type_ := reqType createReq; Value := reqDataValue createReq |}, None).
Proof.
  intros Hget Hkeyed Hput Hnone Htype. unfold storageTraitOf in Hnone.
  unfold CreateComponentStorageItem. rewrite Hget.
  pose proof (rangeTraits_none (compTraits comp) false None Hnone) as Hrange.
  destruct (rangeTraits (compTraits comp) false None) as [has last]. cbn in Hrange. subst has.
  destruct (named_request createReq
              (componentName +:+ replaceSlashes (reqMountPath createReq)
               +:+ reqDataKey createReq)) as (Ht & Hm & Hk & Hv).
  set (named := if bool_decide (reqName createReq = EmptyString) then _ else createReq) in *.
  unfold creatStorageTraitAndItem. rewrite Ht, Htype, bool_decide_eq_true_2 by done.
  set (created := {| traitAlias := EmptyString; traitDescription := _; traitType := _;
                     traitProperties := _; traitCreateTime := _; traitUpdateTime := _ |}).
  assert (isStorage created = true) as Hst by done.
  destruct (detail_after_put ds comp appPrimaryKey componentName (compTraits comp)
              created [] (optionsOf createReq)
              Hput Hkeyed (find_none_Forall _ _ Hnone) Hst) as [Hp Hread].
  rewrite Hp. cbn [fst snd]. split; [done |].
  rewrite Hread. unfold detailStorageTrait, created.
  cbn [traitProperties optionsOf optType optMountPath optDataKey].
  rewrite Htype, lookup_singleton_eq, <- Hm.
  pose proof (storageTraitCMSpec_found named [] None ltac:(constructor)) as Hspec.
  cbn [app] in Hspec. rewrite Hspec.
  rewrite Hk, Hv, Hm. by rewrite lookup_singleton_eq.
Qed.

(** Without a storage trait, only configMap items can be created: any
    other type is refused and nothing is stored. *)
Theorem create_first_item_of_other_type_is_refused
    (now : Z) (ds : DataStore) (appPrimaryKey componentName : string)
    (createReq : StorageItemRequest) (comp : ApplicationComponent) :
  dsGet ds appPrimaryKey componentName = inr comp →
  storageTraitOf comp = None →
  reqType createReq ≠ KeyConfigMap →
  CreateComponentStorageItem now ds appPrimaryKey componentName createReq
  = (Returned (None, Some (ErrBcode ErrStorageTraitTypeNotSupport)), ds).
Proof.
  intros Hget Hnone Htype. unfold storageTraitOf in Hnone.
  unfold CreateComponentStorageItem. rewrite Hget.
  pose proof (rangeTraits_none (compTraits comp) false None Hnone) as Hrange.
  destruct (rangeTraits (compTraits comp) false None) as [has last]. cbn in Hrange. subst has.
  destruct (named_request createReq
              (componentName +:+ replaceSlashes (reqMountPath createReq)
               +:+ reqDataKey createReq)) as (Ht & _).
  set (named := if bool_decide (reqName createReq = EmptyString) then _ else createReq) in *.
  unfold creatStorageTraitAndItem. rewrite Ht. by rewrite bool_decide_eq_false_2.
Qed.

(** ** The theorems above on the sample store *)

Lemma sampleStore_wellKeyed traits : wellKeyed (sampleStore traits).
Proof.
  intros appPrimaryKey name comp H. unfold sampleStore in H. cbn in H.
  apply lookup_singleton_Some in H as [[= <- <-] <-]. by split.
Qed.

Ltac sample_entries :=
  repeat (constructor; [eexists; split; [reflexivity | split; [by eexists | reflexivity]] |]);
  constructor.

Ltac sample :=
  first [ reflexivity | solve [sample_entries] | solve [repeat constructor]
        | by eexists | by vm_compute ].


Lemma update_then_detail_example :
  DetailComponentStorageItem
    (UpdateComponentStorageItem 20%Z sampleTwoKeyStore "shop" "web"
       (sampleRequest "/etc/conf" "log" "info")).2
    "shop" "web" (sampleOptions KeyConfigMap "/etc/conf" "log")
  = (Some {| AppPrimaryKey := "shop"; ComponentName := "web"; MountPath := "/etc/conf";
             Key := "log"; Type_ := KeyConfigMap; Value := "info" |}, None).
Proof.
  refine (proj1 (proj2 (update_then_detail 20%Z sampleTwoKeyStore "shop" "web"
            (sampleComponent [sampleScalerTrait; sampleTwoKeyTrait]) sampleTwoKeyTrait
            sampleTwoKeyProperties [JObject sampleOtherEntry] [] sampleTwoKeyEntry
            {[ "app" := JString "x"; "log" := JString "debug" ]} KeyConfigMap "/etc/conf"
            _ _ _ _ _ _ _ _ _ (sampleRequest "/etc/conf" "log" "info") _ _ _ _))); sample.
Defined.

Lemma update_of_missing_key_is_refused_example :
  UpdateComponentStorageItem 20%Z sampleTwoKeyStore "shop" "web"
    (sampleRequest "/etc/conf" "mode" "fast")
  = ((None, Some (ErrBcode ErrStorageDataNotExists)), sampleTwoKeyStore).
Proof.
  refine (update_of_missing_key_is_refused 20%Z sampleTwoKeyStore "shop" "web"
            (sampleComponent [sampleScalerTrait; sampleTwoKeyTrait]) sampleTwoKeyTrait
            sampleTwoKeyProperties [JObject sampleOtherEntry] [] sampleTwoKeyEntry
            {[ "app" := JString "x"; "log" := JString "debug" ]} KeyConfigMap "/etc/conf"
            _ _ _ _ _ _ _ (sampleRequest "/etc/conf" "mode" "fast") _ _ _); sample.
Defined.

Lemma delete_then_detail_example :
  DetailComponentStorageItem
    (DeleteComponentStorageItem 20%Z sampleTwoKeyStore "shop" "web"
       (sampleOptions KeyConfigMap "/etc/conf" "log")).2
    "shop" "web" (sampleOptions KeyConfigMap "/etc/conf" "log")
  = (None, Some (ErrBcode ErrStorageDataNotExists)).
Proof.
  refine (proj1 (proj2 (delete_then_detail 20%Z sampleTwoKeyStore "shop" "web"
            (sampleComponent [sampleScalerTrait; sampleTwoKeyTrait]) sampleTwoKeyTrait
            sampleTwoKeyProperties [JObject sampleOtherEntry] [] sampleTwoKeyEntry
            {[ "app" := JString "x"; "log" := JString "debug" ]} KeyConfigMap "/etc/conf"
            _ _ _ _ _ _ _ _ _ (sampleOptions KeyConfigMap "/etc/conf" "log") _ _ _ _ _)));
    sample.
Defined.

Lemma delete_of_last_key_breaks_reads_example :
  DetailComponentStorageItem
    (DeleteComponentStorageItem 20%Z (sampleStore [sampleScalerTrait; sampleStorageTrait])
       "shop" "web" (sampleOptions KeyConfigMap "/etc/conf" "app")).2
    "shop" "web" (sampleOptions KeyConfigMap "/etc/conf" "app")
  = (None, None).
Proof.
  refine (proj2 (delete_of_last_key_breaks_reads 20%Z
            (sampleStore [sampleScalerTrait; sampleStorageTrait]) "shop" "web"
            (sampleComponent [sampleScalerTrait; sampleStorageTrait]) sampleStorageTrait
            _ [] [] _ {[ "app" := JString "x" ]} KeyConfigMap "/etc/conf"
            _ _ _ _ _ _ _ _ _ (sampleOptions KeyConfigMap "/etc/conf" "app") _ _ _ _)
            (sampleOptions KeyConfigMap "/etc/conf" "app") _ _); sample.
Defined.

Lemma delete_json_leaves_store_example :
  (DeleteComponentStorageItemJSON (λ _ _ _, None) sampleTwoKeyStore "shop" "web"
     (sampleOptions KeyConfigMap "/etc/conf" "log")).2
  = sampleTwoKeyStore.
Proof.
  apply (delete_json_leaves_store (λ _ _ _, None) sampleTwoKeyStore "shop" "web"
           (sampleOptions KeyConfigMap "/etc/conf" "log")).
  apply sampleStore_wellKeyed.
Defined.

Lemma create_key_then_detail_example :
  DetailComponentStorageItem
    (CreateComponentStorageItem 20%Z sampleTwoKeyStore "shop" "web"
       (sampleRequest "/etc/conf" "mode" "fast")).2
    "shop" "web" (sampleOptions KeyConfigMap "/etc/conf" "mode")
  = (Some {| AppPrimaryKey := "shop"; ComponentName := "web"; MountPath := "/etc/conf";
             Key := "mode"; Type_ := KeyConfigMap; Value := "fast" |}, None).
Proof.
  refine (proj1 (proj2 (create_key_then_detail 20%Z sampleTwoKeyStore "shop" "web"
            (sampleRequest "/etc/conf" "mode" "fast")
            (sampleComponent [sampleScalerTrait; sampleTwoKeyTrait])
            [sampleScalerTrait] sampleTwoKeyTrait
            sampleTwoKeyProperties [JObject sampleOtherEntry] [] sampleTwoKeyEntry
            {[ "app" := JString "x"; "log" := JString "debug" ]}
            _ _ _ _ _ _ _ _ _ _ _ _ _))); sample.
Defined.

Lemma create_mount_path_then_detail_example :
  DetailComponentStorageItem
    (CreateComponentStorageItem 20%Z sampleTwoKeyStore "shop" "web"
       (sampleRequest "/opt" "license" "mit")).2
    "shop" "web" (sampleOptions KeyConfigMap "/opt" "license")
  = (Some {| AppPrimaryKey := "shop"; ComponentName := "web"; MountPath := "/opt";
             Key := "license"; Type_ := KeyConfigMap; Value := "mit" |}, None).
Proof.
  refine (proj2 (create_mount_path_then_detail 20%Z sampleTwoKeyStore "shop" "web"
            (sampleRequest "/opt" "license" "mit")
            (sampleComponent [sampleScalerTrait; sampleTwoKeyTrait])
            [sampleScalerTrait] sampleTwoKeyTrait
            sampleTwoKeyProperties [JObject sampleOtherEntry; JObject sampleTwoKeyEntry]
            _ _ _ _ _ _ _ _ _)); sample.
Defined.

Lemma create_first_item_is_stored_and_panics_example :
  (CreateComponentStorageItem 20%Z (sampleStore [sampleScalerTrait]) "shop" "web"
     (sampleRequest "/etc/conf" "app" "x")).1 = Panicked
  ∧ DetailComponentStorageItem
      (CreateComponentStorageItem 20%Z (sampleStore [sampleScalerTrait]) "shop" "web"
         (sampleRequest "/etc/conf" "app" "x")).2
      "shop" "web" (sampleOptions KeyConfigMap "/etc/conf" "app")
    = (Some {| AppPrimaryKey := "shop"; ComponentName := "web"; MountPath := "/etc/conf";
               Key := "app"; Type_ := KeyConfigMap; Value := "x" |}, None).
Proof.
  refine (create_first_item_is_stored_and_panics 20%Z (sampleStore [sampleScalerTrait])
            "shop" "web" (sampleRequest "/etc/conf" "app" "x")
            (sampleComponent [sampleScalerTrait]) _ _ _ _ _); sample.
Defined.

Lemma create_first_item_of_other_type_is_refused_example :
  CreateComponentStorageItem 20%Z (sampleStore [sampleScalerTrait]) "shop" "web"
    (sampleSecretRequest "/etc/keys" "token" "t")
  = (Returned (None, Some (ErrBcode ErrStorageTraitTypeNotSupport)),
     sampleStore [sampleScalerTrait]).
Proof.
  refine (create_first_item_of_other_type_is_refused 20%Z (sampleStore [sampleScalerTrait])
            "shop" "web" (sampleSecretRequest "/etc/keys" "token" "t")
            (sampleComponent [sampleScalerTrait]) _ _ _); sample.
Defined.

End StoreFacts.
